(** * MAVLink network core of the Skybrush server

    A shallow embedding of [flockwave/server/ext/mavlink/network.py]
    (class [MAVLinkNetwork]) and of the RTK fan-out handler of
    [flockwave/server/ext/sidekick.py], with the properties of the
    specification stated and proved over the embedding.

    Python objects that are shared by reference (parameter dictionaries,
    message specifications, matcher lists, futures, UAV objects) live in
    object stores of the state and are named by their index there. *)

From Stdlib Require Import ZArith String Ascii List Bool Lia Floats DecimalString DecimalZ.
From Stdlib.Strings Require Import Byte.
From stdpp Require Import base gmap strings list fin_maps option.

Local Open Scope string_scope.
Local Open Scope list_scope.
Local Open Scope Z_scope.

(** ** Python values *)

#[global] Instance byte_eq_dec : EqDecision byte := Byte.byte_eq_dec.

(** The values that occur as message fields and as expected values of a
    matcher.  A Python [str] is held in its UTF-8 encoding, so two [str]
    values are equal exactly when their encodings are. *)
Inductive Value :=
| VNone
| VInt (z : Z)
| VStr (s : string)
| VBytes (b : list byte).

#[global] Instance Value_eq_dec : EqDecision Value.
Proof. solve_decision. Defined.

(** Python [==] on values: values of different types are never equal. *)
Definition py_eq (a b : Value) : bool := bool_decide (a = b).

(** *** [bytes.decode("utf-8")] *)

Definition in_range (lo hi b : N) : bool := ((lo <=? b) && (b <=? hi))%N.

Definition continuation (b : N) : bool := in_range 0x80 0xBF b.

(** Well-formed UTF-8 byte sequences (no overlong forms, no surrogates,
    nothing above U+10FFFF), as the strict decoder of Python accepts them. *)
Fixpoint utf8_valid (bs : list N) : bool :=
  match bs with
  | [] => true
  | b0 :: r0 =>
      if (b0 <? 0x80)%N then utf8_valid r0
      else if in_range 0xC2 0xDF b0 then
        match r0 with
        | b1 :: r1 => continuation b1 && utf8_valid r1
        | _ => false
        end
      else if in_range 0xE0 0xEF b0 then
        match r0 with
        | b1 :: b2 :: r2 =>
            in_range (if (b0 =? 0xE0)%N then 0xA0 else 0x80)%N
                     (if (b0 =? 0xED)%N then 0x9F else 0xBF)%N b1
            && continuation b2 && utf8_valid r2
        | _ => false
        end
      else if in_range 0xF0 0xF4 b0 then
        match r0 with
        | b1 :: b2 :: b3 :: r3 =>
            in_range (if (b0 =? 0xF0)%N then 0x90 else 0x80)%N
                     (if (b0 =? 0xF4)%N then 0x8F else 0xBF)%N b1
            && continuation b2 && continuation b3 && utf8_valid r3
        | _ => false
        end
      else false
  end.

(** [value.decode("utf-8")]; [None] stands for the [UnicodeDecodeError]
    (a [ValueError]) of an ill-formed sequence. *)
Definition bytes_decode_utf8 (b : list byte) : option string :=
  if utf8_valid (map Byte.to_N b) then Some (string_of_list_byte b) else None.

(** ** Messages *)

(** An inbound MAVLink message as the codec delivers it. *)
Record MAVLinkMessage := {
  msg_type : string;              (* get_type() *)
  msg_srcSystem : Z;              (* get_srcSystem() *)
  msg_srcComponent : Z;           (* get_srcComponent() *)
  msg_fields : gmap string Value  (* the typed fields, read as attributes *)
}.

(** [getattr(message, name, None)] *)
Definition getattr_default (m : MAVLinkMessage) (name : string) : Value :=
  default VNone (msg_fields m !! name).

(** [message.name]; [None] stands for the [AttributeError]. *)
Definition getattr (m : MAVLinkMessage) (name : string) : option Value :=
  msg_fields m !! name.

(** Reference to an object of one of the stores. *)
Abbreviation ref := nat.

(** [MAVLinkMessageMatcher]: [None], a field dictionary (shared with the
    caller, hence a reference) or a callable.  Function objects compare by
    identity, which the tag [fn_id] stands for. *)
Inductive Matcher :=
| MNone
| MDict (d : ref)
| MCallable (fn_id : nat) (fn : MAVLinkMessage -> bool).

(** [MAVLinkMessageSpecification]: a message type and a field dictionary. *)
Definition MessageSpec : Type := string * ref.

(** Item of a matcher list: [(system_id, params, future)]. *)
Record Entry := {
  entry_system_id : option Z;
  entry_params : Matcher;
  entry_future : ref
}.

(** ** Exceptions and the state-and-error monad *)

Inductive PyExc :=
| AttributeError (what : string)
| TypeError (what : string)
| ValueError (what : string)
| RuntimeError (what : string).

Inductive Result (A : Type) :=
| Ok (a : A)
| Raise (e : PyExc).
Arguments Ok {A} a.
Arguments Raise {A} e.

Definition is_ok {A} (r : Result A) : bool :=
  match r with Ok _ => true | Raise _ => false end.

(** ** Collaborators outside this module *)

(** A transport connection: opaque, except for whether it is a listener. *)
Record Connection := {
  conn_spec : string;
  conn_is_listener : bool
}.

(** Enumerations, helpers and factories that [network.py] imports from
    modules outside this development. *)
Class Externals := {
  (* MAVMessageType(type).name; None when the number names no message *)
  MAVMessageType_name : Z -> option string;
  MAVComponent_AUTOPILOT1 : Z;
  MAVType_GCS : Z;
  MAVAutopilot_INVALID : Z;
  MAVState_STANDBY : Z;
  (* MAVType(value).is_vehicle; None when the number names no type *)
  MAVType_is_vehicle : Z -> option bool;
  DroneShowStatus_TYPE : Z;
  log_level_from_severity : Value -> Z;
  log_id_from_message : MAVLinkMessage -> string -> string;
  create_connection : string -> Connection;
  (* pattern.format(system_id, network_id) *)
  str_format : string -> Z -> string -> string;
  (* MAVLink version of a UAV object fresh from the driver *)
  driver_mavlink_version : Z
}.

Definition Address : Type := string.

(** What the driver's UAV objects are asked to do. *)
Inductive UAVCall :=
| UAV_handle_message (kind : string) (m : MAVLinkMessage)
| UAV_notify_prearm_failure (text : string).

Record UAVObject := {
  uav_id : string;
  uav_network_id : option string;
  uav_system_id : option Z;
  uav_mavlink_version : Z;
  uav_calls : list UAVCall
}.

(** Calls on a [Future]; the class itself is outside this module. *)
Inductive FutureCall :=
| F_set_result (m : MAVLinkMessage)
| F_cancel.

(** Calls on the logger. *)
Inductive LogCall :=
| log_warn (text : string) (extra : option string)
| log_info (text : string)
| log_exception (text : string)
| log_log (level : Z) (text : Value) (extra : option string).

(** Calls on the communication manager. *)
Inductive ManagerCall :=
| mgr_send_packet (type : string) (fields : gmap string Value)
                  (destination : string * Address)
| mgr_broadcast_packet (type : string) (fields : gmap string Value)
                       (allow_failure : bool).

(** The communication manager that [run] creates. *)
Record Manager := {
  mgr_packet_loss : float;
  mgr_links : list (Connection * string)
}.

(** Registration of a connection in the application ([use_connection]). *)
Record ConnectionUse := {
  use_conn : Connection;
  use_name : string;
  use_description : string
}.

(** ** The network object and the world around it *)

Record Network := {
  _id : string;
  _id_formatter : Z -> string -> string;
  _matchers : option (gmap string ref);   (* type -> matcher list *)
  _packet_loss : float;
  _system_id : Z;
  _connections : list Connection;
  _uavs : gmap Z ref;
  _uav_addresses : gmap ref Address;
  manager : option Manager                (* bound while [run] is active *)
}.

Record State := {
  net : Network;
  dicts : list (gmap string Value);       (* dictionary objects *)
  lists : list (list Entry);              (* matcher list objects *)
  futures : list (list FutureCall);       (* Future objects: calls so far *)
  uav_objs : list UAVObject;              (* UAV objects of the driver *)
  registered : list ref;                  (* register_uav calls *)
  log : list LogCall;
  sent : list ManagerCall;
  used_connections : list ConnectionUse;
  now_ns : Z                              (* time_ns() *)
}.

Definition with_matchers (v : option (gmap string ref)) (n : Network) : Network :=
  {| _id := _id n; _id_formatter := _id_formatter n; _matchers := v;
     _packet_loss := _packet_loss n; _system_id := _system_id n;
     _connections := _connections n; _uavs := _uavs n;
     _uav_addresses := _uav_addresses n; manager := manager n |}.

Definition with_connections (v : list Connection) (n : Network) : Network :=
  {| _id := _id n; _id_formatter := _id_formatter n; _matchers := _matchers n;
     _packet_loss := _packet_loss n; _system_id := _system_id n;
     _connections := v; _uavs := _uavs n;
     _uav_addresses := _uav_addresses n; manager := manager n |}.

Definition with_uavs (v : gmap Z ref) (n : Network) : Network :=
  {| _id := _id n; _id_formatter := _id_formatter n; _matchers := _matchers n;
     _packet_loss := _packet_loss n; _system_id := _system_id n;
     _connections := _connections n; _uavs := v;
     _uav_addresses := _uav_addresses n; manager := manager n |}.

Definition with_uav_addresses (v : gmap ref Address) (n : Network) : Network :=
  {| _id := _id n; _id_formatter := _id_formatter n; _matchers := _matchers n;
     _packet_loss := _packet_loss n; _system_id := _system_id n;
     _connections := _connections n; _uavs := _uavs n;
     _uav_addresses := v; manager := manager n |}.

Definition with_manager (v : option Manager) (n : Network) : Network :=
  {| _id := _id n; _id_formatter := _id_formatter n; _matchers := _matchers n;
     _packet_loss := _packet_loss n; _system_id := _system_id n;
     _connections := _connections n; _uavs := _uavs n;
     _uav_addresses := _uav_addresses n; manager := v |}.

Definition set_net (v : Network) (s : State) : State :=
  {| net := v; dicts := dicts s; lists := lists s; futures := futures s;
     uav_objs := uav_objs s; registered := registered s; log := log s;
     sent := sent s; used_connections := used_connections s; now_ns := now_ns s |}.

Definition set_dicts (v : list (gmap string Value)) (s : State) : State :=
  {| net := net s; dicts := v; lists := lists s; futures := futures s;
     uav_objs := uav_objs s; registered := registered s; log := log s;
     sent := sent s; used_connections := used_connections s; now_ns := now_ns s |}.

Definition set_lists (v : list (list Entry)) (s : State) : State :=
  {| net := net s; dicts := dicts s; lists := v; futures := futures s;
     uav_objs := uav_objs s; registered := registered s; log := log s;
     sent := sent s; used_connections := used_connections s; now_ns := now_ns s |}.

Definition set_futures (v : list (list FutureCall)) (s : State) : State :=
  {| net := net s; dicts := dicts s; lists := lists s; futures := v;
     uav_objs := uav_objs s; registered := registered s; log := log s;
     sent := sent s; used_connections := used_connections s; now_ns := now_ns s |}.

Definition set_uav_objs (v : list UAVObject) (s : State) : State :=
  {| net := net s; dicts := dicts s; lists := lists s; futures := futures s;
     uav_objs := v; registered := registered s; log := log s;
     sent := sent s; used_connections := used_connections s; now_ns := now_ns s |}.

Definition set_registered (v : list ref) (s : State) : State :=
  {| net := net s; dicts := dicts s; lists := lists s; futures := futures s;
     uav_objs := uav_objs s; registered := v; log := log s;
     sent := sent s; used_connections := used_connections s; now_ns := now_ns s |}.

Definition set_log (v : list LogCall) (s : State) : State :=
  {| net := net s; dicts := dicts s; lists := lists s; futures := futures s;
     uav_objs := uav_objs s; registered := registered s; log := v;
     sent := sent s; used_connections := used_connections s; now_ns := now_ns s |}.

Definition set_sent (v : list ManagerCall) (s : State) : State :=
  {| net := net s; dicts := dicts s; lists := lists s; futures := futures s;
     uav_objs := uav_objs s; registered := registered s; log := log s;
     sent := v; used_connections := used_connections s; now_ns := now_ns s |}.

Definition set_used_connections (v : list ConnectionUse) (s : State) : State :=
  {| net := net s; dicts := dicts s; lists := lists s; futures := futures s;
     uav_objs := uav_objs s; registered := registered s; log := log s;
     sent := sent s; used_connections := v; now_ns := now_ns s |}.

Definition upd_net (f : Network -> Network) (s : State) : State :=
  set_net (f (net s)) s.

(** The logger, the manager and the registry only record what they are asked. *)
Definition emit (c : LogCall) (s : State) : State := set_log (log s ++ [c]) s.
Definition transmit (c : ManagerCall) (s : State) : State := set_sent (sent s ++ [c]) s.

(** Computations on the state that may raise; the state at the raise is kept. *)
Definition M (A : Type) : Type := State -> Result A * State.

Definition ret {A} (a : A) : M A := fun s => (Ok a, s).
Definition raise {A} (e : PyExc) : M A := fun s => (Raise e, s).
Definition bind {A B} (m : M A) (k : A -> M B) : M B :=
  fun s => match m s with
           | (Ok a, s') => k a s'
           | (Raise e, s') => (Raise e, s')
           end.
Definition modify (f : State -> State) : M unit := fun s => (Ok tt, f s).
Definition gets {A} (f : State -> A) : M A := fun s => (Ok (f s), s).

Notation "'let*' x ':=' m 'in' k" := (bind m (fun x => k))
  (at level 10, x pattern, m at level 100, k at level 200).
Notation "m ';;' k" := (bind m (fun _ => k))
  (at level 100, k at level 200, right associativity).

(** [try: body finally: cleanup] *)
Definition try_finally {A} (body : M A) (cleanup : M unit) : M A :=
  fun s => match body s with
           | (r, s') => match cleanup s' with
                        | (Ok _, s'') => (r, s'')
                        | (Raise e, s'') => (Raise e, s'')
                        end
           end.

(** [for x in xs: body(x)] *)
Fixpoint for_each {A} (xs : list A) (body : A -> M unit) : M unit :=
  match xs with
  | [] => ret tt
  | x :: rest => body x ;; for_each rest body
  end.

(** ** Construction *)

Record MAVLinkNetworkSpecification := {
  spec_id : string;
  spec_system_id : Z;
  spec_id_format : string;
  spec_packet_loss : float;
  spec_connections : list string
}.

(** [max(a, b)] and [min(a, b)] of Python on floats: the first argument is
    kept unless the second is strictly beyond it. *)
Definition py_max (a b : float) : float := if PrimFloat.ltb a b then b else a.
Definition py_min (a b : float) : float := if PrimFloat.ltb b a then b else a.

Definition DEFAULT_NAME : string := "".

(** [MAVLinkNetwork.__init__] *)
Definition __init__ (id : string) (system_id : Z)
    (id_formatter : Z -> string -> string) (packet_loss : float) : Network :=
  {| _id := id;
     _id_formatter := id_formatter;
     _matchers := None;
     _packet_loss := py_max packet_loss 0%float;
     _system_id := 255;
     _connections := [];
     _uavs := ∅;
     _uav_addresses := ∅;
     manager := None |}.

(** [MAVLinkNetwork.add_connection] *)
Definition add_connection (connection : Connection) (self : Network) : Network :=
  with_connections (_connections self ++ [connection]) self.

Section Embedding.
Context `{E : Externals}.

(** [MAVLinkNetwork.from_specification] *)
Definition from_specification (spec : MAVLinkNetworkSpecification) : Network :=
  let result :=
    __init__ (spec_id spec) (spec_system_id spec)
             (str_format (spec_id_format spec)) (spec_packet_loss spec) in
  fold_left
    (fun result connection_spec =>
       add_connection (create_connection connection_spec) result)
    (spec_connections spec) result.

(** ** The matcher table *)

(** The [type] argument of [expect_packet]: a name or a number. *)
Inductive MsgType :=
| type_name (s : string)
| type_number (z : Z).

(** [type if isinstance(type, str) else MAVMessageType(type).name] *)
Definition type_to_str (type : MsgType) : M string :=
  match type with
  | type_name s => ret s
  | type_number z =>
      match MAVMessageType_name z with
      | Some s => ret s
      | None => raise (ValueError "not a valid MAVMessageType")
      end
  end.

(** [params[name] = value] on the dictionary object [d] *)
Definition dict_setitem (d : ref) (name : string) (value : Value) : M unit :=
  modify (fun s => set_dicts (alter (insert name value) d (dicts s)) s).

(** [params.items()] *)
Definition dict_items (d : ref) : M (list (string * Value)) :=
  gets (fun s => map_to_list (dicts s !!! d)).

(** Body of the loop that maps [bytes] values to [str] values. *)
Definition decode_item (d : ref) (item : string * Value) : M unit :=
  match item.2 with
  | VBytes b =>
      match bytes_decode_utf8 b with
      | Some text => dict_setitem d item.1 (VStr text)
      | None => ret tt                        (* except ValueError: pass *)
      end
  | _ => ret tt
  end.

(** The form in which an expected value is compared with a message
    field: a [bytes] value that decodes as UTF-8 stands for its text. *)
Definition expected_form (v : Value) : Value :=
  match v with
  | VBytes b => match bytes_decode_utf8 b with Some text => VStr text | None => v end
  | _ => v
  end.

(** The effect of one round of the decoding loop on the dictionary. *)
Definition decode_step (acc : gmap string Value) (item : string * Value)
    : gmap string Value :=
  match item.2 with
  | VBytes b => match bytes_decode_utf8 b with
                | Some text => <[item.1 := VStr text]> acc
                | None => acc
                end
  | _ => acc
  end.

(** [Future()] *)
Definition new_future : M ref :=
  let* r := gets (fun s => length (futures s)) in
  modify (fun s => set_futures (futures s ++ [[]]) s) ;;
  ret r.

(** [list()] for a missing key of the [defaultdict] *)
Definition new_list : M ref :=
  let* r := gets (fun s => length (lists s)) in
  modify (fun s => set_lists (lists s ++ [[]]) s) ;;
  ret r.

Definition future_call (f : ref) (c : FutureCall) : M unit :=
  modify (fun s => set_futures (alter (fun calls => calls ++ [c]) f (futures s)) s).

(** [self._matchers[type]]: fails when the attribute is [None], creates
    the list when the key is missing. *)
Definition matchers_getitem (type : string) : M ref :=
  let* table := gets (fun s => _matchers (net s)) in
  match table with
  | None => raise (TypeError "'NoneType' object is not subscriptable")
  | Some t =>
      match t !! type with
      | Some r => ret r
      | None =>
          let* r := new_list in
          modify (upd_net (with_matchers (Some (<[type := r]> t)))) ;;
          ret r
      end
  end.

(** What the generator of [expect_packet] holds while it is suspended at
    its [yield]. *)
Record Scope := {
  scope_future : ref;
  scope_item : Entry;
  scope_matchers : ref
}.

(** [expect_packet], up to its [yield]. *)
Definition expect_packet_enter (type : MsgType) (params : Matcher)
    (system_id : option Z) : M Scope :=
  let* type_str := type_to_str type in
  (match params with
   | MCallable _ _ => ret tt
   | MDict d => let* items := dict_items d in for_each items (decode_item d)
   | MNone => raise (AttributeError "'NoneType' object has no attribute 'items'")
   end) ;;
  let* future := new_future in
  let item := {| entry_system_id := system_id; entry_params := params;
                 entry_future := future |} in
  let* matchers := matchers_getitem type_str in
  modify (fun s => set_lists (alter (fun l => l ++ [item]) matchers (lists s)) s) ;;
  ret {| scope_future := future; scope_item := item; scope_matchers := matchers |}.

(** Python [==] on matchers: dictionaries by content, functions by identity. *)
Definition matcher_eqb (ds : list (gmap string Value)) (a b : Matcher) : bool :=
  match a, b with
  | MNone, MNone => true
  | MDict x, MDict y => bool_decide (x = y) || bool_decide (ds !!! x = ds !!! y)
  | MCallable i _, MCallable j _ => bool_decide (i = j)
  | _, _ => false
  end.

(** Python [==] on the tuples of a matcher list; futures compare by identity. *)
Definition entry_eqb (ds : list (gmap string Value)) (a b : Entry) : bool :=
  bool_decide (entry_system_id a = entry_system_id b)
  && matcher_eqb ds (entry_params a) (entry_params b)
  && bool_decide (entry_future a = entry_future b).

(** [matchers.index(item)]; [None] stands for the [ValueError]. *)
Fixpoint list_index (ds : list (gmap string Value)) (item : Entry)
    (l : list Entry) : option nat :=
  match l with
  | [] => None
  | x :: rest =>
      if entry_eqb ds x item then Some O else S <$> list_index ds item rest
  end.

(** [expect_packet], from its [yield] on: [matchers.pop(matchers.index(item))]. *)
Definition expect_packet_exit (sc : Scope) : M unit :=
  let* l := gets (fun s => lists s !!! scope_matchers sc) in
  let* ds := gets dicts in
  match list_index ds (scope_item sc) l with
  | Some i =>
      modify (fun s => set_lists (alter (delete i) (scope_matchers sc) (lists s)) s)
  | None => raise (ValueError "not in list")
  end.

(** The test of the dispatch loop on one item of the matcher list. *)
Definition entry_matches (ds : list (gmap string Value))
    (message : MAVLinkMessage) (e : Entry) : bool :=
  if (match entry_system_id e with
      | Some system_id => negb (msg_srcSystem message =? system_id)
      | None => false
      end)
  then false
  else match entry_params e with
       | MCallable _ fn => fn message
       | MNone => true
       | MDict d =>
           forallb (fun item => py_eq (getattr_default message item.1) item.2)
                   (map_to_list (ds !!! d))
       end.

(** [for system_id, params, future in self._matchers[type]: ...] *)
Definition resolve_futures (message : MAVLinkMessage) : M unit :=
  let* matchers := matchers_getitem (msg_type message) in
  let* l := gets (fun s => lists s !!! matchers) in
  for_each l (fun e =>
    let* ds := gets dicts in
    if entry_matches ds message e
    then future_call (entry_future e) (F_set_result message)
    else ret tt).

(** [with self.expect_packet(type, params, system_id) as future: body] *)
Definition with_expect_packet {A} (type : MsgType) (params : Matcher)
    (system_id : option Z) (body : Scope -> M A) : M A :=
  let* sc := expect_packet_enter type params system_id in
  try_finally (body sc) (expect_packet_exit sc).

(** The matcher lists are in order: no future occurs in two items, every
    future of an item exists, and the table refers to lists that exist. *)
Definition matchers_ok (s : State) : Prop :=
  NoDup (entry_future <$> mjoin (lists s)) /\
  Forall (fun e => (entry_future e < length (futures s))%nat) (mjoin (lists s)) /\
  (forall t type r, _matchers (net s) = Some t -> t !! type = Some r ->
     (r < length (lists s))%nat).

(** The item is in the matcher list. *)
Definition present (r : ref) (e : Entry) (s : State) : Prop :=
  exists l, lists s !! r = Some l /\ e ∈ l.

(** The matcher lists are in order and hold the item to watch, if any. *)
Definition guarded (g : option (ref * Entry)) (s : State) : Prop :=
  matchers_ok s /\
  match g with
  | Some (r, e) => present r e s
  | None => True
  end.

(** The scope holds another future than the watched item. *)
Definition younger (g : option (ref * Entry)) (sc : Scope) : Prop :=
  forall r e, g = Some (r, e) -> entry_future (scope_item sc) <> entry_future e.

(** ** Counting the warnings about unknown message types *)

Definition is_unhandled_warning (type : string) (c : LogCall) : bool :=
  match c with
  | log_warn text _ => bool_decide (text = "Unhandled MAVLink message type: " +:+ type)
  | _ => false
  end.

Fixpoint unhandled_warnings (type : string) (l : list LogCall) : nat :=
  match l with
  | [] => O
  | c :: rest =>
      ((if is_unhandled_warning type c then 1 else 0) + unhandled_warnings type rest)%nat
  end.

(** The warnings about a type so far, and a bound matcher table. *)
Definition quiet (type : string) (n : nat) (s : State) : Prop :=
  unhandled_warnings type (log s) = n /\ is_Some (_matchers (net s)).

(** ** The UAV directory *)

(** [self.driver.create_uav(uav_id)] *)
Definition driver_create_uav (uav_id : string) : M ref :=
  let* r := gets (fun s => length (uav_objs s)) in
  modify (fun s => set_uav_objs (uav_objs s ++
    [{| uav_id := uav_id; uav_network_id := None; uav_system_id := None;
        uav_mavlink_version := driver_mavlink_version; uav_calls := [] |}]) s) ;;
  ret r.

(** [uav.assign_to_network_and_system_id(network_id, system_id)] *)
Definition assign_to_network_and_system_id (network_id : string) (system_id : Z)
    (o : UAVObject) : UAVObject :=
  {| uav_id := uav_id o; uav_network_id := Some network_id;
     uav_system_id := Some system_id;
     uav_mavlink_version := uav_mavlink_version o; uav_calls := uav_calls o |}.

Definition uav_record_call (c : UAVCall) (o : UAVObject) : UAVObject :=
  {| uav_id := uav_id o; uav_network_id := uav_network_id o;
     uav_system_id := uav_system_id o;
     uav_mavlink_version := uav_mavlink_version o;
     uav_calls := uav_calls o ++ [c] |}.

Definition uav_call (uav : ref) (c : UAVCall) : M unit :=
  modify (fun s => set_uav_objs (alter (uav_record_call c) uav (uav_objs s)) s).

(** [MAVLinkNetwork._create_uav] *)
Definition _create_uav (system_id : Z) : M ref :=
  let* uav_id := gets (fun s => _id_formatter (net s) system_id (_id (net s))) in
  let* uav := driver_create_uav uav_id in
  modify (upd_net (fun n => with_uavs (<[system_id := uav]> (_uavs n)) n)) ;;
  let* id := gets (fun s => _id (net s)) in
  modify (fun s => set_uav_objs
            (alter (assign_to_network_and_system_id id system_id) uav (uav_objs s)) s) ;;
  modify (fun s => set_registered (registered s ++ [uav]) s) ;;
  ret uav.

(** [MAVLinkNetwork._find_uav_from_message] *)
Definition _find_uav_from_message (message : MAVLinkMessage) (address : Address)
    : M (option ref) :=
  let system_id := msg_srcSystem message in
  if system_id =? 0 then ret None
  else
    let* known := gets (fun s => _uavs (net s) !! system_id) in
    let* uav := match known with
                | Some uav => ret uav
                | None => _create_uav system_id
                end in
    modify (upd_net (fun n => with_uav_addresses (<[uav := address]> (_uav_addresses n)) n)) ;;
    ret (Some uav).

(** The directory is in order: every stored UAV is an object of the
    driver that carries the formatted identifier and the system ID it is
    stored under and is registered once, and every object of the driver is
    stored under its system ID. *)
Definition uav_directory_ok (s : State) : Prop :=
  (forall system_id uav, _uavs (net s) !! system_id = Some uav ->
     system_id <> 0 /\
     exists o, uav_objs s !! uav = Some o /\
       uav_id o = _id_formatter (net s) system_id (_id (net s)) /\
       uav_system_id o = Some system_id /\
       uav ∈ registered s) /\
  (forall uav o, uav_objs s !! uav = Some o ->
     exists system_id, uav_system_id o = Some system_id /\
       _uavs (net s) !! system_id = Some uav) /\
  NoDup (registered s) /\
  (forall uav, uav ∈ registered s -> (uav < length (uav_objs s))%nat).

(** The state once a UAV has been created for a system ID. *)
Definition created (system_id : Z) (address : Address) (s : State) : State :=
  let uav := length (uav_objs s) in
  let o := {| uav_id := _id_formatter (net s) system_id (_id (net s));
              uav_network_id := Some (_id (net s));
              uav_system_id := Some system_id;
              uav_mavlink_version := driver_mavlink_version;
              uav_calls := [] |} in
  upd_net (fun n => with_uav_addresses (<[uav := address]> (_uav_addresses n))
                      (with_uavs (<[system_id := uav]> (_uavs n)) n))
    (set_registered (registered s ++ [uav]) (set_uav_objs (uav_objs s ++ [o]) s)).

(** ** Handlers of the message types *)

(** [message.name], raising [AttributeError] for a missing field. *)
Definition attribute (message : MAVLinkMessage) (name : string) : M Value :=
  match getattr message name with
  | Some v => ret v
  | None => raise (AttributeError name)
  end.

(** Truth value of a Python value. *)
Definition truthy (v : Value) : bool :=
  match v with
  | VNone => false
  | VInt z => negb (z =? 0)
  | VStr s => negb (bool_decide (s = ""))
  | VBytes b => negb (bool_decide (b = []))
  end.

(** [text[n:]] *)
Fixpoint string_drop (n : nat) (s : string) : string :=
  match n, s with
  | O, _ => s
  | S n', String _ rest => string_drop n' rest
  | S _, EmptyString => EmptyString
  end.

(** [str(z)] for an integer *)
Definition str_of_int (z : Z) : string := NilZero.string_of_int (Z.to_int z).

Definition _log_extra_from_message (message : MAVLinkMessage) : M (option string) :=
  gets (fun s => Some (log_id_from_message message (_id (net s)))).

(** The shape shared by the handlers that forward a message to its UAV. *)
Definition forward_to_uav (kind : string) (message : MAVLinkMessage)
    (address : Address) : M unit :=
  let* uav := _find_uav_from_message message address in
  match uav with
  | Some uav => uav_call uav (UAV_handle_message kind message)
  | None => ret tt
  end.

Definition _handle_message_autopilot_version (message : MAVLinkMessage)
    (connection_id : string) (address : Address) : M unit :=
  forward_to_uav "autopilot_version" message address.

Definition _handle_message_data16 (message : MAVLinkMessage)
    (connection_id : string) (address : Address) : M unit :=
  let* type := attribute message "type" in
  if py_eq type (VInt DroneShowStatus_TYPE)
  then forward_to_uav "drone_show_status" message address
  else ret tt.

Definition _handle_message_global_position_int (message : MAVLinkMessage)
    (connection_id : string) (address : Address) : M unit :=
  forward_to_uav "global_position_int" message address.

Definition _handle_message_gps_raw_int (message : MAVLinkMessage)
    (connection_id : string) (address : Address) : M unit :=
  forward_to_uav "gps_raw_int" message address.

Definition _handle_message_heartbeat (message : MAVLinkMessage)
    (connection_id : string) (address : Address) : M unit :=
  let* type := attribute message "type" in
  let* is_vehicle :=
    match type with
    | VInt z => match MAVType_is_vehicle z with
                | Some b => ret b
                | None => raise (ValueError "not a valid MAVType")
                end
    | _ => raise (ValueError "not a valid MAVType")
    end in
  if negb is_vehicle then ret tt
  else forward_to_uav "heartbeat" message address.

Definition _handle_message_statustext (message : MAVLinkMessage)
    (connection_id : string) (address : Address) : M unit :=
  let* text := attribute message "text" in
  let* is_prearm :=
    if truthy text then
      match text with
      | VStr s => ret (String.prefix "PreArm: " s)
      | VBytes _ => raise (TypeError "startswith first arg must be bytes")
      | _ => raise (AttributeError "startswith")
      end
    else ret false in
  if is_prearm then
    let* uav := _find_uav_from_message message address in
    match uav, text with
    | Some uav, VStr s => uav_call uav (UAV_notify_prearm_failure (string_drop 8 s))
    | _, _ => raise (AttributeError "notify_prearm_failure")
    end
  else
    let* severity := attribute message "severity" in
    let* extra := _log_extra_from_message message in
    modify (emit (log_log (log_level_from_severity severity) text extra)).

Definition _handle_message_sys_status (message : MAVLinkMessage)
    (connection_id : string) (address : Address) : M unit :=
  forward_to_uav "sys_status" message address.

Definition _handle_message_timesync (message : MAVLinkMessage)
    (connection_id : string) (address : Address) : M unit :=
  let* tc1 := attribute message "tc1" in
  if negb (py_eq tc1 (VInt 0)) then
    let* now := gets (fun s => now_ns s / 1000) in
    let* ts1 := attribute message "ts1" in
    match ts1 with
    | VInt ts1 =>
        modify (emit (log_info ("Roundtrip time: " +:+ str_of_int ((now - ts1) / 1000)
                                +:+ " msec")))
    | _ => raise (TypeError "unsupported operand type(s) for -")
    end
  else ret tt.

(** The values of the [handlers] dictionary. *)
Inductive Handler :=
| nop
| handle_autopilot_version
| handle_data16
| handle_global_position_int
| handle_gps_raw_int
| handle_heartbeat
| handle_statustext
| handle_sys_status
| handle_timesync.

Definition call_handler (h : Handler) (message : MAVLinkMessage)
    (connection_id : string) (address : Address) : M unit :=
  match h with
  | nop => ret tt
  | handle_autopilot_version => _handle_message_autopilot_version message connection_id address
  | handle_data16 => _handle_message_data16 message connection_id address
  | handle_global_position_int => _handle_message_global_position_int message connection_id address
  | handle_gps_raw_int => _handle_message_gps_raw_int message connection_id address
  | handle_heartbeat => _handle_message_heartbeat message connection_id address
  | handle_statustext => _handle_message_statustext message connection_id address
  | handle_sys_status => _handle_message_sys_status message connection_id address
  | handle_timesync => _handle_message_timesync message connection_id address
  end.

(** The [handlers] dictionary as [_handle_inbound_messages] builds it. *)
Definition initial_handlers : gmap string Handler :=
  list_to_map
    [ ("AUTOPILOT_VERSION", handle_autopilot_version);
      ("BAD_DATA", nop);
      ("COMMAND_ACK", nop);
      ("DATA16", handle_data16);
      ("FILE_TRANSFER_PROTOCOL", nop);
      ("GLOBAL_POSITION_INT", handle_global_position_int);
      ("GPS_GLOBAL_ORIGIN", nop);
      ("GPS_RAW_INT", handle_gps_raw_int);
      ("HEARTBEAT", handle_heartbeat);
      ("HOME_POSITION", nop);
      ("HWSTATUS", nop);
      ("LOCAL_POSITION_NED", nop);
      ("MEMINFO", nop);
      ("MISSION_ACK", nop);
      ("MISSION_COUNT", nop);
      ("MISSION_CURRENT", nop);
      ("MISSION_ITEM_INT", nop);
      ("MISSION_REQUEST", nop);
      ("NAV_CONTROLLER_OUTPUT", nop);
      ("PARAM_VALUE", nop);
      ("POSITION_TARGET_GLOBAL_INT", nop);
      ("POWER_STATUS", nop);
      ("STATUSTEXT", handle_statustext);
      ("SYS_STATUS", handle_sys_status);
      ("TIMESYNC", handle_timesync) ].

(** [try: body except Exception: handler] *)
Definition try_except {A} (body : M A) (handler : PyExc -> M A) : M A :=
  fun s => match body s with
           | (Ok a, s') => (Ok a, s')
           | (Raise e, s') => handler e s'
           end.

(** What the inbound channel yields: [connection_id, (message, address)]. *)
Definition Inbound : Type := string * (MAVLinkMessage * Address).

(** One round of the loop of [_handle_inbound_messages]; the [handlers]
    dictionary is local to the loop and is threaded through the rounds. *)
Definition handle_inbound_message (handlers : gmap string Handler)
    (item : Inbound) : M (gmap string Handler) :=
  let '(connection_id, (message, address)) := item in
  if negb (msg_srcComponent message =? MAVComponent_AUTOPILOT1) then ret handlers
  else
    let type := msg_type message in
    resolve_futures message ;;
    match handlers !! type with
    | Some handler =>
        try_except
          (call_handler handler message connection_id address)
          (fun _ => modify (emit (log_exception
             ("Error while handling MAVLink message of type " +:+ type)))) ;;
        ret handlers
    | None =>
        let* extra := _log_extra_from_message message in
        modify (emit (log_warn ("Unhandled MAVLink message type: " +:+ type) extra)) ;;
        ret (<[type := nop]> handlers)
    end.

Fixpoint inbound_loop (handlers : gmap string Handler) (channel : list Inbound)
    : M (gmap string Handler) :=
  match channel with
  | [] => ret handlers
  | item :: rest =>
      let* handlers := handle_inbound_message handlers item in
      inbound_loop handlers rest
  end.

(** An item that passes the component filter of the loop. *)
Definition dispatched (item : Inbound) : bool :=
  msg_srcComponent item.2.1 =? MAVComponent_AUTOPILOT1.

(** A dispatched message of the given type. *)
Definition occurrence (type : string) (item : Inbound) : bool :=
  dispatched item && bool_decide (msg_type item.2.1 = type).

(** [MAVLinkNetwork._handle_inbound_messages] on what the channel yields. *)
Definition _handle_inbound_messages (channel : list Inbound) : M unit :=
  inbound_loop initial_handlers channel ;; ret tt.

(** ** Sending *)

(** [HEARTBEAT_SPEC] *)
Definition HEARTBEAT_SPEC : string * gmap string Value :=
  ("HEARTBEAT",
   list_to_map
     [ ("type", VInt MAVType_GCS);
       ("autopilot", VInt MAVAutopilot_INVALID);
       ("base_mode", VInt 0);
       ("custom_mode", VInt 0);
       ("system_status", VInt MAVState_STANDBY) ]).

(** [self.manager.send_packet(spec, destination)]; without a manager the
    attribute access fails. *)
Definition manager_send_packet (spec : string * gmap string Value)
    (destination : string * Address) : M unit :=
  let* m := gets (fun s => manager (net s)) in
  match m with
  | Some _ => modify (transmit (mgr_send_packet spec.1 spec.2 destination))
  | None => raise (AttributeError "send_packet")
  end.

(** [self.manager.broadcast_packet(spec, allow_failure=...)] *)
Definition manager_broadcast_packet (spec : string * gmap string Value)
    (allow_failure : bool) : M unit :=
  let* m := gets (fun s => manager (net s)) in
  match m with
  | Some _ => modify (transmit (mgr_broadcast_packet spec.1 spec.2 allow_failure))
  | None => raise (AttributeError "broadcast_packet")
  end.

Definition NO_ADDRESS : PyExc := RuntimeError "UAV has no address in this network".

(** [MAVLinkNetwork.send_heartbeat] *)
Definition send_heartbeat (target : ref) : M unit :=
  let spec := HEARTBEAT_SPEC in
  let* address := gets (fun s => _uav_addresses (net s) !! target) in
  match address with
  | None => raise NO_ADDRESS
  | Some address =>
      let destination := (DEFAULT_NAME, address) in
      manager_send_packet spec destination
  end.

(** One round of a periodic tick of [_generate_heartbeats]. *)
Definition _generate_heartbeats_tick : M unit :=
  manager_broadcast_packet HEARTBEAT_SPEC true.

Definition value_of_option (o : option Z) : Value :=
  match o with Some z => VInt z | None => VNone end.

#[global] Instance UAVObject_inhabited : Inhabited UAVObject :=
  populate {| uav_id := ""; uav_network_id := None; uav_system_id := None;
              uav_mavlink_version := 0; uav_calls := [] |}.

(** Where [send_packet] stands when it first suspends on a response, or
    what it returned. *)
Inductive SendProgress :=
| Returned (response : option MAVLinkMessage)
| AwaitingResponse (sc : Scope)
| AwaitingOneOf (scs : list (string * Scope)).

(** [body], with [cleanup] run before an exception of [body] propagates:
    the unwinding of a [with] block. *)
Definition unwinding {A} (body : M A) (cleanup : M unit) : M A :=
  fun s => match body s with
           | (Ok a, s') => (Ok a, s')
           | (Raise e, s') => (cleanup ;; raise e) s'
           end.

(** Leaving the scopes of an [ExitStack], last entered first. *)
Definition exit_all (scs : list (string * Scope)) : M unit :=
  for_each (rev scs) (fun sc => expect_packet_exit sc.2).

(** The loop of the [wait_for_one_of] branch: enter a matcher scope per key. *)
Fixpoint enter_all (system_id : option Z)
    (wanted : list (string * (MsgType * Matcher)))
    (entered : list (string * Scope)) : M (list (string * Scope)) :=
  match wanted with
  | [] => ret entered
  | (key, (response_type, response_fields)) :: rest =>
      let* sc := unwinding (expect_packet_enter response_type response_fields system_id)
                           (exit_all entered) in
      enter_all system_id rest (entered ++ [(key, sc)])
  end.

(** [self.manager.send_packet(spec, destination)] for a specification
    whose fields are a shared dictionary: the fields are read at the send. *)
Definition manager_send_spec (spec : string * ref)
    (destination : string * Address) : M unit :=
  let* fields := gets (fun s => dicts s !!! spec.2) in
  manager_send_packet (spec.1, fields) destination.

(** The fields of a specification once [send_packet] has addressed it. *)
Definition addressed (uav : UAVObject) (fields : gmap string Value)
    : gmap string Value :=
  <["_mavlink_version" := VInt (uav_mavlink_version uav)]>
    (<["target_component" := VInt MAVComponent_AUTOPILOT1]>
       (<["target_system" := value_of_option (uav_system_id uav)]> fields)).

(** The state once [send_packet] has addressed the specification. *)
Definition addressing (spec : string * ref) (target : ref) (s : State) : State :=
  set_dicts (alter (addressed (uav_objs s !!! target)) spec.2 (dicts s)) s.

(** [MAVLinkNetwork.send_packet], up to the first suspension on a response. *)
Definition send_packet (spec : string * ref) (target : ref)
    (wait_for_response : option (MsgType * Matcher))
    (wait_for_one_of : option (list (string * (MsgType * Matcher))))
    : M SendProgress :=
  let* uav := gets (fun s => uav_objs s !!! target) in
  dict_setitem spec.2 "target_system" (value_of_option (uav_system_id uav)) ;;
  dict_setitem spec.2 "target_component" (VInt MAVComponent_AUTOPILOT1) ;;
  dict_setitem spec.2 "_mavlink_version" (VInt (uav_mavlink_version uav)) ;;
  let* address := gets (fun s => _uav_addresses (net s) !! target) in
  match address with
  | None => raise NO_ADDRESS
  | Some address =>
      let destination := (DEFAULT_NAME, address) in
      let send := manager_send_spec spec destination in
      match wait_for_response, wait_for_one_of with
      | Some (response_type, response_fields), _ =>
          let* sc := expect_packet_enter response_type response_fields
                       (uav_system_id uav) in
          unwinding send (expect_packet_exit sc) ;;
          ret (AwaitingResponse sc)
      | None, Some ((_ :: _) as wanted) =>
          let* scs := enter_all (uav_system_id uav) wanted [] in
          unwinding send (exit_all scs) ;;
          ret (AwaitingOneOf scs)
      | None, _ =>
          send ;;
          ret (Returned None)
      end
  end.

(** [send_packet] from its suspension on: the wait ends with a message or
    with an exception, and the matcher scopes are left either way. *)
Definition send_packet_resume (p : SendProgress) (outcome : Result MAVLinkMessage)
    : M (option MAVLinkMessage) :=
  match p with
  | Returned r => ret r
  | AwaitingResponse sc =>
      expect_packet_exit sc ;;
      match outcome with Ok m => ret (Some m) | Raise e => raise e end
  | AwaitingOneOf scs =>
      exit_all scs ;;
      match outcome with Ok m => ret (Some m) | Raise e => raise e end
  end.

(** A call either raises and has sent nothing, or returns and has sent
    exactly one packet of the given type to the given destination. *)
Definition sent_at_most_one {A} (type : string) (destination : string * Address)
    (before : list ManagerCall) (out : Result A * State) : Prop :=
  (exists e, out.1 = Raise e /\ sent out.2 = before) \/
  (exists a fields, out.1 = Ok a /\
     sent out.2 = before ++ [mgr_send_packet type fields destination]).

(** ** Running the network *)

(** [round(x)] of a finite float: to the nearest integer, ties to even. *)
Definition py_round (x : float) : Z :=
  match Prim2SF x with
  | S754_finite sign m e =>
      let magnitude :=
        if 0 <=? e then Z.pos m * 2 ^ e
        else
          let d := 2 ^ (- e) in
          let q := Z.pos m / d in
          let r := Z.pos m mod d in
          if 2 * r <? d then q
          else if d <? 2 * r then q + 1
          else if Z.even q then q else q + 1 in
      if sign then - magnitude else magnitude
  | _ => 0
  end.

Definition run_id_format (self : Network) : string :=
  if (1 <? length (_connections self))%nat
  then if bool_decide (_id self = "") then "{1}" else "{0}/{1}"
  else "{0}".

(** [id_format.format(self.id, index)] for the three patterns of [run] *)
Definition format_id_index (id_format id : string) (index : nat) : string :=
  if bool_decide (id_format = "{0}/{1}") then id +:+ "/" +:+ str_of_int (Z.of_nat index)
  else if bool_decide (id_format = "{1}") then str_of_int (Z.of_nat index)
  else id.

Definition connection_use (id_format id : string) (index : nat)
    (connection : Connection) : ConnectionUse :=
  let full_id := format_id_index id_format id index in
  let description :=
    if conn_is_listener connection then "MAVLink listener" else "MAVLink connection" in
  let description :=
    if bool_decide (full_id = "") then description
    else description +:+ " (" +:+ full_id +:+ ")" in
  {| use_conn := connection;
     use_name := if bool_decide (full_id = "") then "MAVLink" else "MAVLink: " +:+ full_id;
     use_description := description |}.

(** [for matcher in matchers.values(): for _, _, future in matcher: future.cancel()] *)
Definition cancel_all_matchers : M unit :=
  let* table := gets (fun s => default ∅ (_matchers (net s))) in
  for_each (map_to_list table) (fun kv =>
    let* matcher := gets (fun s => lists s !!! kv.2) in
    for_each matcher (fun e => future_call (entry_future e) F_cancel)).

(** [MAVLinkNetwork.run]; [activity] is what happens while the
    communication manager runs (inbound messages, heartbeats, callers). *)
Definition run (activity : M unit) : M unit :=
  let* self := gets net in
  let id_format := run_id_format self in
  let* uses_before := gets used_connections in
  try_finally
    (modify (fun s => set_used_connections
               (used_connections s ++
                imap (connection_use id_format (_id self)) (_connections self)) s) ;;
     let comm := {| mgr_packet_loss := _packet_loss self; mgr_links := [] |} in
     (if PrimFloat.ltb 0%float (_packet_loss self) then
        let percentage := py_round (PrimFloat.mul (py_min 1%float (_packet_loss self))
                                                  100%float) in
        modify (emit (log_warn ("Simulating " +:+ str_of_int percentage
                                +:+ "% packet loss on MAVLink network " +:+ _id self)
                               None))
      else ret tt) ;;
     let comm :=
       {| mgr_packet_loss := mgr_packet_loss comm;
          mgr_links := map (fun c => (c, DEFAULT_NAME)) (_connections self) |} in
     try_finally
       (modify (upd_net (fun n => with_manager (Some comm)
                                    (with_matchers (Some ∅) n))) ;;
        try_finally activity cancel_all_matchers)
       (modify (upd_net (fun n => with_manager (manager self)
                                    (with_matchers (_matchers self) n)))))
    (modify (set_used_connections uses_before)).

(** A predicate that does not look at the dictionaries, the futures, the
    matcher lists or the matcher table. *)
Definition matcher_blind (Q : State -> Prop) : Prop :=
  (forall v s, Q s -> Q (set_dicts v s)) /\
  (forall v s, Q s -> Q (set_futures v s)) /\
  (forall v s, Q s -> Q (set_lists v s)) /\
  (forall v s, Q s -> Q (upd_net (with_matchers v) s)).

(** The state in which the activity of a run starts: the connections
    registered, the packet loss announced, the manager and an empty
    matcher table bound. *)
Definition started (s : State) : State :=
  let self := net s in
  let s1 := set_used_connections
              (used_connections s ++
               imap (connection_use (run_id_format self) (_id self))
                    (_connections self)) s in
  let s2 := if PrimFloat.ltb 0%float (_packet_loss self)
            then emit (log_warn
                   ("Simulating "
                    +:+ str_of_int (py_round (PrimFloat.mul
                          (py_min 1%float (_packet_loss self)) 100%float))
                    +:+ "% packet loss on MAVLink network " +:+ _id self) None) s1
            else s1 in
  upd_net (fun n => with_manager
             (Some {| mgr_packet_loss := _packet_loss self;
                      mgr_links := map (fun c => (c, DEFAULT_NAME)) (_connections self) |})
             (with_matchers (Some ∅) n)) s2.

(** The state in which a run ends, given where its teardown began. *)
Definition stopped (s0 s : State) : State :=
  set_used_connections (used_connections s0)
    (upd_net (fun n => with_manager (manager (net s0))
                         (with_matchers (_matchers (net s0)) n)) s).

(** [cancel] has been called on the future. *)
Definition cancelled (f : ref) (s : State) : Prop :=
  exists calls, futures s !! f = Some calls /\ F_cancel ∈ calls.

(** What the cancelling loops keep: the matcher lists and the number of
    futures. *)
Definition still (ls : list (list Entry)) (n : nat) (s : State) : Prop :=
  lists s = ls /\ length (futures s) = n.

(** ** What the tasks around the network do *)

(** The steps that the dispatch loop, the heartbeat task and the callers
    of the network take, interleaved in any order. *)
Inductive Action :=
| act_inbound (item : Inbound)
| act_heartbeat_tick
| act_new_dict (d : gmap string Value)
| act_expect_enter (type : MsgType) (params : Matcher) (system_id : option Z)
| act_expect_exit (sc : Scope)
| act_send_heartbeat (target : ref)
| act_send_packet (spec : string * ref) (target : ref)
    (wait_for_response : option (MsgType * Matcher))
    (wait_for_one_of : option (list (string * (MsgType * Matcher))))
| act_send_resume (p : SendProgress) (outcome : Result MAVLinkMessage).

(** An exception of a step ends the step of that task, not the others. *)
Definition perform (handlers : gmap string Handler) (a : Action) (s : State)
    : gmap string Handler * State :=
  match a with
  | act_inbound item =>
      match handle_inbound_message handlers item s with
      | (Ok handlers', s') => (handlers', s')
      | (Raise _, s') => (handlers, s')
      end
  | act_heartbeat_tick => (handlers, (_generate_heartbeats_tick s).2)
  | act_new_dict d => (handlers, set_dicts (dicts s ++ [d]) s)
  | act_expect_enter type params system_id =>
      (handlers, (expect_packet_enter type params system_id s).2)
  | act_expect_exit sc => (handlers, (expect_packet_exit sc s).2)
  | act_send_heartbeat target => (handlers, (send_heartbeat target s).2)
  | act_send_packet spec target w1 w2 =>
      (handlers, (send_packet spec target w1 w2 s).2)
  | act_send_resume p outcome => (handlers, (send_packet_resume p outcome s).2)
  end.

Fixpoint perform_all (handlers : gmap string Handler) (acts : list Action)
    (s : State) : gmap string Handler * State :=
  match acts with
  | [] => (handlers, s)
  | a :: rest =>
      let '(handlers', s') := perform handlers a s in
      perform_all handlers' rest s'
  end.

(** The step leaves a scope whose item holds the future [f]. *)
Definition touches (f : ref) (a : Action) : bool :=
  match a with
  | act_expect_exit sc => bool_decide (entry_future (scope_item sc) = f)
  | act_send_resume (AwaitingResponse sc) _ =>
      bool_decide (entry_future (scope_item sc) = f)
  | act_send_resume (AwaitingOneOf scs) _ =>
      existsb (fun sc => bool_decide (entry_future (scope_item sc.2) = f)) scs
  | _ => false
  end.

(** The activity of a run: the dispatch loop starts with its initial
    handler table; the communication manager ends by returning or by an
    exception. *)
Definition activity_of (acts : list Action) (outcome : Result unit) : M unit :=
  fun s => (outcome, (perform_all initial_handlers acts s).2).

(** A state with a fresh network object and empty object stores. *)
Definition fresh_state (n : Network) (now : Z) : State :=
  {| net := n; dicts := []; lists := []; futures := []; uav_objs := [];
     registered := []; log := []; sent := []; used_connections := [];
     now_ns := now |}.

End Embedding.

(** * The RTK fan-out of the Sidekick extension *)

Module sidekick.

(** ** [base64.b64encode] *)

Definition b64_alphabet : string :=
  "ABCDEFGHIJKLMNOPQRSTUVWXYZabcdefghijklmnopqrstuvwxyz0123456789+/".

Definition b64_char (n : N) : ascii :=
  default "="%char (String.get (N.to_nat n) b64_alphabet).

Fixpoint b64encode (bs : list byte) : string :=
  match bs with
  | [] => ""
  | [a] =>
      let a := Byte.to_N a in
      String (b64_char (a / 4))
        (String (b64_char ((a mod 4) * 16)) "==")
  | [a; b] =>
      let a := Byte.to_N a in
      let b := Byte.to_N b in
      String (b64_char (a / 4))
        (String (b64_char ((a mod 4) * 16 + b / 16))
           (String (b64_char ((b mod 16) * 4)) "="))
  | a :: b :: c :: rest =>
      let a := Byte.to_N a in
      let b := Byte.to_N b in
      let c := Byte.to_N c in
      String (b64_char (a / 4))
        (String (b64_char ((a mod 4) * 16 + b / 16))
           (String (b64_char ((b mod 16) * 4 + c / 64))
              (String (b64_char (c mod 64)) (b64encode rest))))
  end%N.

(** ** Subscriber channels *)

(** What [encode_command] is given: [{"type": type, "data": data}]. *)
Record Command := {
  cmd_type : string;
  cmd_data : list (string * gmap string Value)
}.

(** The sending end of a memory channel of trio: a bounded buffer. *)
Record Channel (P : Type) := {
  chan_id : nat;
  max_buffer_size : nat;
  buffer : list P
}.
Arguments chan_id {P} c.
Arguments max_buffer_size {P} c.
Arguments buffer {P} c.

(** The module-level variables [channels] and [log]. *)
Record State (P : Type) := {
  channels : list (Channel P);
  log : list LogCall;
  next_channel : nat
}.
Arguments channels {P} s.
Arguments log {P} s.
Arguments next_channel {P} s.

Section Fanout.
(** The payload type and the JSON encoder [create_json_encoder()]. *)
Context {P : Type} (encoder : Command -> P).

(** [encode_command] *)
Definition encode_command (type : string)
    (data : list (string * gmap string Value)) : P :=
  encoder {| cmd_type := type; cmd_data := data |}.

Definition is_full (c : Channel P) : bool :=
  (max_buffer_size c <=? length (buffer c))%nat.

(** [channel.send_nowait(data)]; [None] stands for [WouldBlock]. *)
Definition send_nowait (c : Channel P) (data : P) : option (Channel P) :=
  if (length (buffer c) <? max_buffer_size c)%nat
  then Some {| chan_id := chan_id c; max_buffer_size := max_buffer_size c;
               buffer := buffer c ++ [data] |}
  else None.

(** [open_memory_channel(16)] and [channels.append(tx_channel)] of
    [handle_connection]. *)
Definition handle_connection_open (s : State P) : nat * State P :=
  (next_channel s,
   {| channels := channels s ++
        [{| chan_id := next_channel s; max_buffer_size := 16; buffer := [] |}];
      log := log s;
      next_channel := S (next_channel s) |}).

(** One round of [async for data in rx_channel]: the oldest payload of the
    channel leaves for the stream. *)
Definition handle_connection_receive (id : nat) (s : State P) : option P * State P :=
  match list_find (fun c => chan_id c = id) (channels s) with
  | Some (i, c) =>
      match buffer c with
      | data :: rest =>
          (Some data,
           {| channels := <[i := {| chan_id := id;
                                    max_buffer_size := max_buffer_size c;
                                    buffer := rest |}]> (channels s);
              log := log s; next_channel := next_channel s |})
      | [] => (None, s)
      end
  | None => (None, s)
  end.

(** [channels.remove(tx_channel)] of [handle_connection]. *)
Definition handle_connection_close (id : nat) (s : State P) : State P :=
  match list_find (fun c => chan_id c = id) (channels s) with
  | Some (i, _) =>
      {| channels := delete i (channels s); log := log s;
         next_channel := next_channel s |}
  | None => s
  end.

(** Body of the loop that encodes the [data] field with Base64;
    [b64encode] of anything but bytes is a [TypeError]. *)
Definition encode_message (message : string * gmap string Value)
    : Result (string * gmap string Value) :=
  let '(type, fields) := message in
  match fields !! "data" with
  | Some (VBytes b) => Ok (type, <["data" := VStr (b64encode b)]> fields)
  | Some _ => Raise (TypeError "a bytes-like object is required")
  | None => Ok (type, fields)
  end.

Fixpoint encode_messages (messages : list (string * gmap string Value))
    : Result (list (string * gmap string Value)) :=
  match messages with
  | [] => Ok []
  | m :: rest =>
      match encode_message m with
      | Raise e => Raise e
      | Ok m' =>
          match encode_messages rest with
          | Raise e => Raise e
          | Ok rest' => Ok (m' :: rest')
          end
      end
  end.

(** The loop over [channels]: the channels after the sends, and
    [num_dropped]. *)
Fixpoint send_to_all (cs : list (Channel P)) (data : P) (num_dropped : nat)
    : list (Channel P) * nat :=
  match cs with
  | [] => ([], num_dropped)
  | channel :: rest =>
      match send_nowait channel data with
      | Some channel' =>
          let '(rest', n) := send_to_all rest data num_dropped in
          (channel' :: rest', n)
      | None =>
          let '(rest', n) := send_to_all rest data (num_dropped + 1) in
          (channel :: rest', n)
      end
  end.

Definition BACKPRESSURE_WARNING : LogCall :=
  log_warn "Dropping outbound RTK correction packet due to backpressure" None.

(** [handle_mavlink_rtk_packet_fragments]; the sender is ignored. *)
Definition handle_mavlink_rtk_packet_fragments (sender : string)
    (messages : list (string * gmap string Value)) (s : State P)
    : Result unit * State P :=
  match channels s with
  | [] => (Ok tt, s)
  | _ =>
      match encode_messages messages with
      | Raise e => (Raise e, s)
      | Ok encoded_messages =>
          let data := encode_command "rtk" encoded_messages in
          let '(channels', num_dropped) := send_to_all (channels s) data 0 in
          (Ok tt,
           {| channels := channels';
              log := if (0 <? num_dropped)%nat
                     then log s ++ [BACKPRESSURE_WARNING] else log s;
              next_channel := next_channel s |})
      end
  end.

(** A batch as the RTK encoder emits it: a [data] field holds bytes. *)
Definition rtk_fragments (messages : list (string * gmap string Value)) : bool :=
  forallb (fun m => match m.2 !! "data" with
                    | Some (VBytes _) | None => true
                    | Some _ => false
                    end) messages.

(** What a non-blocking send does to a channel: nothing when it is full. *)
Definition deliver (data : P) (c : Channel P) : Channel P :=
  if is_full c then c
  else {| chan_id := chan_id c; max_buffer_size := max_buffer_size c;
          buffer := buffer c ++ [data] |}.

End Fanout.

End sidekick.

(** * Concrete collaborators, for evaluating the embedding *)

(** [pattern.format(system_id, network_id)] for patterns made of text and
    of the fields [{0}] and [{1}]. *)
Fixpoint format_fields (pattern : string) (system_id : Z) (network_id : string)
    : string :=
  match pattern with
  | String "{" (String "0" (String "}" rest)) =>
      str_of_int system_id +:+ format_fields rest system_id network_id
  | String "{" (String "1" (String "}" rest)) =>
      network_id +:+ format_fields rest system_id network_id
  | String c rest => String c (format_fields rest system_id network_id)
  | EmptyString => EmptyString
  end.

(** Some members of the enumerations of the MAVLink common dialect. *)
Definition common_dialect : Externals :=
  {| MAVMessageType_name := fun z =>
       if z =? 0 then Some "HEARTBEAT"
       else if z =? 1 then Some "SYS_STATUS"
       else if z =? 77 then Some "COMMAND_ACK"
       else if z =? 111 then Some "TIMESYNC"
       else if z =? 253 then Some "STATUSTEXT"
       else None;
     MAVComponent_AUTOPILOT1 := 1;
     MAVType_GCS := 6;
     MAVAutopilot_INVALID := 8;
     MAVState_STANDBY := 3;
     MAVType_is_vehicle := fun z =>
       if z =? 2 then Some true
       else if z =? 13 then Some true
       else if z =? 6 then Some false
       else None;
     DroneShowStatus_TYPE := 0x5b;
     log_level_from_severity := fun v =>
       match v with VInt z => if z <? 4 then 40 else if z <? 6 then 30 else 20 | _ => 20 end;
     log_id_from_message := fun m network_id =>
       network_id +:+ ":" +:+ str_of_int (msg_srcSystem m);
     create_connection := fun spec =>
       {| conn_spec := spec; conn_is_listener := false |};
     str_format := format_fields;
     driver_mavlink_version := 1 |}.

(** The state after the first steps of [expect_packet]: the parameter
    dictionary decoded and the future created. *)
Definition entered (params : Matcher) (s : State) : State :=
  set_futures (futures s ++ [[]])
    match params with
    | MDict d => set_dicts (alter (fmap expected_form) d (dicts s)) s
    | _ => s
    end.

Definition item_of (params : Matcher) (system_id : option Z) (s : State) : Entry :=
  {| entry_system_id := system_id; entry_params := params;
     entry_future := length (futures s) |}.

(** A predicate on states that a computation keeps. *)
Definition preserves {A} (Q : State -> Prop) (m : M A) : Prop :=
  forall s, Q s -> Q (m s).2.

(** * Sample inputs *)

(** The network of the scenarios of the specification. *)
Definition alpha : Network :=
  __init__ "alpha" 255 (format_fields "DRN-{0}-{1}") 0%float.

(** The state in which a run of [alpha] starts. *)
Definition alpha_running : State := started (fresh_state alpha 0).

Definition heartbeat_from (system_id : Z) : MAVLinkMessage :=
  {| msg_type := "HEARTBEAT"; msg_srcSystem := system_id; msg_srcComponent := 1;
     msg_fields := {[ "type" := VInt 2 ]} |}.

Definition command_ack_from (system_id : Z) : MAVLinkMessage :=
  {| msg_type := "COMMAND_ACK"; msg_srcSystem := system_id; msg_srcComponent := 1;
     msg_fields := {[ "command" := VInt 400 ]} |}.

(** A message of a type for which the dispatch loop has no handler. *)
Definition attitude_from (system_id : Z) : MAVLinkMessage :=
  {| msg_type := "ATTITUDE"; msg_srcSystem := system_id; msg_srcComponent := 1;
     msg_fields := ∅ |}.

(** A field mapping with a text given as bytes ([b"RATE"]) and with bytes
    that are no UTF-8 ([b"\xff"]). *)
Definition sample_params : gmap string Value :=
  {[ "command" := VInt 400;
     "param_id" := VBytes [x52; x41; x54; x45];
     "blob" := VBytes [xff] ]}.

(** [alpha_running] with [sample_params] as its one dictionary object. *)
Definition alpha_with_params : State := set_dicts [sample_params] alpha_running.

Definition sample_entry : Result Scope * State :=
  expect_packet_enter (E := common_dialect) (type_name "COMMAND_ACK") (MDict 0)
    (Some 7) alpha_with_params.

Definition sample_scope : Scope :=
  {| scope_future := 0;
     scope_item := {| entry_system_id := Some 7; entry_params := MDict 0;
                      entry_future := 0 |};
     scope_matchers := 0 |}.

(** [alpha_with_params] after a heartbeat of system 7. *)
Definition alpha_seen_7 : State :=
  (perform_all (E := common_dialect) initial_handlers
     [act_inbound ("link", (heartbeat_from 7, "10.0.0.7:14550"))]
     alpha_with_params).2.

(** [alpha_with_params] with a UAV object of the driver whose address the
    network has not recorded. *)
Definition alpha_with_stranger : State :=
  set_uav_objs
    [ {| uav_id := "DRN-9-alpha"; uav_network_id := Some "alpha";
         uav_system_id := Some 9; uav_mavlink_version := 1; uav_calls := [] |} ]
    alpha_with_params.

(** A caller that expects a [COMMAND_ACK] of system 7 by a callable. *)
Definition expect_ack : Action :=
  act_expect_enter (type_name "COMMAND_ACK") (MCallable 0 (fun _ => true)) (Some 7).

(** The batch and the subscribers of scenario S6: two channels with room
    and one whose sixteen slots are taken. *)
Definition rtcm_batch : list (string * gmap string Value) :=
  [ ("GPS_RTCM_DATA",
     {[ "len" := VInt 3; "flags" := VInt 0; "data" := VBytes [x00; x01; x02] ]}) ].

Definition stale : sidekick.Command :=
  {| sidekick.cmd_type := "rtk"; sidekick.cmd_data := [] |}.

Definition three_subscribers : sidekick.State sidekick.Command :=
  {| sidekick.channels :=
       [ {| sidekick.chan_id := 0; sidekick.max_buffer_size := 16;
            sidekick.buffer := [] |};
         {| sidekick.chan_id := 1; sidekick.max_buffer_size := 16;
            sidekick.buffer := replicate 16 stale |};
         {| sidekick.chan_id := 2; sidekick.max_buffer_size := 16;
            sidekick.buffer := [stale] |} ];
     sidekick.log := [];
     sidekick.next_channel := 3 |}.

(** ** What is recorded about one system *)

(** What the network records about the system [system_id] is in [s] as it
    was in [s0]: the same UAV object, with the same address and the same
    calls made on it. *)
Definition same_record (system_id : Z) (s0 s : State) : Prop :=
  _uavs (net s) !! system_id = _uavs (net s0) !! system_id /\
  forall uav, _uavs (net s0) !! system_id = Some uav ->
    _uav_addresses (net s) !! uav = _uav_addresses (net s0) !! uav /\
    uav_objs s !! uav = uav_objs s0 !! uav.

(** The step hands the dispatch loop a message of the given system. *)
Definition from_system (system_id : Z) (a : Action) : bool :=
  match a with
  | act_inbound item => msg_srcSystem item.2.1 =? system_id
  | _ => false
  end.

(** The directory in order, and the record of a system as it was. *)
Definition kept (system_id : Z) (s0 : State) (s : State) : Prop :=
  uav_directory_ok s /\ same_record system_id s0 s.

(** The matcher lists [ls] are the lists [base], with empty lists added
    for new message types, after the items of the given scopes (the last
    entered first) have been appended one by one, each to the end of its
    list and with a future that no earlier item of the list holds. *)
Fixpoint unwinds (scopes : list (string * Scope)) (ls base : list (list Entry))
    : Prop :=
  match scopes with
  | [] => exists n, ls = base ++ replicate n []
  | sc :: earlier =>
      exists ls0 l,
        unwinds earlier ls0 base /\
        ls0 !! scope_matchers sc.2 = Some l /\
        ls = <[scope_matchers sc.2 := l ++ [scope_item sc.2]]> ls0 /\
        Forall (fun x => entry_future x <> entry_future (scope_item sc.2)) l
  end.

(** The effect of one round of the loop that resolves futures on the
    futures: the call [set_result(message)] on the future of a matching
    item. *)
Definition resolve_step (ds : list (gmap string Value)) (message : MAVLinkMessage)
    (fs : list (list FutureCall)) (e : Entry) : list (list FutureCall) :=
  if entry_matches ds message e
  then alter (fun calls => calls ++ [F_set_result message]) (entry_future e) fs
  else fs.

(** A status text of severity 4. *)
Definition statustext_from (system_id : Z) (text : string) : MAVLinkMessage :=
  {| msg_type := "STATUSTEXT"; msg_srcSystem := system_id; msg_srcComponent := 1;
     msg_fields := {[ "severity" := VInt 4; "text" := VStr text ]} |}.

(** [alpha_running] once somebody has expected a [COMMAND_ACK] of system 7. *)
Definition alpha_expecting : State :=
  (perform_all (E := common_dialect) initial_handlers [expect_ack] alpha_running).2.

(** A call that waits for an acknowledgement or, with a [None] matcher,
    for any parameter value. *)
Definition ack_or_value : list (string * (MsgType * Matcher)) :=
  [ ("ack", (type_name "COMMAND_ACK", MCallable 0 (fun _ => true)));
    ("value", (type_name "PARAM_VALUE", MNone)) ].

(** A network without an ID and with one connection, before its run. *)
Definition anonymous : State :=
  fresh_state
    (add_connection {| conn_spec := "udp-listen://:14550"; conn_is_listener := true |}
       (__init__ "" 255 (format_fields "{0}") 0%float)) 0.

(** * Connections of the Sidekick extension *)

Module sidekick_connections.
Import sidekick.

(** How the loop of [handle_connection] ends. *)
Inductive Ending :=
| Exhausted                (* the receiving end of the channel yields no more *)
| BrokenResourceError      (* the client has closed the connection *)
| Exception (e : PyExc)    (* any other exception *)
| Cancelled.               (* the task is cancelled: not an [Exception] *)

(** What a call does: it returns, or an exception leaves it. *)
Inductive Outcome :=
| Returns
| Raises (e : Ending).

(** [str(ex)] *)
Definition exc_text (e : PyExc) : string :=
  match e with
  | AttributeError what | TypeError what | ValueError what | RuntimeError what => what
  end.

(** Steps of the tasks of the server that run while a connection waits. *)
Inductive Event :=
| ev_connect               (* a client connects: its channel joins [channels] *)
| ev_forward (id : nat)    (* a connection writes its oldest payload to its stream *)
| ev_disconnect (id : nat) (* a connection ends: its channel leaves [channels] *)
| ev_rtk (sender : string) (messages : list (string * gmap string Value)).

Section Connections.
Context {P : Type} (encoder : Command -> P).

Definition emit (c : LogCall) (s : State P) : State P :=
  {| channels := channels s; log := log s ++ [c]; next_channel := next_channel s |}.

Definition step (ev : Event) (s : State P) : State P :=
  match ev with
  | ev_connect => (handle_connection_open s).2
  | ev_forward id => (handle_connection_receive id s).2
  | ev_disconnect id => handle_connection_close id s
  | ev_rtk sender messages =>
      (handle_mavlink_rtk_packet_fragments encoder sender messages s).2
  end.

Definition steps (events : list Event) (s : State P) : State P :=
  fold_left (fun s ev => step ev s) events s.

(** [handle_connection]; [life] is what happens from the registration of
    the channel to the end of the loop over the payloads, and how that
    loop ends.  The [finally] clause runs whatever the ending. *)
Definition handle_connection (life : nat -> State P -> Ending * State P)
    (s : State P) : Ending * State P :=
  let '(tx_channel, s1) := handle_connection_open s in
  let '(ending, s2) := life tx_channel s1 in
  (ending, handle_connection_close tx_channel s2).

(** [handle_connection_safely]; [client_address] is what
    [format_socket_address(stream.socket)] returns or raises.  The [extra]
    argument of the first log call is left out. *)
Definition handle_connection_safely (client_address : Result string)
    (life : nat -> State P -> Ending * State P) (s : State P) : Outcome * State P :=
  match client_address with
  | Raise ex => (Returns, emit (log_exception (exc_text ex)) s)
  | Ok client_address =>
      let s1 := emit (log_info ("Sidekick connection accepted from "
                                +:+ client_address)) s in
      let '(ending, s2) := handle_connection life s1 in
      let finally :=
        if bool_decide (client_address = "") then s2
        else emit (log_info ("Sidekick connection from " +:+ client_address
                             +:+ " closed")) s2 in
      match ending with
      | Exhausted => (Returns, finally)
      | BrokenResourceError => (Returns, finally)
      | Exception ex => (Returns, emit (log_exception (exc_text ex)) s2)
      | Cancelled => (Raises Cancelled, finally)
      end
  end.

(** The subscriber channels are distinct objects, each made by
    [handle_connection] and holding no more than its capacity. *)
Definition channels_ok (s : State P) : Prop :=
  NoDup (chan_id <$> channels s) /\
  Forall (fun c => (chan_id c < next_channel s)%nat /\
                   max_buffer_size c = 16%nat /\
                   (length (buffer c) <= 16)%nat) (channels s).

End Connections.

End sidekick_connections.

(** A server to which nobody has connected yet. *)
Definition nobody : sidekick.State sidekick.Command :=
  {| sidekick.channels := []; sidekick.log := []; sidekick.next_channel := 0 |}.

(** A batch whose [data] field holds text instead of bytes. *)
Definition text_batch : list (string * gmap string Value) :=
  [ ("GPS_RTCM_DATA", {[ "len" := VInt 3; "flags" := VInt 0; "data" := VStr "AAEC" ]}) ].

(** * The signals extension *)

Module signals.

(** A [ProtectedSignal] object.  Its receivers are kept by [blinker]. *)
Record ProtectedSignal := {
  signal_name : string;
  signal_doc : option string
}.

(** The module-level variables [log] and [signals], and the signal
    objects created so far; a [Namespace] maps names to signal objects. *)
Record State := {
  log : option (list LogCall);          (* [None] until [load] *)
  signals : option (gmap string ref);   (* [None] unless loaded *)
  objects : list ProtectedSignal
}.

Definition set_log (v : option (list LogCall)) (s : State) : State :=
  {| log := v; signals := signals s; objects := objects s |}.

Definition set_signals (v : option (gmap string ref)) (s : State) : State :=
  {| log := log s; signals := v; objects := objects s |}.

(** [log.exception(text)] *)
Definition log_exception_call (text : string) (s : State) : Result unit * State :=
  match log s with
  | Some calls => (Ok tt, set_log (Some (calls ++ [log_exception text])) s)
  | None => (Raise (AttributeError "'NoneType' object has no attribute 'exception'"), s)
  end.

(** [Namespace.signal] on the namespace [ns] bound to [signals] *)
Definition signal (ns : gmap string ref) (name : string) (doc : option string)
    (s : State) : ref * State :=
  match ns !! name with
  | Some r => (r, s)
  | None =>
      let r := length (objects s) in
      (r, {| log := log s;
             signals := Some (<[name := r]> ns);
             objects := objects s ++ [{| signal_name := name; signal_doc := doc |}] |})
  end.

(** [get_signal] *)
Definition get_signal (name : string) (s : State) : Result ref * State :=
  match signals s with
  | None =>
      (Raise (RuntimeError
         "Attempted to get a signal reference when the extension is not running"), s)
  | Some ns => let '(r, s') := signal ns name None s in (Ok r, s')
  end.

(** [load]; the logger is given by the calls made on it so far. *)
Definition load (logger : list LogCall) (s : State) : State :=
  {| log := Some logger; signals := Some ∅; objects := objects s |}.

(** [unload] *)
Definition unload (s : State) : State := set_signals None s.

(** [get_signal] for each of the names in turn, as long as none fails. *)
Fixpoint get_signals (names : list string) (s : State) : State :=
  match names with
  | [] => s
  | name :: rest => get_signals rest (get_signal name s).2
  end.

(** Every name of the namespace refers to a signal object of that name. *)
Definition namespace_ok (s : State) : Prop :=
  forall ns name r, signals s = Some ns -> ns !! name = Some r ->
    exists o, objects s !! r = Some o /\ signal_name o = name.

Section Dispatch.
(** The state that the receivers act on, the keyword arguments, the
    senders and the values that receivers return. *)
Context {W K Snd R : Type}.

(** A receiver connected to a signal. *)
Record Receiver := {
  receiver_id : nat;
  receiver_call : option Snd -> K -> W -> Result R * W
}.

(** The loop of [ProtectedSignal.send] over the receivers. *)
Fixpoint dispatch (receivers : list Receiver) (sender : option Snd) (kwargs : K)
    (result : list (Receiver * (R + PyExc))) (s : State * W)
    : Result (list (Receiver * (R + PyExc))) * (State * W) :=
  match receivers with
  | [] => (Ok result, s)
  | receiver :: rest =>
      match receiver_call receiver sender kwargs s.2 with
      | (Ok retval, w) =>
          dispatch rest sender kwargs (result ++ [(receiver, inl retval)]) (s.1, w)
      | (Raise ex, w) =>
          match log_exception_call "Unexpected exception caught in signal dispatch" s.1 with
          | (Ok _, s1) =>
              dispatch rest sender kwargs (result ++ [(receiver, inr ex)]) (s1, w)
          | (Raise e, s1) => (Raise e, (s1, w))
          end
      end
  end.

(** [ProtectedSignal.send], given its positional arguments [sender] and
    its keyword arguments; [has_receivers] is the truth value of
    [self.receivers] and [receivers_for] is [self.receivers_for], both of
    [blinker]. *)
Definition send (has_receivers : bool) (receivers_for : option Snd -> list Receiver)
    (sender : list Snd) (kwargs : K) (s : State * W)
    : Result (list (Receiver * (R + PyExc))) * (State * W) :=
  match sender with
  | _ :: _ :: _ =>
      (Raise (TypeError ("send() accepts only one positional argument, "
                         +:+ str_of_int (Z.of_nat (length sender)) +:+ " given")), s)
  | _ =>
      let sender := head sender in
      if negb has_receivers then (Ok [], s)
      else dispatch (receivers_for sender) sender kwargs [] s
  end.

(** What a call of a receiver gives to the result of [send]. *)
Definition retval (r : Result R) : R + PyExc :=
  match r with Ok v => inl v | Raise ex => inr ex end.

(** The entry of the result stands for an exception. *)
Definition raised (o : R + PyExc) : bool :=
  match o with inl _ => false | inr _ => true end.

(** The state of the receivers once the given receivers have been called. *)
Definition called (receivers : list Receiver) (sender : option Snd) (kwargs : K)
    (w : W) : W :=
  fold_left (fun w receiver => (receiver_call receiver sender kwargs w).2) receivers w.

(** The receivers with what their calls gave, each called in the state
    that the one before it left. *)
Fixpoint outcomes (receivers : list Receiver) (sender : option Snd) (kwargs : K)
    (w : W) : list (Receiver * (R + PyExc)) :=
  match receivers with
  | [] => []
  | receiver :: rest =>
      let '(r, w') := receiver_call receiver sender kwargs w in
      (receiver, retval r) :: outcomes rest sender kwargs w'
  end.

(** The number of the given receivers that raise. *)
Fixpoint failures (receivers : list Receiver) (sender : option Snd) (kwargs : K)
    (w : W) : nat :=
  match receivers with
  | [] => O
  | receiver :: rest =>
      let '(r, w') := receiver_call receiver sender kwargs w in
      ((if is_ok r then 0 else 1) + failures rest sender kwargs w')%nat
  end.

End Dispatch.

End signals.
(** The RTK fan-out of the Sidekick extension as a receiver of the signal
    [mavlink:rtk_fragments]: it is called with the sender, which it
    ignores, and with the keyword argument [messages]. *)
Definition rtk_receiver {P : Type} (encoder : sidekick.Command -> P) (id : nat)
    : @signals.Receiver (sidekick.State P) (list (string * gmap string Value))
                        string unit :=
  {| signals.receiver_id := id;
     signals.receiver_call := fun sender messages w =>
       sidekick.handle_mavlink_rtk_packet_fragments encoder (default "" sender)
         messages w |}.

(** The signals extension just loaded. *)
Definition signals_loaded : signals.State :=
  signals.load [] {| signals.log := None; signals.signals := None; signals.objects := [] |}.

(** Receivers that act on a counter: one adds to it and returns what it
    was, one adds to it and then raises. *)
Definition counting (id : nat) : @signals.Receiver Z unit string Z :=
  {| signals.receiver_id := id;
     signals.receiver_call := fun _ _ w => (Ok w, w + 1) |}.

Definition failing (id : nat) : @signals.Receiver Z unit string Z :=
  {| signals.receiver_id := id;
     signals.receiver_call := fun _ _ w => (Raise (ValueError "no"), w + 10) |}.

(** * Command receipts

    [flockwave/server/model/commands.py] *)

Module commands.

Section Status.
(** Readings of the clock: what [time()] returns, and what
    [datetime.now()] returns. *)
Context {Timestamp Time : Type}.

(** [CommandExecutionStatus] *)
Record CommandExecutionStatus := {
  id : option string;
  created_at : Timestamp;
  response : option Value;
  sent : option Time;
  finished : option Time;
  _clients_to_notify : gset string
}.

(** [CommandExecutionStatus.__init__]; [now] is what [time()] returns. *)
Definition __init__ (id : option string) (now : Timestamp) : CommandExecutionStatus :=
  {| id := id; created_at := now; response := None; sent := None; finished := None;
     _clients_to_notify := ∅ |}.

(** [CommandExecutionStatus.clients_to_notify] *)
Definition clients_to_notify (self : CommandExecutionStatus) : gset string :=
  _clients_to_notify self.

(** [CommandExecutionStatus.mark_as_finished]; [now] is what
    [datetime.now()] returns, were it asked. *)
Definition mark_as_finished (now : Time) (self : CommandExecutionStatus)
    : CommandExecutionStatus :=
  match finished self with
  | None =>
      {| id := id self; created_at := created_at self; response := response self;
         sent := sent self; finished := Some now;
         _clients_to_notify := _clients_to_notify self |}
  | Some _ => self
  end.

(** [CommandExecutionStatus.mark_as_sent] *)
Definition mark_as_sent (now : Time) (self : CommandExecutionStatus)
    : CommandExecutionStatus :=
  match sent self with
  | None =>
      {| id := id self; created_at := created_at self; response := response self;
         sent := Some now; finished := finished self;
         _clients_to_notify := _clients_to_notify self |}
  | Some _ => self
  end.

(** [CommandExecutionStatus.notify_client] *)
Definition notify_client (session_id : string) (self : CommandExecutionStatus)
    : CommandExecutionStatus :=
  {| id := id self; created_at := created_at self; response := response self;
     sent := sent self; finished := finished self;
     _clients_to_notify := {[ session_id ]} ∪ _clients_to_notify self |}.

(** The calls that change a receipt. *)
Inductive Call :=
| call_mark_as_finished (now : Time)
| call_mark_as_sent (now : Time)
| call_notify_client (session_id : string).

Definition perform (self : CommandExecutionStatus) (c : Call) : CommandExecutionStatus :=
  match c with
  | call_mark_as_finished now => mark_as_finished now self
  | call_mark_as_sent now => mark_as_sent now self
  | call_notify_client session_id => notify_client session_id self
  end.

(** The time of a call that marks the receipt as finished, or as sent. *)
Definition finishing (c : Call) : option Time :=
  match c with call_mark_as_finished now => Some now | _ => None end.

Definition sending (c : Call) : option Time :=
  match c with call_mark_as_sent now => Some now | _ => None end.

Definition notifying (c : Call) : option string :=
  match c with call_notify_client session_id => Some session_id | _ => None end.

End Status.

End commands.
(** * The fake UAV provider

    [flockwave/server/ext/fake_uavs.py] *)

Module fake_uavs.

(** The exceptions that the extension itself can raise. *)
Inductive Exception :=
| AttributeError (name : string)
| ZeroDivisionError.

(** [configuration]: the values under the keys that [configure] reads. *)
Record Configuration := {
  cfg_count : option Z;
  cfg_id_format : option string;
  cfg_delay : option float;
  cfg_center : option string;
  cfg_radius : option float;
  cfg_time_of_single_cycle : option float
}.

(** [StatusReporter]; [stopping] is no attribute until it is assigned. *)
Record StatusReporter := {
  _thread : option nat;
  _delay : float;
  _started_at : float;
  stopping : option bool
}.

Definition pi : float := 0x1.921fb54442d18p+1%float.

(** [float(n)] for a small natural number *)
Definition float_of_nat (n : nat) : float :=
  PrimFloat.of_uint63 (Uint63.of_Z (Z.of_nat n)).

Section Provider.
(** GPS coordinates; [GPSCoordinate(json=...)]; the mathematical
    functions; [FlatEarthToGPSCoordinateTransformation(origin).to_gps] of
    the flat Earth coordinate [(x, y)]; and [id_format.format(index)].
    These, the UAV registry, the message hub and
    [copy_current_request_context] are other modules' code: they are taken
    to return. *)
Context {Position : Type}
        (GPSCoordinate : option string -> Position)
        (cos sin : float -> float)
        (to_gps : option Position -> float -> float -> Position)
        (format : string -> Z -> string).

(** [FakeUAVProviderExtension]; [radius] and [time_of_single_cycle] are no
    attributes until [configure] assigns them. *)
Record FakeUAVProviderExtension := {
  center : option Position;
  uavs : list string;
  radius : option float;
  time_of_single_cycle : option float;
  _status_reporter : StatusReporter
}.

(** The extension with what it acts on: the UAV registry, the message hub
    and the green threads. *)
Record World := {
  ext : FakeUAVProviderExtension;
  registry : list (string * Position);   (* update_uav_status calls *)
  hub : list (list string);              (* notifications sent, by their UAV IDs *)
  spawned : nat;                         (* green threads spawned so far *)
  crashed : list Exception               (* exceptions that ended a thread *)
}.

Definition set_reporter (v : StatusReporter) (w : World) : World :=
  {| ext := {| center := center (ext w); uavs := uavs (ext w);
               radius := radius (ext w);
               time_of_single_cycle := time_of_single_cycle (ext w);
               _status_reporter := v |};
     registry := registry w; hub := hub w; spawned := spawned w;
     crashed := crashed w |}.

(** The setter of [StatusReporter.delay] *)
Definition set_delay (value : float) (r : StatusReporter) : StatusReporter :=
  {| _thread := _thread r; _delay := py_max value 0%float;
     _started_at := _started_at r; stopping := stopping r |}.

(** [StatusReporter.__init__]; [now] is what [time()] returns. *)
Definition StatusReporter__init__ (delay : float) (now : float) : StatusReporter :=
  set_delay delay
    {| _thread := None; _delay := 0%float; _started_at := now; stopping := None |}.

(** [FakeUAVProviderExtension.__init__] *)
Definition __init__ (now : float) : FakeUAVProviderExtension :=
  {| center := None; uavs := []; radius := None; time_of_single_cycle := None;
     _status_reporter := StatusReporter__init__ 1%float now |}.

(** [StatusReporter.running] *)
Definition running (r : StatusReporter) : bool :=
  match _thread r with Some _ => true | None => false end.

(** [xrange(count)] *)
Definition xrange (count : Z) : list Z := Z.of_nat <$> seq 0 (Z.to_nat count).

(** [FakeUAVProviderExtension.configure] *)
Definition configure (configuration : Configuration) (w : World) : World :=
  let count := default 0 (cfg_count configuration) in
  let id_format := default "FAKE-{0}" (cfg_id_format configuration) in
  let reporter :=
    set_delay (default 1%float (cfg_delay configuration)) (_status_reporter (ext w)) in
  let center := GPSCoordinate (cfg_center configuration) in
  let uavs := (fun index => format id_format index) <$> xrange count in
  {| ext := {| center := Some center;
               uavs := uavs;
               radius := Some (default 10%float (cfg_radius configuration));
               time_of_single_cycle :=
                 Some (default 10%float (cfg_time_of_single_cycle configuration));
               _status_reporter := reporter |};
     registry := registry w ++ ((fun uav_id => (uav_id, center)) <$> uavs);
     hub := hub w; spawned := spawned w; crashed := crashed w |}.

(** [StatusReporter.start] *)
Definition start (w : World) : World :=
  let r := _status_reporter (ext w) in
  if running r then w
  else
    {| ext := ext (set_reporter {| _thread := Some (spawned w); _delay := _delay r;
                                   _started_at := _started_at r;
                                   stopping := Some false |} w);
       registry := registry w; hub := hub w; spawned := S (spawned w);
       crashed := crashed w |}.

(** [StatusReporter.stop] *)
Definition stop (w : World) : World :=
  let r := _status_reporter (ext w) in
  if negb (running r) then w
  else set_reporter {| _thread := _thread r; _delay := _delay r;
                       _started_at := _started_at r; stopping := Some true |} w.

(** [StatusReporter._on_thread_stopped] *)
Definition _on_thread_stopped (w : World) : World :=
  let r := _status_reporter (ext w) in
  set_reporter {| _thread := None; _delay := _delay r;
                  _started_at := _started_at r; stopping := Some false |} w.

(** [FakeUAVProviderExtension.spinup] and [spindown] *)
Definition spinup (w : World) : World := start w.
Definition spindown (w : World) : World := stop w.

(** The position of the UAV of the given index at the given base angle. *)
Definition position_at (origin : option Position) (radius angle_base_rad : float)
    (num_uavs index : nat) : Position :=
  let full_circle := (2 * pi)%float in
  let angle_rad :=
    (angle_base_rad + (float_of_nat index * full_circle) / float_of_nat num_uavs)%float in
  to_gps origin (cos angle_rad * radius)%float (sin angle_rad * radius)%float.

(** [StatusReporter._update_uav_statuses]; [now] is what [time()] returns. *)
Definition _update_uav_statuses (now : float) (w : World)
    : Exception + World :=
  match radius (ext w) with
  | None => inl (AttributeError "radius")
  | Some radius =>
      let origin := center (ext w) in
      let num_uavs := length (uavs (ext w)) in
      let dt := (now - _started_at (_status_reporter (ext w)))%float in
      let full_circle := (2 * pi)%float in
      match time_of_single_cycle (ext w) with
      | None => inl (AttributeError "time_of_single_cycle")
      | Some cycle =>
          if PrimFloat.eqb cycle 0%float then inl ZeroDivisionError
          else
            let angle_base_rad := ((dt * full_circle) / cycle)%float in
            inr {| ext := ext w;
                   registry := registry w ++
                     imap (fun index uav =>
                             (uav, position_at origin radius angle_base_rad
                                     num_uavs index)) (uavs (ext w));
                   hub := hub w; spawned := spawned w; crashed := crashed w |}
      end
  end.

(** One round of the loop of [StatusReporter.report_status], from the
    test of the loop to the [sleep]: the thread ends when [stopping] is set
    or when the round raises, and [_on_thread_stopped] is called then. *)
Definition report_status_round (now : float) (w : World) : World :=
  match stopping (_status_reporter (ext w)) with
  | None =>
      _on_thread_stopped
        {| ext := ext w; registry := registry w; hub := hub w; spawned := spawned w;
           crashed := crashed w ++ [AttributeError "stopping"] |}
  | Some true => _on_thread_stopped w
  | Some false =>
      match _update_uav_statuses now w with
      | inl ex =>
          _on_thread_stopped
            {| ext := ext w; registry := registry w; hub := hub w;
               spawned := spawned w; crashed := crashed w ++ [ex] |}
      | inr w' =>
          {| ext := ext w'; registry := registry w';
             hub := hub w' ++ [uavs (ext w')];
             spawned := spawned w'; crashed := crashed w' |}
      end
  end.

(** What happens to the extension, in the order in which it happens. *)
Inductive Event :=
| ev_configure (configuration : Configuration)
| ev_spinup
| ev_spindown
| ev_wake (now : float).    (* the reporter thread, if any, is scheduled *)

Definition step (w : World) (ev : Event) : World :=
  match ev with
  | ev_configure configuration => configure configuration w
  | ev_spinup => spinup w
  | ev_spindown => spindown w
  | ev_wake now =>
      if running (_status_reporter (ext w)) then report_status_round now w else w
  end.

(** The extension fresh from its constructor. *)
Definition fresh (now : float) : World :=
  {| ext := __init__ now; registry := []; hub := []; spawned := 0; crashed := [] |}.

(** The reporter is in a state that [start], [stop] and the end of a
    thread leave it in: [stopping] is assigned while a thread exists. *)
Definition reporter_ok (w : World) : Prop :=
  (running (_status_reporter (ext w)) = true ->
   is_Some (stopping (_status_reporter (ext w)))) /\
  PrimFloat.ltb (_delay (_status_reporter (ext w))) 0%float = false /\
  Forall (fun ex => ex <> AttributeError "stopping") (crashed w).

End Provider.

End fake_uavs.

(** A fake provider of three UAVs.  The sample collaborators keep the flat
    Earth coordinates as the position, and know one identifier format. *)
Definition flat_gps (json : option string) : float * float := (0, 0)%float.

Definition flat_to_gps (origin : option (float * float)) (x y : float)
    : float * float := (x, y).

Definition fake_format (id_format : string) (index : Z) : string :=
  if bool_decide (id_format = "FAKE-{0}") then "FAKE-" +:+ str_of_int index
  else id_format.

Definition three_fakes (cycle : float) : fake_uavs.Configuration :=
  {| fake_uavs.cfg_count := Some 3;
     fake_uavs.cfg_id_format := None;
     fake_uavs.cfg_delay := None;
     fake_uavs.cfg_center := None;
     fake_uavs.cfg_radius := None;
     fake_uavs.cfg_time_of_single_cycle := Some cycle |}.

Definition provider_step
    : fake_uavs.World -> fake_uavs.Event -> fake_uavs.World :=
  fake_uavs.step flat_gps (fun _ => 1%float) (fun _ => 0%float) flat_to_gps
    fake_format.

(** The provider configured with the given cycle time and spun up. *)
Definition spinning (cycle : float) : fake_uavs.World :=
  fold_left provider_step
    [fake_uavs.ev_configure (three_fakes cycle); fake_uavs.ev_spinup]
    (fake_uavs.fresh 0%float).

(** * Properties *)

Section Properties.
Context `{E : Externals}.

Ltac monad := unfold bind, ret, raise, modify, gets in *; simpl in *.

Lemma set_dicts_same s : set_dicts (dicts s) s = s.
Proof. by destruct s. Qed.

(** Adding connections leaves the system ID alone. *)
Lemma add_connections_system_id (specs : list string) (n : Network) :
  _system_id (fold_left (fun result c => add_connection (create_connection c) result)
                        specs n) = _system_id n.
Proof.
  revert n. induction specs as [|c specs IH]; intros n; simpl; [done|].
  by rewrite IH.
Qed.

Lemma from_specification_system_id (spec : MAVLinkNetworkSpecification) :
  _system_id (from_specification spec) = 255.
Proof. unfold from_specification. by rewrite add_connections_system_id. Qed.

Lemma expect_packet_wildcard_raises (type : string) (system_id : option Z) (s : State) :
  expect_packet_enter (type_name type) MNone system_id s
  = (Raise (AttributeError "'NoneType' object has no attribute 'items'"), s).
Proof. reflexivity. Qed.

Lemma decode_loop_run (d : nat) (items : list (string * Value)) (s : State) :
  for_each items (decode_item d) s
  = (Ok tt, set_dicts (alter (fun m => fold_left decode_step items m) d (dicts s)) s).
Proof.
  revert s. induction items as [|[k v] items IH]; intros s; simpl.
  - unfold ret. f_equal. rewrite list_alter_id; [|done]. by rewrite set_dicts_same.
  - unfold bind, decode_item, decode_step at 2. simpl.
    destruct v as [| |?|b]; try (unfold ret; simpl; by rewrite IH).
    destruct (bytes_decode_utf8 b) as [text|]; [|unfold ret; simpl; by rewrite IH].
    unfold dict_setitem, modify. rewrite IH. simpl.
    f_equal. rewrite list_alter_alter_eq. by destruct s.
Qed.

Lemma decode_fold_lookup (l : list (string * Value)) (acc : gmap string Value) (k : string) :
  NoDup l.*1 ->
  fold_left decode_step l acc !! k
  = match (list_to_map l : gmap string Value) !! k with
    | Some (VBytes b) =>
        match bytes_decode_utf8 b with
        | Some text => Some (VStr text)
        | None => acc !! k
        end
    | _ => acc !! k
    end.
Proof.
  revert acc. induction l as [|[k0 v0] l IH]; intros acc Hnd; simpl.
  - by rewrite lookup_empty.
  - apply list.NoDup_cons in Hnd as [Hk0 Hnd]. rewrite IH by done.
    destruct (decide (k0 = k)) as [->|Hne].
    + rewrite lookup_insert_eq.
      rewrite (not_elem_of_list_to_map_1 l k) by done.
      unfold decode_step; simpl.
      destruct v0 as [| |?|b]; try done.
      destruct (bytes_decode_utf8 b); [by rewrite lookup_insert_eq|done].
    + rewrite lookup_insert_ne by done.
      assert (decode_step acc (k0, v0) !! k = acc !! k) as ->; [|done].
      unfold decode_step; simpl.
      destruct v0 as [| |?|b]; try done.
      destruct (bytes_decode_utf8 b); [by rewrite lookup_insert_ne|done].
Qed.

Lemma decode_fold_fmap (m : gmap string Value) :
  fold_left decode_step (map_to_list m) m = expected_form <$> m.
Proof.
  apply map_eq; intros k.
  rewrite decode_fold_lookup by apply NoDup_fst_map_to_list.
  rewrite list_to_map_to_list, lookup_fmap.
  destruct (m !! k) as [v|] eqn:Hk; simpl; [|done].
  destruct v as [| |?|b]; simpl; try done.
  by destruct (bytes_decode_utf8 b).
Qed.


Lemma decode_loop_normalises (d : nat) (s : State) :
  for_each (map_to_list (dicts s !!! d)) (decode_item d) s
  = (Ok tt, set_dicts (alter (fmap expected_form) d (dicts s)) s).
Proof.
  rewrite decode_loop_run. do 2 f_equal.
  apply list_eq; intros i. rewrite !list_lookup_alter.
  case_decide as Hi; [subst i|done].
  destruct (dicts s !! d) as [m|] eqn:Hd; simpl; [|done].
  rewrite (list_lookup_total_correct _ _ _ Hd). by rewrite decode_fold_fmap.
Qed.

Lemma expect_packet_enter_unfold (type : MsgType) (params : Matcher)
    (system_id : option Z) (s : State) (T : string) :
  type_to_str type s = (Ok T, s) ->
  params <> MNone ->
  expect_packet_enter type params system_id s
  = let item := item_of params system_id s in
    let s1 := entered params s in
    match _matchers (net s) with
    | None => (Raise (TypeError "'NoneType' object is not subscriptable"), s1)
    | Some t =>
        match t !! T with
        | Some r =>
            (Ok {| scope_future := length (futures s); scope_item := item;
                   scope_matchers := r |},
             set_lists (alter (fun l => l ++ [item]) r (lists s)) s1)
        | None =>
            (Ok {| scope_future := length (futures s); scope_item := item;
                   scope_matchers := length (lists s) |},
             set_lists (alter (fun l => l ++ [item]) (length (lists s))
                              (lists s ++ [[]]))
                       (upd_net (with_matchers (Some (<[T := length (lists s)]> t))) s1))
        end
    end.
Proof.
  intros HT Hp. unfold expect_packet_enter, bind at 1. rewrite HT.
  unfold bind at 1.
  assert ((match params with
           | MNone => raise (AttributeError "'NoneType' object has no attribute 'items'")
           | MDict d => let* items := dict_items d in for_each items (decode_item d)
           | MCallable _ _ => ret tt
           end) s
          = (Ok tt, match params with
                    | MDict d => set_dicts (alter (fmap expected_form) d (dicts s)) s
                    | _ => s
                    end)) as ->.
  { destruct params as [|d|]; [done| |done].
    unfold dict_items, bind, gets. apply decode_loop_normalises. }
  unfold item_of, entered, matchers_getitem, new_future, new_list. monad.
  destruct params as [|d|]; [done| |]; simpl;
    (destruct (_matchers (net s)) as [t|]; [|done]);
    (destruct (t !! T) as [r|]; simpl; done).
Qed.

(** ** Predicates that a computation keeps *)

Lemma preserves_ret {A} Q (a : A) : preserves Q (ret a).
Proof. by intros s. Qed.

Lemma preserves_raise {A} Q e : preserves Q (@raise A e).
Proof. by intros s. Qed.

Lemma preserves_gets {A} Q (f : State -> A) : preserves Q (gets f).
Proof. by intros s. Qed.

Lemma preserves_modify Q (f : State -> State) :
  (forall s, Q s -> Q (f s)) -> preserves Q (modify f).
Proof. intros H s. apply H. Qed.

Lemma preserves_bind {A B} Q (m : M A) (k : A -> M B) :
  preserves Q m -> (forall a, preserves Q (k a)) -> preserves Q (bind m k).
Proof.
  intros Hm Hk s Hs. unfold bind. specialize (Hm s Hs).
  destruct (m s) as [[a|e] s']; simpl in *; [by apply Hk|done].
Qed.

Lemma preserves_for_each {A} Q (xs : list A) (body : A -> M unit) :
  (forall x, preserves Q (body x)) -> preserves Q (for_each xs body).
Proof.
  intros Hb. induction xs as [|x xs IH]; simpl; [apply preserves_ret|].
  apply preserves_bind; [apply Hb|done].
Qed.

Lemma preserves_try_finally {A} Q (body : M A) (cleanup : M unit) :
  preserves Q body -> preserves Q cleanup -> preserves Q (try_finally body cleanup).
Proof.
  intros Hb Hc s Hs. unfold try_finally. specialize (Hb s Hs).
  destruct (body s) as [r s']; simpl in *. specialize (Hc s' Hb).
  by destruct (cleanup s') as [[|] s''].
Qed.

Lemma preserves_unwinding {A} Q (body : M A) (cleanup : M unit) :
  preserves Q body -> preserves Q cleanup -> preserves Q (unwinding body cleanup).
Proof.
  intros Hb Hc s Hs. unfold unwinding. specialize (Hb s Hs).
  destruct (body s) as [[a|e] s']; simpl in *; [done|].
  unfold bind, raise. specialize (Hc s' Hb).
  by destruct (cleanup s') as [[|] s''].
Qed.

Lemma preserves_try_except {A} Q (body : M A) (handler : PyExc -> M A) :
  preserves Q body -> (forall e, preserves Q (handler e)) ->
  preserves Q (try_except body handler).
Proof.
  intros Hb Hh s Hs. unfold try_except. specialize (Hb s Hs).
  destruct (body s) as [[a|e] s']; simpl in *; [done|by apply Hh].
Qed.

Ltac preserving :=
  repeat match goal with
    | |- preserves _ (ret _) => apply preserves_ret
    | |- preserves _ (raise _) => apply preserves_raise
    | |- preserves _ (gets _) => apply preserves_gets
    | |- preserves _ (bind _ _) => apply preserves_bind
    | |- preserves _ (for_each _ _) => apply preserves_for_each
    | |- preserves _ (try_finally _ _) => apply preserves_try_finally
    | |- preserves _ (unwinding _ _) => apply preserves_unwinding
    | |- preserves _ (try_except _ _) => apply preserves_try_except
    | |- preserves _ (modify _) =>
        apply preserves_modify; intros ? ?; simpl; try done
    | |- preserves _ (match ?x with _ => _ end) => destruct x
    | |- forall _, _ => intro
    end.

(** ** What the matcher operations leave alone *)

Section Blind.
Context (Q : State -> Prop) (HQ : matcher_blind Q).

Ltac blind :=
  preserving;
  match goal with
  | |- Q (set_dicts _ _) => by apply HQ
  | |- Q (set_futures _ _) => by apply HQ
  | |- Q (set_lists _ _) => by apply HQ
  | |- Q (upd_net (with_matchers _) _) => by apply HQ
  | |- Q (set_net (with_matchers _ _) _) => by apply (proj2 (proj2 (proj2 HQ)))
  end.

Lemma expect_packet_enter_blind type params sid :
  preserves Q (expect_packet_enter type params sid).
Proof.
  unfold expect_packet_enter, type_to_str, dict_items, decode_item, dict_setitem,
    matchers_getitem, new_future, new_list.
  blind.
Qed.

Lemma expect_packet_exit_blind sc : preserves Q (expect_packet_exit sc).
Proof. unfold expect_packet_exit. blind. Qed.

Lemma exit_all_blind scs : preserves Q (exit_all scs).
Proof.
  unfold exit_all. apply preserves_for_each. intros sc. apply expect_packet_exit_blind.
Qed.

Lemma enter_all_blind sid wanted entered : preserves Q (enter_all sid wanted entered).
Proof.
  revert entered. induction wanted as [|[key [rt rf]] wanted IH]; intros entered; simpl.
  - apply preserves_ret.
  - apply preserves_bind; [|intros sc; apply IH].
    apply preserves_unwinding;
      [apply expect_packet_enter_blind|apply exit_all_blind].
Qed.

Lemma resolve_futures_blind message : preserves Q (resolve_futures message).
Proof.
  unfold resolve_futures, matchers_getitem, new_list, future_call. blind.
Qed.

End Blind.

Lemma sent_blind x : matcher_blind (fun s => sent s = x).
Proof. by repeat split. Qed.


Lemma set_dicts_twice v w s : set_dicts v (set_dicts w s) = set_dicts v s.
Proof. done. Qed.

Lemma manager_blind x : matcher_blind (fun s => manager (net s) = x).
Proof. by repeat split. Qed.

Lemma send_packet_unfold (spec : string * nat) (target : nat)
    (wait_for_response : option (MsgType * Matcher))
    (wait_for_one_of : option (list (string * (MsgType * Matcher)))) (s : State) :
  send_packet spec target wait_for_response wait_for_one_of s
  = let uav := uav_objs s !!! target in
    let s1 := addressing spec target s in
    match _uav_addresses (net s) !! target with
    | None => (Raise NO_ADDRESS, s1)
    | Some address =>
        let destination := (DEFAULT_NAME, address) in
        let send := manager_send_spec spec destination in
        match wait_for_response, wait_for_one_of with
        | Some (response_type, response_fields), _ =>
            (let* sc := expect_packet_enter response_type response_fields
                          (uav_system_id uav) in
             unwinding send (expect_packet_exit sc) ;;
             ret (AwaitingResponse sc)) s1
        | None, Some ((_ :: _) as wanted) =>
            (let* scs := enter_all (uav_system_id uav) wanted [] in
             unwinding send (exit_all scs) ;;
             ret (AwaitingOneOf scs)) s1
        | None, _ => (send ;; ret (Returned None)) s1
        end
    end.
Proof.
  unfold send_packet, dict_setitem, addressing, addressed.
  unfold bind at 1, gets at 1. unfold bind at 1, modify at 1.
  unfold bind at 1, modify at 1. unfold bind at 1, modify at 1.
  unfold bind at 1, gets at 1. cbn [net set_dicts dicts].
  rewrite !list_alter_alter_eq, !set_dicts_twice.
  destruct (_uav_addresses (net s) !! target); [|done].
  destruct wait_for_response as [[? ?]|]; [done|].
  by destruct wait_for_one_of as [[|? ?]|].
Qed.

(** The specification is addressed before the address of the target is
    looked up, and stays so when the lookup fails. *)
Lemma send_packet_no_address (spec : string * nat) (target : nat)
    (wait_for_response : option (MsgType * Matcher))
    (wait_for_one_of : option (list (string * (MsgType * Matcher)))) (s : State) :
  _uav_addresses (net s) !! target = None ->
  send_packet spec target wait_for_response wait_for_one_of s
  = (Raise NO_ADDRESS, addressing spec target s).
Proof. intros Ha. rewrite send_packet_unfold. cbv zeta. by rewrite Ha. Qed.

Lemma addressing_lookup (spec : string * nat) (target : nat) (s : State)
    (fields : gmap string Value) :
  dicts s !! spec.2 = Some fields ->
  dicts (addressing spec target s) !! spec.2
  = Some (addressed (uav_objs s !!! target) fields).
Proof. intros H. unfold addressing. simpl. by rewrite list_lookup_alter_eq, H. Qed.

Lemma send_heartbeat_no_address (target : nat) (s : State) :
  _uav_addresses (net s) !! target = None ->
  send_heartbeat target s = (Raise NO_ADDRESS, s).
Proof. intros Ha. unfold send_heartbeat. monad. by rewrite Ha. Qed.

Lemma send_heartbeat_address (target : nat) (address : Address) (s : State) :
  _uav_addresses (net s) !! target = Some address ->
  manager (net s) <> None ->
  send_heartbeat target s
  = (Ok tt, transmit (mgr_send_packet "HEARTBEAT" HEARTBEAT_SPEC.2
                        (DEFAULT_NAME, address)) s).
Proof.
  intros Ha Hm. unfold send_heartbeat, manager_send_packet. monad. rewrite Ha.
  by destruct (manager (net s)).
Qed.

Lemma manager_send_spec_run spec destination s :
  manager_send_spec spec destination s
  = match manager (net s) with
    | Some _ => (Ok tt, transmit (mgr_send_packet spec.1 (dicts s !!! spec.2) destination) s)
    | None => (Raise (AttributeError "send_packet"), s)
    end.
Proof. unfold manager_send_spec, manager_send_packet. monad. by destruct (manager (net s)). Qed.

Lemma unwinding_manager_send_spec {A} spec destination (cleanup : M unit) (k : M A) (a : A) s :
  preserves (fun s' => sent s' = sent s) cleanup ->
  (forall s', k s' = (Ok a, s')) ->
  sent_at_most_one spec.1 destination (sent s)
    ((unwinding (manager_send_spec spec destination) cleanup ;; k) s).
Proof.
  intros Hc Hk. unfold bind, unwinding. rewrite manager_send_spec_run.
  destruct (manager (net s)).
  - right. rewrite Hk. simpl. by eexists _, _.
  - left. unfold bind, raise. specialize (Hc s eq_refl).
    destruct (cleanup s) as [[[]|e] s']; simpl in *; by eexists.
Qed.

Lemma plain_manager_send_spec {A} spec destination (a : A) s :
  sent_at_most_one spec.1 destination (sent s)
    ((manager_send_spec spec destination ;; ret a) s).
Proof.
  unfold bind. rewrite manager_send_spec_run.
  destruct (manager (net s)).
  - right. by eexists _, _.
  - left. by eexists.
Qed.

Lemma send_packet_address (spec : string * nat) (target : nat)
    (wait_for_response : option (MsgType * Matcher))
    (wait_for_one_of : option (list (string * (MsgType * Matcher))))
    (address : Address) (s : State) :
  _uav_addresses (net s) !! target = Some address ->
  sent_at_most_one spec.1 (DEFAULT_NAME, address) (sent s)
    (send_packet spec target wait_for_response wait_for_one_of s).
Proof.
  intros Ha. rewrite send_packet_unfold. cbv zeta. rewrite Ha.
  change (sent s) with (sent (addressing spec target s)).
  generalize (addressing spec target s) (uav_objs s !!! target). intros s1 uav.
  destruct wait_for_response as [[rt rf]|].
  - pose proof (expect_packet_enter_blind _ (sent_blind (sent s1)) rt rf
                  (uav_system_id uav) s1 eq_refl) as Hent.
    unfold bind at 1.
    destruct (expect_packet_enter rt rf (uav_system_id uav) s1) as [[sc|e] s2];
      simpl in Hent; [|left; exists e; split; [done|exact Hent]].
    rewrite <- Hent.
    apply (unwinding_manager_send_spec spec (DEFAULT_NAME, address)
             (expect_packet_exit sc) (ret (AwaitingResponse sc)) (AwaitingResponse sc)).
    + apply expect_packet_exit_blind, sent_blind.
    + done.
  - destruct wait_for_one_of as [[|w wanted]|].
    + apply plain_manager_send_spec.
    + generalize (w :: wanted). clear w wanted. intros wanted.
      pose proof (enter_all_blind _ (sent_blind (sent s1)) (uav_system_id uav)
                    wanted [] s1 eq_refl) as Hent.
      unfold bind at 1.
      destruct (enter_all (uav_system_id uav) wanted [] s1) as [[scs|e] s2];
        simpl in Hent; [|left; exists e; split; [done|exact Hent]].
      rewrite <- Hent.
      apply (unwinding_manager_send_spec spec (DEFAULT_NAME, address)
               (exit_all scs) (ret (AwaitingOneOf scs)) (AwaitingOneOf scs)).
      * apply exit_all_blind, sent_blind.
      * done.
    + apply plain_manager_send_spec.
Qed.

(** ** Field dictionaries of matchers *)

Lemma type_to_str_state type s : (type_to_str type s).2 = s.
Proof.
  unfold type_to_str. destruct type as [T|z]; [done|].
  by destruct (MAVMessageType_name z).
Qed.

Lemma expect_packet_enter_type type params sid s sc s1 :
  expect_packet_enter type params sid s = (Ok sc, s1) ->
  params <> MNone /\ exists T, type_to_str type s = (Ok T, s).
Proof.
  unfold expect_packet_enter. unfold bind at 1.
  pose proof (type_to_str_state type s) as Hs.
  destruct (type_to_str type s) as [[T|e] s0]; simpl in Hs; subst; [|done].
  intros H. split; [|by eexists].
  intros ->. by unfold bind at 1 in H.
Qed.

Lemma dict_matches_spec (m : gmap string Value) (message : MAVLinkMessage) :
  forallb (fun item => py_eq (getattr_default message item.1) item.2) (map_to_list m) = true
  <-> forall k v, m !! k = Some v -> getattr_default message k = v.
Proof.
  rewrite forallb_forall. split.
  - intros H k v Hk. specialize (H (k, v)). simpl in H. unfold py_eq in H.
    rewrite bool_decide_eq_true in H.
    apply H, list_elem_of_In, elem_of_map_to_list, Hk.
  - intros H [k v] Hin. apply list_elem_of_In, elem_of_map_to_list in Hin.
    apply bool_decide_eq_true_2. simpl. by apply H.
Qed.

(** C5: for an item installed by [expect_packet] with a field mapping and
    for every inbound message: when the source-system filter is set and
    differs from the source system of the message the item does not
    match; otherwise it matches exactly when the message field of every
    name of the mapping equals the expected value, a [bytes] value that
    decodes as UTF-8 being compared in its decoded form. *)
Theorem C5_field_mapping_match (type : MsgType) (d : nat) (system_id : option Z)
    (fields : gmap string Value) (s s1 : State) (sc : Scope) (message : MAVLinkMessage) :
  dicts s !! d = Some fields ->
  expect_packet_enter type (MDict d) system_id s = (Ok sc, s1) ->
  (forall x, system_id = Some x -> msg_srcSystem message <> x ->
     entry_matches (dicts s1) message (scope_item sc) = false) /\
  ((forall x, system_id = Some x -> msg_srcSystem message = x) ->
     (entry_matches (dicts s1) message (scope_item sc) = true
      <-> forall name expected, fields !! name = Some expected ->
            getattr_default message name = expected_form expected)).
Proof.
  intros Hd Hent.
  destruct (expect_packet_enter_type _ _ _ _ _ _ Hent) as [Hp [T HT]].
  rewrite (expect_packet_enter_unfold _ _ _ _ T HT Hp) in Hent. cbv zeta in Hent.
  assert (scope_item sc = item_of (MDict d) system_id s
          /\ dicts s1 = alter (fmap expected_form) d (dicts s)) as [-> ->].
  { destruct (_matchers (net s)) as [t|]; [|done].
    destruct (t !! T); by simplify_eq. }
  unfold entry_matches. simpl.
  rewrite (list_lookup_total_correct _ d (expected_form <$> fields))
    by (by rewrite list_lookup_alter_eq, Hd).
  split.
  - intros x -> Hne. by rewrite (proj2 (Z.eqb_neq _ _) Hne).
  - intros Hsid.
    assert (match system_id with
            | Some x => negb (msg_srcSystem message =? x)
            | None => false
            end = false) as ->.
    { destruct system_id as [x|]; [|done].
      by rewrite (proj2 (Z.eqb_eq _ _) (Hsid x eq_refl)). }
    rewrite dict_matches_spec. split.
    + intros H name expected Hn. apply H. by rewrite lookup_fmap, Hn.
    + intros H name v. rewrite lookup_fmap.
      destruct (fields !! name) as [expected|] eqn:Hn; simpl; [|done].
      intros [= <-]. by apply H.
Qed.

Lemma expect_packet_exit_dicts sc s : dicts (expect_packet_exit sc s).2 = dicts s.
Proof.
  assert (preserves (fun s' => dicts s' = dicts s) (expect_packet_exit sc)) as H.
  { unfold expect_packet_exit. preserving. }
  by apply H.
Qed.

(** C9: given a field mapping, [expect_packet] changes the caller's own
    dictionary: the installed item refers to that dictionary, every
    [bytes] value of it that decodes as UTF-8 has been replaced by the
    decoded text, every other value (undecodable [bytes] included) is
    unchanged, and leaving the scope does not touch the dictionaries. *)
Theorem C9_expect_packet_decodes_in_place (type : MsgType) (d : nat)
    (system_id : option Z) (fields : gmap string Value) (s s1 : State) (sc : Scope) :
  dicts s !! d = Some fields ->
  expect_packet_enter type (MDict d) system_id s = (Ok sc, s1) ->
  entry_params (scope_item sc) = MDict d /\
  (exists decoded,
     dicts s1 !! d = Some decoded /\
     forall name,
       decoded !! name
       = match fields !! name with
         | Some (VBytes b) =>
             match bytes_decode_utf8 b with
             | Some text => Some (VStr text)
             | None => Some (VBytes b)
             end
         | other => other
         end) /\
  (forall s2, dicts (expect_packet_exit sc s2).2 = dicts s2).
Proof.
  intros Hd Hent.
  destruct (expect_packet_enter_type _ _ _ _ _ _ Hent) as [Hp [T HT]].
  rewrite (expect_packet_enter_unfold _ _ _ _ T HT Hp) in Hent. cbv zeta in Hent.
  assert (scope_item sc = item_of (MDict d) system_id s
          /\ dicts s1 = alter (fmap expected_form) d (dicts s)) as [-> ->].
  { destruct (_matchers (net s)) as [t|]; [|done].
    destruct (t !! T); by simplify_eq. }
  split; [done|]. split; [|apply expect_packet_exit_dicts].
  exists (expected_form <$> fields). split.
  - by rewrite list_lookup_alter_eq, Hd.
  - intros name. rewrite lookup_fmap.
    destruct (fields !! name) as [[| | |b]|]; simpl; try done.
    by destruct (bytes_decode_utf8 b).
Qed.

(** ** Unknown message types *)

Lemma unhandled_warnings_app type l1 l2 :
  unhandled_warnings type (l1 ++ l2)
  = (unhandled_warnings type l1 + unhandled_warnings type l2)%nat.
Proof. induction l1 as [|c l1 IH]; simpl; [done|]. rewrite IH. lia. Qed.

Lemma append_inj_r (p a b : string) : p +:+ a = p +:+ b -> a = b.
Proof. induction p as [|c p IH]; simpl; [done|]. intros [= H]. by apply IH. Qed.

Lemma quiet_emit type n c s :
  is_unhandled_warning type c = false -> quiet type n s -> quiet type n (emit c s).
Proof.
  intros Hc [Hn Hm]. split; [|done]. simpl.
  rewrite unhandled_warnings_app. simpl. rewrite Hc. lia.
Qed.

Ltac quiet_step :=
  match goal with
  | |- quiet _ _ (emit _ _) => by apply quiet_emit
  | H : quiet _ _ ?s |- quiet _ _ _ => destruct H; by split
  end.

Lemma find_uav_quiet type n message address :
  preserves (quiet type n) (_find_uav_from_message message address).
Proof.
  unfold _find_uav_from_message, _create_uav, driver_create_uav.
  preserving; quiet_step.
Qed.

Lemma call_handler_quiet type n h message connection_id address :
  preserves (quiet type n) (call_handler h message connection_id address).
Proof.
  pose proof (find_uav_quiet type n) as Hfind.
  destruct h; simpl;
    unfold _handle_message_autopilot_version, _handle_message_data16,
      _handle_message_global_position_int, _handle_message_gps_raw_int,
      _handle_message_heartbeat, _handle_message_statustext,
      _handle_message_sys_status, _handle_message_timesync,
      forward_to_uav, attribute, uav_call, _log_extra_from_message;
    repeat match goal with
      | |- preserves _ (_find_uav_from_message _ _) => apply Hfind
      | |- preserves _ (ret _) => apply preserves_ret
      | |- preserves _ (raise _) => apply preserves_raise
      | |- preserves _ (gets _) => apply preserves_gets
      | |- preserves _ (bind _ _) => apply preserves_bind
      | |- preserves _ (modify _) => apply preserves_modify; intros ? ?; quiet_step
      | |- preserves _ (match ?x with _ => _ end) => destruct x
      | |- forall _, _ => intro
      end.
Qed.


Lemma for_each_ok {A} (xs : list A) (body : A -> M unit) s :
  (forall x s', (body x s').1 = Ok tt) -> (for_each xs body s).1 = Ok tt.
Proof.
  intros Hb. revert s. induction xs as [|x xs IH]; intros s; simpl; [done|].
  unfold bind. specialize (Hb x s).
  destruct (body x s) as [[[]|e] s']; simpl in *; [apply IH|done].
Qed.

Lemma resolve_futures_quiet type n message :
  preserves (quiet type n) (resolve_futures message).
Proof.
  unfold resolve_futures, matchers_getitem, new_list, future_call.
  preserving; quiet_step.
Qed.

Lemma matchers_getitem_ok type s :
  is_Some (_matchers (net s)) -> exists r s', matchers_getitem type s = (Ok r, s').
Proof.
  intros [t Ht]. unfold matchers_getitem, new_list. monad. rewrite Ht.
  destruct (t !! type); by eexists _, _.
Qed.

Lemma resolve_futures_ok message s :
  is_Some (_matchers (net s)) -> (resolve_futures message s).1 = Ok tt.
Proof.
  intros Hm. unfold resolve_futures. unfold bind at 1.
  destruct (matchers_getitem_ok (msg_type message) s Hm) as (r & s' & ->).
  unfold bind at 1, gets at 1.
  apply for_each_ok. intros e s''. unfold bind, gets.
  by destruct (entry_matches _ _ _).
Qed.

(** One round of the loop, seen from the warnings about one type. *)
Lemma handle_inbound_message_warnings type n handlers item s :
  quiet type n s ->
  exists handlers' s',
    handle_inbound_message handlers item s = (Ok handlers', s') /\
    if occurrence type item then
      match handlers !! type with
      | None => quiet type (S n) s' /\ handlers' !! type = Some nop
      | Some h => quiet type n s' /\ handlers' !! type = Some h
      end
    else quiet type n s' /\ handlers' !! type = handlers !! type.
Proof.
  intros Hq. destruct item as [connection_id [message address]].
  unfold handle_inbound_message, occurrence, dispatched. simpl.
  destruct (msg_srcComponent message =? MAVComponent_AUTOPILOT1); simpl.
  2:{ eexists _, _. by split. }
  unfold bind at 1.
  pose proof (resolve_futures_quiet type n message s Hq) as Hq1.
  pose proof (resolve_futures_ok message s (proj2 Hq)) as Hok.
  destruct (resolve_futures message s) as [r s1]. simpl in *. subst r.
  destruct (handlers !! msg_type message) as [h|] eqn:Hh.
  - unfold bind at 1.
    assert (preserves (quiet type n)
      (try_except (call_handler h message connection_id address)
         (fun _ => modify (emit (log_exception
            ("Error while handling MAVLink message of type " +:+ msg_type message))))))
      as Hp.
    { apply preserves_try_except; [apply call_handler_quiet|].
      intros e. apply preserves_modify. intros s0 H0. by apply quiet_emit. }
    specialize (Hp s1 Hq1).
    assert ((try_except (call_handler h message connection_id address)
      (fun _ => modify (emit (log_exception
         ("Error while handling MAVLink message of type " +:+ msg_type message)))) s1).1
      = Ok tt) as Hok.
    { unfold try_except.
      by destruct (call_handler h message connection_id address s1) as [[[]|e] s2]. }
    destruct (try_except _ _ s1) as [r s2]. simpl in *. subst r.
    eexists _, _. split; [reflexivity|].
    destruct (decide (msg_type message = type)) as [Ht|Ht].
    + rewrite (bool_decide_eq_true_2 _ Ht). subst type. by rewrite Hh.
    + rewrite (bool_decide_eq_false_2 _ Ht). by split.
  - unfold bind at 1, _log_extra_from_message, gets at 1.
    unfold bind at 1, modify at 1. unfold ret.
    eexists _, _. split; [reflexivity|].
    destruct Hq1 as [Hn Hm].
    assert (forall c, unhandled_warnings type (log (emit c s1))
                      = (n + if is_unhandled_warning type c then 1 else 0)%nat) as Hlog.
    { intros c. cbn [emit set_log log]. rewrite unhandled_warnings_app, Hn.
      cbn [unhandled_warnings]. lia. }
    destruct (decide (msg_type message = type)) as [Ht|Ht].
    + rewrite (bool_decide_eq_true_2 _ Ht). subst type. rewrite Hh.
      split; [|by rewrite lookup_insert_eq].
      split; [|exact Hm]. rewrite Hlog. cbn [is_unhandled_warning].
      rewrite bool_decide_eq_true_2 by reflexivity. lia.
    + rewrite (bool_decide_eq_false_2 _ Ht).
      rewrite lookup_insert_ne by exact Ht. split; [|reflexivity].
      split; [|exact Hm]. rewrite Hlog. cbn [is_unhandled_warning].
      rewrite bool_decide_eq_false_2; [lia|].
      intros Heq. by apply append_inj_r in Heq.
Qed.

Lemma inbound_loop_warnings type channel : forall n handlers s,
  quiet type n s ->
  exists handlers' s',
    inbound_loop handlers channel s = (Ok handlers', s') /\
    quiet type (match handlers !! type with
                | None => if existsb (occurrence type) channel then S n else n
                | Some _ => n
                end) s'.
Proof.
  induction channel as [|item channel IH]; intros n handlers s Hq; simpl.
  - eexists _, _. split; [done|]. by destruct (handlers !! type).
  - unfold bind.
    destruct (handle_inbound_message_warnings type n handlers item s Hq)
      as (h1 & s1 & -> & Hstep).
    destruct (occurrence type item); simpl.
    + destruct (handlers !! type) as [h|] eqn:Hh.
      * destruct Hstep as [Hq1 Hh1].
        destruct (IH n h1 s1 Hq1) as (h2 & s2 & -> & Hq2).
        eexists _, _. split; [done|]. by rewrite Hh1 in Hq2.
      * destruct Hstep as [Hq1 Hh1].
        destruct (IH (S n) h1 s1 Hq1) as (h2 & s2 & -> & Hq2).
        eexists _, _. split; [done|]. by rewrite Hh1 in Hq2.
    + destruct Hstep as [Hq1 Hh1].
      destruct (IH n h1 s1 Hq1) as (h2 & s2 & -> & Hq2).
      eexists _, _. split; [done|]. by rewrite Hh1 in Hq2.
Qed.

(** Over a run of the dispatch loop, an unknown type is warned about
    once if it occurs and not at all otherwise. *)
Lemma handle_inbound_messages_warnings (type : string) (channel : list Inbound)
    (s : State) :
  is_Some (_matchers (net s)) ->
  initial_handlers !! type = None ->
  (_handle_inbound_messages channel s).1 = Ok tt /\
  unhandled_warnings type (log (_handle_inbound_messages channel s).2)
  = (unhandled_warnings type (log s)
     + if existsb (occurrence type) channel then 1 else 0)%nat.
Proof.
  intros Hm Hu. unfold _handle_inbound_messages, bind.
  destruct (inbound_loop_warnings type channel _ initial_handlers s (conj eq_refl Hm))
    as (h & s' & -> & Hq & _).
  simpl. split; [done|]. rewrite Hq, Hu.
  destruct (existsb _ _); lia.
Qed.

(** C7: in a run of the dispatch loop, for a message type without a
    handler: nothing is warned before its first dispatched occurrence, the
    first occurrence adds exactly one warning about the type, and no
    later message adds another. *)
Theorem C7_unknown_type_warned_once (type : string) (before after : list Inbound)
    (first : Inbound) (s : State) :
  is_Some (_matchers (net s)) ->
  initial_handlers !! type = None ->
  existsb (occurrence type) before = false ->
  occurrence type first = true ->
  let warnings channel :=
    unhandled_warnings type (log (_handle_inbound_messages channel s).2) in
  warnings before = unhandled_warnings type (log s) /\
  warnings (before ++ [first]) = S (warnings before) /\
  warnings (before ++ first :: after) = warnings (before ++ [first]) /\
  (_handle_inbound_messages (before ++ first :: after) s).1 = Ok tt.
Proof.
  intros Hm Hu Hb Hf warnings. subst warnings. cbv beta.
  destruct (handle_inbound_messages_warnings type before s Hm Hu) as [_ ->].
  destruct (handle_inbound_messages_warnings type (before ++ [first]) s Hm Hu) as [_ ->].
  destruct (handle_inbound_messages_warnings type (before ++ first :: after) s Hm Hu)
    as [-> ->].
  rewrite !existsb_app, Hb. simpl. rewrite Hf. simpl. split_and!; try done; lia.
Qed.

(** ** The UAV directory *)

Lemma find_uav_broadcast message address s :
  msg_srcSystem message = 0 ->
  _find_uav_from_message message address s = (Ok None, s).
Proof. intros H. unfold _find_uav_from_message. by rewrite H. Qed.

Lemma find_uav_known message address s uav :
  msg_srcSystem message <> 0 ->
  _uavs (net s) !! msg_srcSystem message = Some uav ->
  _find_uav_from_message message address s
  = (Ok (Some uav),
     upd_net (fun n => with_uav_addresses (<[uav := address]> (_uav_addresses n)) n) s).
Proof.
  intros H0 Hk. unfold _find_uav_from_message.
  rewrite (proj2 (Z.eqb_neq _ _) H0). monad. by rewrite Hk.
Qed.

Lemma find_uav_new message address s :
  msg_srcSystem message <> 0 ->
  _uavs (net s) !! msg_srcSystem message = None ->
  _find_uav_from_message message address s
  = (Ok (Some (length (uav_objs s))), created (msg_srcSystem message) address s).
Proof.
  intros H0 Hk. unfold _find_uav_from_message, _create_uav, driver_create_uav, created.
  rewrite (proj2 (Z.eqb_neq _ _) H0). monad. rewrite Hk. simpl.
  f_equal. unfold upd_net, set_net, set_registered, set_uav_objs. simpl.
  f_equal. rewrite alter_app_r_alt by done. by rewrite Nat.sub_diag.
Qed.

Lemma created_directory_ok system_id address s :
  system_id <> 0 -> _uavs (net s) !! system_id = None ->
  uav_directory_ok s -> uav_directory_ok (created system_id address s).
Proof.
  intros H0 Hnew (Hstored & Hobjs & Hnd & Hreg). unfold uav_directory_ok. simpl.
  split_and!.
  - intros sid uav. rewrite lookup_insert. case_decide as Hsid.
    + intros [= <-]. subst sid. split; [done|]. eexists. split.
      * by apply list_lookup_middle.
      * split_and!; try done. set_solver.
    + intros Hu. destruct (Hstored sid uav Hu) as (Hs0 & o & Ho & Hid & Hsys & Hin).
      split; [done|]. exists o. split_and!; try done.
      * by apply lookup_app_l_Some.
      * set_solver.
  - intros uav o. rewrite lookup_app_Some. intros [Ho|[Hlen Ho]].
    + destruct (Hobjs uav o Ho) as (sid & Hsys & Hu). exists sid. split; [done|].
      rewrite lookup_insert_ne; [done|]. intros <-. by rewrite Hnew in Hu.
    + destruct (uav - length (uav_objs s))%nat as [|k] eqn:Hk; simpl in Ho; [|done].
      simplify_eq. exists system_id. split; [done|].
      rewrite lookup_insert_eq. f_equal. lia.
  - apply list.NoDup_app. split_and!; [done| |apply NoDup_singleton].
    intros uav Hin Hin'. apply list_elem_of_singleton in Hin'. subst uav.
    specialize (Hreg _ Hin). lia.
  - intros uav. rewrite length_app. simpl. intros [Hin|Hin%list_elem_of_singleton]%elem_of_app.
    + specialize (Hreg _ Hin). lia.
    + subst. lia.
Qed.

Lemma find_uav_directory_ok message address :
  preserves uav_directory_ok (_find_uav_from_message message address).
Proof.
  intros s Hs. destruct (decide (msg_srcSystem message = 0)) as [H0|H0].
  - by rewrite find_uav_broadcast.
  - destruct (_uavs (net s) !! msg_srcSystem message) as [uav|] eqn:Hk.
    + by rewrite (find_uav_known _ _ _ uav).
    + rewrite find_uav_new by done. by apply created_directory_ok.
Qed.

Lemma uav_call_directory_ok uav c : preserves uav_directory_ok (uav_call uav c).
Proof.
  unfold uav_call. apply preserves_modify.
  intros s (Hstored & Hobjs & Hnd & Hreg). unfold uav_directory_ok. simpl.
  split_and!; try done.
  - intros sid u Hu. destruct (Hstored sid u Hu) as (Hs0 & o & Ho & Hid & Hsys & Hin).
    split; [done|]. rewrite list_lookup_alter.
    case_decide; subst; rewrite Ho; simpl; eexists; by split_and!.
  - intros u o. rewrite list_lookup_alter. case_decide; subst.
    + destruct (uav_objs s !! u) as [o'|] eqn:Ho'; simpl; [|done].
      intros [= <-]. by apply (Hobjs u o').
    + apply Hobjs.
  - intros u. rewrite length_alter. apply Hreg.
Qed.

Lemma directory_blind : matcher_blind uav_directory_ok.
Proof. unfold matcher_blind. split_and!; intros v s Hs; exact Hs. Qed.

Lemma directory_emit c s : uav_directory_ok s -> uav_directory_ok (emit c s).
Proof. done. Qed.

Lemma directory_transmit c s : uav_directory_ok s -> uav_directory_ok (transmit c s).
Proof. done. Qed.

Lemma call_handler_directory_ok h message connection_id address :
  preserves uav_directory_ok (call_handler h message connection_id address).
Proof.
  pose proof find_uav_directory_ok as Hfind.
  pose proof uav_call_directory_ok as Hcall.
  destruct h; simpl;
    unfold _handle_message_autopilot_version, _handle_message_data16,
      _handle_message_global_position_int, _handle_message_gps_raw_int,
      _handle_message_heartbeat, _handle_message_statustext,
      _handle_message_sys_status, _handle_message_timesync,
      forward_to_uav, attribute, _log_extra_from_message;
    repeat match goal with
      | |- preserves _ (_find_uav_from_message _ _) => apply Hfind
      | |- preserves _ (uav_call _ _) => apply Hcall
      | |- preserves _ (ret _) => apply preserves_ret
      | |- preserves _ (raise _) => apply preserves_raise
      | |- preserves _ (gets _) => apply preserves_gets
      | |- preserves _ (bind _ _) => apply preserves_bind
      | |- preserves _ (modify (emit _)) =>
          apply preserves_modify; intros ? ?; by apply directory_emit
      | |- preserves _ (match ?x with _ => _ end) => destruct x
      | |- forall _, _ => intro
      end.
Qed.

Lemma handle_inbound_message_directory_ok handlers item :
  preserves uav_directory_ok (handle_inbound_message handlers item).
Proof.
  destruct item as [connection_id [message address]]. unfold handle_inbound_message.
  destruct (negb _); [apply preserves_ret|].
  apply preserves_bind; [apply resolve_futures_blind, directory_blind|intros _].
  destruct (handlers !! msg_type message).
  - apply preserves_bind; [|intros; apply preserves_ret].
    apply preserves_try_except; [apply call_handler_directory_ok|].
    intros e. apply preserves_modify. intros ? ?. by apply directory_emit.
  - unfold _log_extra_from_message. preserving.
Qed.

Lemma manager_send_packet_directory_ok spec destination :
  preserves uav_directory_ok (manager_send_packet spec destination).
Proof. unfold manager_send_packet. preserving. Qed.

Lemma send_heartbeat_directory_ok target :
  preserves uav_directory_ok (send_heartbeat target).
Proof.
  unfold send_heartbeat. preserving. apply manager_send_packet_directory_ok.
Qed.

Lemma heartbeat_tick_directory_ok : preserves uav_directory_ok _generate_heartbeats_tick.
Proof. unfold _generate_heartbeats_tick, manager_broadcast_packet. preserving. Qed.

Lemma send_packet_directory_ok spec target w1 w2 :
  preserves uav_directory_ok (send_packet spec target w1 w2).
Proof.
  unfold send_packet, dict_setitem, manager_send_spec.
  pose proof manager_send_packet_directory_ok as Hsend.
  pose proof (expect_packet_enter_blind _ directory_blind) as Henter.
  pose proof (expect_packet_exit_blind _ directory_blind) as Hexit.
  pose proof (enter_all_blind _ directory_blind) as Henters.
  pose proof (exit_all_blind _ directory_blind) as Hexits.
  repeat match goal with
    | |- preserves _ (manager_send_packet _ _) => apply Hsend
    | |- preserves _ (expect_packet_enter _ _ _) => apply Henter
    | |- preserves _ (expect_packet_exit _) => apply Hexit
    | |- preserves _ (enter_all _ _ _) => apply Henters
    | |- preserves _ (exit_all _) => apply Hexits
    | |- preserves _ (ret _) => apply preserves_ret
    | |- preserves _ (raise _) => apply preserves_raise
    | |- preserves _ (gets _) => apply preserves_gets
    | |- preserves _ (bind _ _) => apply preserves_bind
    | |- preserves _ (unwinding _ _) => apply preserves_unwinding
    | |- preserves _ (modify _) => apply preserves_modify; intros ? ?; done
    | |- preserves _ (match ?x with _ => _ end) => destruct x
    | |- forall _, _ => intro
    end.
Qed.

Lemma send_packet_resume_directory_ok p outcome :
  preserves uav_directory_ok (send_packet_resume p outcome).
Proof.
  unfold send_packet_resume.
  pose proof (expect_packet_exit_blind _ directory_blind) as Hexit.
  pose proof (exit_all_blind _ directory_blind) as Hexits.
  repeat match goal with
    | |- preserves _ (expect_packet_exit _) => apply Hexit
    | |- preserves _ (exit_all _) => apply Hexits
    | |- preserves _ (ret _) => apply preserves_ret
    | |- preserves _ (raise _) => apply preserves_raise
    | |- preserves _ (bind _ _) => apply preserves_bind
    | |- preserves _ (match ?x with _ => _ end) => destruct x
    | |- forall _, _ => intro
    end.
Qed.

Lemma perform_directory_ok handlers a s :
  uav_directory_ok s -> uav_directory_ok (perform handlers a s).2.
Proof.
  intros Hs. destruct a; simpl.
  - pose proof (handle_inbound_message_directory_ok handlers item s Hs) as H.
    by destruct (handle_inbound_message handlers item s) as [[h'|e] s'].
  - by apply heartbeat_tick_directory_ok.
  - done.
  - by apply expect_packet_enter_blind; [apply directory_blind|].
  - by apply expect_packet_exit_blind; [apply directory_blind|].
  - by apply send_heartbeat_directory_ok.
  - by apply send_packet_directory_ok.
  - by apply send_packet_resume_directory_ok.
Qed.

Lemma perform_all_directory_ok acts : forall handlers s,
  uav_directory_ok s -> uav_directory_ok (perform_all handlers acts s).2.
Proof.
  induction acts as [|a acts IH]; intros handlers s Hs; simpl; [done|].
  pose proof (perform_directory_ok handlers a s Hs) as H.
  destruct (perform handlers a s) as [h' s']. by apply IH.
Qed.

(** C6: after any steps of the tasks around the network, a sighting of
    system ID 0 returns no UAV and changes nothing; a sighting of another
    system ID returns the one UAV object stored for it, whose identifier
    is [id_formatter(system_id, network_id)], which is registered, and
    whose address is the address of this sighting; the object is created
    (and registered) by the sighting only when none was stored. *)
Theorem C6_uav_created_once (s0 : State) (handlers : gmap string Handler)
    (acts : list Action) (message : MAVLinkMessage) (address : Address) :
  uav_directory_ok s0 ->
  let s := (perform_all handlers acts s0).2 in
  let out := _find_uav_from_message message address s in
  let system_id := msg_srcSystem message in
  (system_id = 0 -> out = (Ok None, s)) /\
  (system_id <> 0 ->
     exists uav o,
       out.1 = Ok (Some uav) /\
       _uavs (net out.2) !! system_id = Some uav /\
       uav_objs out.2 !! uav = Some o /\
       uav_id o = _id_formatter (net out.2) system_id (_id (net out.2)) /\
       uav ∈ registered out.2 /\
       _uav_addresses (net out.2) !! uav = Some address /\
       (forall uav' o', uav_objs out.2 !! uav' = Some o' ->
          uav_system_id o' = Some system_id -> uav' = uav) /\
       (forall known, _uavs (net s) !! system_id = Some known ->
          uav = known /\ length (uav_objs out.2) = length (uav_objs s) /\
          registered out.2 = registered s) /\
       (_uavs (net s) !! system_id = None ->
          length (uav_objs out.2) = S (length (uav_objs s)) /\
          registered out.2 = registered s ++ [uav])) /\
  NoDup (registered out.2) /\
  (forall uav o, uav_objs out.2 !! uav = Some o -> uav_system_id o <> Some 0).
Proof.
  intros H0 s out system_id.
  pose proof (perform_all_directory_ok acts handlers s0 H0) as Hs. fold s in Hs.
  pose proof (find_uav_directory_ok message address s Hs) as Hout. fold out in Hout.
  destruct Hout as (Hstored & Hobjs & Hnd & Hreg).
  split_and!.
  - intros Hz. by apply find_uav_broadcast.
  - intros Hz.
    assert (exists uav, out.1 = Ok (Some uav) /\
              _uavs (net out.2) !! system_id = Some uav /\
              _uav_addresses (net out.2) !! uav = Some address /\
              (forall known, _uavs (net s) !! system_id = Some known ->
                 uav = known /\ length (uav_objs out.2) = length (uav_objs s) /\
                 registered out.2 = registered s) /\
              (_uavs (net s) !! system_id = None ->
                 length (uav_objs out.2) = S (length (uav_objs s)) /\
                 registered out.2 = registered s ++ [uav])) as (uav & Hr & Hu & Ha & Hk & Hn).
    { subst out. destruct (_uavs (net s) !! system_id) as [known|] eqn:Hk.
      - rewrite (find_uav_known _ _ _ known) by done. exists known. simpl.
        split_and!; try done.
        + by rewrite lookup_insert_eq.
        + by intros ? [= <-].
      - rewrite find_uav_new by done. eexists. simpl. split_and!; try done.
        + by rewrite lookup_insert_eq.
        + by rewrite lookup_insert_eq.
        + intros _. rewrite length_app. simpl. split; [lia|done]. }
    destruct (Hstored system_id uav Hu) as (_ & o & Ho & Hid & Hsys & Hin).
    exists uav, o. split_and!; try done.
    intros uav' o' Ho' Hsys'. destruct (Hobjs uav' o' Ho') as (sid & Hs1 & Hs2).
    rewrite Hsys' in Hs1. injection Hs1 as <-. rewrite Hu in Hs2. by injection Hs2.
  - done.
  - intros uav o Ho Hsys. destruct (Hobjs uav o Ho) as (sid & Hs1 & Hs2).
    rewrite Hsys in Hs1. injection Hs1 as <-. by destruct (Hstored 0 uav Hs2).
Qed.

(** A network fresh from its constructor has an empty directory. *)
Lemma fresh_directory_ok id system_id id_formatter packet_loss now :
  uav_directory_ok (fresh_state (__init__ id system_id id_formatter packet_loss) now).
Proof.
  unfold uav_directory_ok. simpl. split_and!.
  - intros sid uav. by rewrite lookup_empty.
  - intros uav o. by rewrite lookup_nil.
  - apply NoDup_nil_2.
  - intros uav Hin. by apply elem_of_nil in Hin.
Qed.

(** ** Matcher scopes *)

Lemma join_alter_append {A} (ls : list (list A)) (r : nat) (l : list A) (x : A) :
  ls !! r = Some l -> mjoin (alter (fun l => l ++ [x]) r ls) ≡ₚ x :: mjoin ls.
Proof.
  revert r. induction ls as [|l0 ls IH]; intros [|r] Hr; simplify_eq/=.
  - rewrite <- app_assoc. simpl. symmetry. apply Permutation_middle.
  - rewrite (IH r Hr). symmetry. apply Permutation_middle.
Qed.

Lemma join_alter_delete {A} (ls : list (list A)) (r i : nat) (l : list A) (x : A) :
  ls !! r = Some l -> l !! i = Some x ->
  x :: mjoin (alter (delete i) r ls) ≡ₚ mjoin ls.
Proof.
  revert r. induction ls as [|l0 ls IH]; intros [|r] Hr Hi; simplify_eq/=.
  - rewrite (delete_Permutation l i x Hi) at 2. done.
  - rewrite <- (IH r Hr Hi). apply Permutation_middle.
Qed.

Lemma join_app_nil {A} (ls : list (list A)) : mjoin (ls ++ [[]]) = mjoin ls.
Proof. by rewrite join_app; simpl; rewrite !app_nil_r. Qed.

Lemma entry_eqb_future ds a b : entry_eqb ds a b = true -> entry_future a = entry_future b.
Proof.
  unfold entry_eqb. intros [_ H]%andb_prop. by apply bool_decide_eq_true in H.
Qed.

Lemma entry_eqb_refl ds a : entry_eqb ds a a = true.
Proof.
  unfold entry_eqb. rewrite !bool_decide_eq_true_2 by done. simpl.
  rewrite andb_true_r. destruct (entry_params a); simpl; try done.
  - by rewrite bool_decide_eq_true_2.
  - by rewrite bool_decide_eq_true_2.
Qed.

Lemma list_index_Some ds item l i :
  list_index ds item l = Some i ->
  exists x, l !! i = Some x /\ entry_future x = entry_future item.
Proof.
  revert i. induction l as [|x l IH]; intros i; simpl; [done|].
  destruct (entry_eqb ds x item) eqn:Hx.
  - intros [= <-]. exists x. split; [done|]. by apply entry_eqb_future in Hx.
  - destruct (list_index ds item l) as [j|]; simpl; [|done].
    intros [= <-]. by apply IH.
Qed.

Lemma list_index_elem ds item l :
  item ∈ l -> is_Some (list_index ds item l).
Proof.
  induction l as [|x l IH]; simpl; [by intros ?%elem_of_nil|].
  intros [->|Hin]%elem_of_cons.
  - by rewrite entry_eqb_refl.
  - destruct (entry_eqb ds x item); [done|]. destruct (IH Hin) as [i ->]. by eexists.
Qed.

Lemma elem_of_join_lookup {A} (ls : list (list A)) (x : A) :
  x ∈ mjoin ls <-> exists r l, ls !! r = Some l /\ x ∈ l.
Proof.
  rewrite list_elem_of_join. split.
  - intros (l & Hx & Hl). apply list_elem_of_lookup in Hl as [r Hr]. by exists r, l.
  - intros (r & l & Hr & Hx). exists l. split; [done|]. by eapply list_elem_of_lookup_2.
Qed.

Ltac guarded_step :=
  match goal with
  | H : guarded ?g _ |- guarded ?g _ => exact H
  end.

Lemma future_call_guarded g f c : preserves (guarded g) (future_call f c).
Proof.
  unfold future_call. apply preserves_modify. intros s [(Hnd & Hb & Ht) Hp].
  split; [|exact Hp]. split_and!; [exact Hnd| |exact Ht].
  simpl. by rewrite length_alter.
Qed.

Lemma present_grow r e s ls :
  present r e s -> present r e (set_lists (lists s ++ ls) s).
Proof. intros (l & Hl & He). exists l. split; [|done]. by apply lookup_app_l_Some. Qed.

Lemma matchers_getitem_guarded g type : preserves (guarded g) (matchers_getitem type).
Proof.
  intros s Hs. pose proof Hs as [(Hnd & Hb & Ht) Hp].
  unfold matchers_getitem, new_list. monad.
  destruct (_matchers (net s)) as [t|] eqn:Hm; simpl; [|exact Hs].
  destruct (t !! type) as [r|] eqn:Hr; simpl; [exact Hs|].
  split.
  - split_and!; simpl.
    + by rewrite join_app_nil.
    + by rewrite join_app_nil.
    + intros t' type' r' [= <-]. rewrite length_app. simpl.
      rewrite lookup_insert. case_decide.
      * intros [= <-]. lia.
      * intros Hr'. specialize (Ht t type' r' eq_refl Hr'). lia.
  - destruct g as [[r e]|]; [|done].
    destruct Hp as (l & Hl & He). exists l. split; [|done]. simpl.
    by apply lookup_app_l_Some.
Qed.

Lemma matchers_getitem_valid type s r s' :
  matchers_ok s -> matchers_getitem type s = (Ok r, s') ->
  (r < length (lists s'))%nat /\ length (futures s') = length (futures s) /\
  mjoin (lists s') = mjoin (lists s).
Proof.
  intros (Hnd & Hb & Ht). unfold matchers_getitem, new_list. monad.
  destruct (_matchers (net s)) as [t|] eqn:Hm; simpl; [|done].
  destruct (t !! type) as [r0|] eqn:Hr; simpl; intros [= <- <-]; simpl.
  - split_and!; try done. by apply (Ht t type).
  - rewrite length_app, join_app_nil. simpl. split_and!; try done. lia.
Qed.

Lemma type_to_str_cases type s :
  (exists T, type_to_str type s = (Ok T, s)) \/ (exists e, type_to_str type s = (Raise e, s)).
Proof.
  unfold type_to_str. destruct type as [T|z]; [left; by eexists|].
  destruct (MAVMessageType_name z); [left|right]; by eexists.
Qed.

Lemma expect_packet_enter_steps (type : MsgType) (params : Matcher)
    (system_id : option Z) (s : State) (T : string) :
  type_to_str type s = (Ok T, s) ->
  params <> MNone ->
  expect_packet_enter type params system_id s
  = (let item := item_of params system_id s in
     let* matchers := matchers_getitem T in
     modify (fun s => set_lists (alter (fun l => l ++ [item]) matchers (lists s)) s) ;;
     ret {| scope_future := length (futures s); scope_item := item;
            scope_matchers := matchers |}) (entered params s).
Proof.
  intros HT Hp. rewrite (expect_packet_enter_unfold _ _ _ _ T HT Hp).
  unfold matchers_getitem, new_list, entered. monad.
  destruct params as [|d|]; [done| |]; simpl;
    (destruct (_matchers (net s)) as [t|]; [|done]);
    (destruct (t !! T) as [r|]; simpl; done).
Qed.

Lemma entered_guarded g params s : guarded g s -> guarded g (entered params s).
Proof.
  intros [(Hnd & Hb & Ht) Hp]. unfold entered.
  assert (lists (match params with
                 | MDict d => set_dicts (alter (fmap expected_form) d (dicts s)) s
                 | _ => s end) = lists s) as Hl by (by destruct params).
  assert (_matchers (net (match params with
                 | MDict d => set_dicts (alter (fmap expected_form) d (dicts s)) s
                 | _ => s end)) = _matchers (net s)) as Hm by (by destruct params).
  split.
  - split_and!; simpl; rewrite ?Hl, ?Hm; try done.
    rewrite length_app. simpl. eapply list.Forall_impl; [exact Hb|]. simpl. intros; lia.
  - destruct g as [[r e]|]; [|done]. unfold present in *. simpl. by rewrite Hl.
Qed.

Lemma entered_fresh params s :
  matchers_ok s ->
  Forall (fun e => (entry_future e < length (futures s))%nat) (mjoin (lists (entered params s)))
  /\ length (futures (entered params s)) = S (length (futures s)).
Proof.
  intros (Hnd & Hb & Ht). unfold entered. simpl. rewrite length_app. simpl.
  split; [|lia]. by destruct params.
Qed.

Lemma append_guarded g r item s :
  guarded g s -> (r < length (lists s))%nat ->
  Forall (fun e => (entry_future e < entry_future item)%nat) (mjoin (lists s)) ->
  (entry_future item < length (futures s))%nat ->
  guarded g (set_lists (alter (fun l => l ++ [item]) r (lists s)) s).
Proof.
  intros [(Hnd & Hb & Ht) Hp] Hr Hfresh Hitem.
  destruct (lookup_lt_is_Some_2 _ _ Hr) as [l Hl].
  pose proof (join_alter_append (lists s) r l item Hl) as Hperm.
  split.
  - split_and!; simpl.
    + rewrite Hperm. rewrite fmap_cons. apply NoDup_cons_2; [|done].
      intros (e & He & Hin)%list_elem_of_fmap.
      rewrite list.Forall_forall in Hfresh. specialize (Hfresh e Hin). lia.
    + rewrite Hperm. by constructor.
    + intros t type r' Hm Hr'. rewrite length_alter. by eapply Ht.
  - destruct g as [[r' e]|]; [|done]. destruct Hp as (l' & Hl' & He).
    unfold present. simpl. rewrite list_lookup_alter. case_decide.
    + subst r'. rewrite Hl'. simpl. eexists. split; [done|]. set_solver.
    + by exists l'.
Qed.

Lemma expect_packet_enter_guarded g type params system_id :
  preserves (guarded g) (expect_packet_enter type params system_id).
Proof.
  intros s Hs.
  destruct (type_to_str_cases type s) as [[T HT]|[e He]].
  2:{ unfold expect_packet_enter, bind at 1. by rewrite He. }
  assert (params = MNone \/ params <> MNone) as [->|Hp]
    by (destruct params; [by left|by right..]).
  { unfold expect_packet_enter, bind at 1. by rewrite HT. }
  rewrite (expect_packet_enter_steps _ _ _ _ T HT Hp). cbv zeta.
  pose proof (entered_guarded g params s Hs) as H1.
  destruct (entered_fresh params s (proj1 Hs)) as [Hfresh Hlen].
  unfold bind at 1.
  pose proof (matchers_getitem_guarded g T _ H1) as H2.
  pose proof (matchers_getitem_valid T (entered params s)) as Hv.
  destruct (matchers_getitem T (entered params s)) as [[r|e] s2]; simpl in H2; [|done].
  destruct (Hv r s2 (proj1 H1) eq_refl) as (Hr & Hf & Hj).
  monad. apply append_guarded; try done.
  - by rewrite Hj.
  - simpl. lia.
Qed.

Lemma elem_of_delete_ne {A} (l : list A) (i : nat) (x e : A) :
  l !! i = Some x -> e ∈ l -> e <> x -> e ∈ delete i l.
Proof.
  intros Hi He Hne. rewrite (delete_Permutation l i x Hi) in He.
  apply elem_of_cons in He as [?|?]; done.
Qed.

Lemma delete_guarded g r i l x s :
  guarded g s -> lists s !! r = Some l -> l !! i = Some x ->
  (forall r' e, g = Some (r', e) -> entry_future x <> entry_future e) ->
  guarded g (set_lists (alter (delete i) r (lists s)) s).
Proof.
  intros [(Hnd & Hb & Ht) Hp] Hl Hi Hg.
  pose proof (join_alter_delete (lists s) r i l x Hl Hi) as Hperm.
  split.
  - split_and!; simpl.
    + rewrite <- Hperm, fmap_cons in Hnd. by apply NoDup_cons_1_2 in Hnd.
    + rewrite <- Hperm in Hb. by apply Forall_cons_1 in Hb as [_ ?].
    + intros t type r' Hm Hr'. rewrite length_alter. by eapply Ht.
  - destruct g as [[r' e]|]; [|done]. destruct Hp as (l' & Hl' & He).
    unfold present. simpl. rewrite list_lookup_alter. case_decide.
    + subst r'. rewrite Hl'. simpl. eexists. split; [done|].
      simplify_eq. eapply elem_of_delete_ne; [done..|].
      intros ->. by apply (Hg r x).
    + by exists l'.
Qed.

Lemma expect_packet_exit_run sc s :
  expect_packet_exit sc s
  = match list_index (dicts s) (scope_item sc) (lists s !!! scope_matchers sc) with
    | Some i => (Ok tt, set_lists (alter (delete i) (scope_matchers sc) (lists s)) s)
    | None => (Raise (ValueError "not in list"), s)
    end.
Proof. unfold expect_packet_exit. monad. by destruct (list_index _ _ _). Qed.

Lemma list_index_lookup ds item (ls : list (list Entry)) (r : nat) i :
  list_index ds item (ls !!! r) = Some i ->
  exists l x, ls !! r = Some l /\ l !! i = Some x /\ entry_future x = entry_future item.
Proof.
  intros Hi. destruct (ls !! r) as [l|] eqn:Hl.
  - rewrite (list_lookup_total_correct _ _ _ Hl) in Hi.
    destruct (list_index_Some _ _ _ _ Hi) as (x & Hx & Hf). by exists l, x.
  - rewrite list_lookup_total_alt, Hl in Hi. done.
Qed.

Lemma expect_packet_exit_guarded g sc :
  (forall r e, g = Some (r, e) -> entry_future (scope_item sc) <> entry_future e) ->
  preserves (guarded g) (expect_packet_exit sc).
Proof.
  intros Hg s Hs. rewrite expect_packet_exit_run.
  destruct (list_index _ _ _) as [i|] eqn:Hi; simpl; [|done].
  destruct (list_index_lookup _ _ _ _ _ Hi) as (l & x & Hl & Hx & Hf).
  eapply delete_guarded; try done. intros r' e ->. rewrite Hf. by eapply Hg.
Qed.

(** Leaving the scope of an item that is in its list removes it, and no
    other item holds its future. *)
Lemma expect_packet_exit_closes sc s :
  guarded (Some (scope_matchers sc, scope_item sc)) s ->
  exists s', expect_packet_exit sc s = (Ok tt, s') /\ matchers_ok s' /\
    forall e, e ∈ mjoin (lists s') -> entry_future e <> entry_future (scope_item sc).
Proof.
  intros Hs. pose proof Hs as [(Hnd & Hb & Ht) (l & Hl & He)].
  rewrite expect_packet_exit_run. rewrite (list_lookup_total_correct _ _ _ Hl).
  destruct (list_index_elem (dicts s) _ _ He) as [i Hi]. rewrite Hi.
  destruct (list_index_Some _ _ _ _ Hi) as (x & Hx & Hf).
  eexists. split; [done|].
  pose proof (delete_guarded None _ _ _ _ s (conj (proj1 Hs) I) Hl Hx) as [Hok _];
    [done|].
  split; [done|]. simpl.
  pose proof (join_alter_delete (lists s) _ i l x Hl Hx) as Hperm.
  rewrite <- Hperm, fmap_cons in Hnd. apply NoDup_cons_1_1 in Hnd.
  intros e Hin Heq. apply Hnd. rewrite Hf, <- Heq. by apply list_elem_of_fmap_2.
Qed.

Lemma expect_packet_enter_future type params system_id s sc s' :
  expect_packet_enter type params system_id s = (Ok sc, s') ->
  scope_future sc = length (futures s) /\
  scope_item sc = item_of params system_id s.
Proof.
  intros Hent.
  destruct (expect_packet_enter_type _ _ _ _ _ _ Hent) as [Hp [T HT]].
  rewrite (expect_packet_enter_unfold _ _ _ _ T HT Hp) in Hent. cbv zeta in Hent.
  destruct (_matchers (net s)) as [t|]; [|done].
  destruct (t !! T); by simplify_eq.
Qed.

Lemma guarded_future r e s :
  guarded (Some (r, e)) s -> (entry_future e < length (futures s))%nat.
Proof.
  intros [(Hnd & Hb & Ht) (l & Hl & He)].
  rewrite list.Forall_forall in Hb. apply Hb, elem_of_join_lookup. by exists r, l.
Qed.

Lemma expect_packet_enter_younger g type params system_id s sc s' :
  guarded g s -> expect_packet_enter type params system_id s = (Ok sc, s') ->
  younger g sc.
Proof.
  intros Hs Hent r e ->.
  destruct (expect_packet_enter_future _ _ _ _ _ _ Hent) as [_ ->]. simpl.
  pose proof (guarded_future r e s Hs). lia.
Qed.

Lemma exit_all_guarded g scs :
  Forall (fun sc => younger g sc.2) scs -> preserves (guarded g) (exit_all scs).
Proof.
  intros Hy. unfold exit_all.
  assert (Forall (fun sc => younger g sc.2) (rev scs)) as Hr by (by apply Forall_rev).
  clear Hy. induction Hr as [|sc scs' Hsc _ IH]; simpl; [apply preserves_ret|].
  apply preserves_bind; [by apply expect_packet_exit_guarded|done].
Qed.

Lemma enter_all_guarded g system_id wanted : forall entered s,
  guarded g s -> Forall (fun sc => younger g sc.2) entered ->
  guarded g (enter_all system_id wanted entered s).2 /\
  forall scs s', enter_all system_id wanted entered s = (Ok scs, s') ->
    Forall (fun sc => younger g sc.2) scs.
Proof.
  induction wanted as [|[key [rt rf]] wanted IH]; intros entered s Hs Hy; simpl.
  - split; [done|]. by intros scs s' [= <- <-].
  - unfold bind, unwinding.
    pose proof (expect_packet_enter_guarded g rt rf system_id s Hs) as H1.
    pose proof (expect_packet_enter_younger g rt rf system_id s) as H2.
    destruct (expect_packet_enter rt rf system_id s) as [[sc|e] s1]; simpl in H1.
    + apply IH; [done|]. apply Forall_app. split; [done|].
      constructor; [|done]. by apply (H2 sc s1).
    + pose proof (exit_all_guarded g entered Hy s1 H1) as H3. unfold bind, raise.
      destruct (exit_all entered s1) as [[[]|e'] s2]; simpl in *; by split.
Qed.

Lemma manager_send_spec_guarded g spec destination :
  preserves (guarded g) (manager_send_spec spec destination).
Proof.
  unfold manager_send_spec, manager_send_packet. preserving; guarded_step.
Qed.

Lemma send_packet_guarded g spec target w1 w2 :
  preserves (guarded g) (send_packet spec target w1 w2).
Proof.
  intros s Hs. rewrite send_packet_unfold. cbv zeta.
  assert (guarded g (addressing spec target s)) as H1 by exact Hs.
  destruct (_uav_addresses (net s) !! target) as [address|]; [|done].
  generalize dependent (addressing spec target s). intros s1 H1.
  generalize (uav_objs s !!! target). intros uav.
  destruct w1 as [[rt rf]|].
  - unfold bind at 1.
    pose proof (expect_packet_enter_guarded g rt rf (uav_system_id uav) s1 H1) as H2.
    pose proof (expect_packet_enter_younger g rt rf (uav_system_id uav) s1) as Hy.
    destruct (expect_packet_enter rt rf (uav_system_id uav) s1) as [[sc|e] s2];
      simpl in H2; [|done].
    specialize (Hy sc s2 H1 eq_refl). revert s2 H2.
    change (preserves (guarded g)
              (unwinding (manager_send_spec spec (DEFAULT_NAME, address))
                         (expect_packet_exit sc) ;; ret (AwaitingResponse sc))).
    apply preserves_bind; [|intros; apply preserves_ret].
    apply preserves_unwinding; [apply manager_send_spec_guarded|].
    by apply expect_packet_exit_guarded.
  - assert (preserves (guarded g)
              (manager_send_spec spec (DEFAULT_NAME, address) ;; ret (Returned None)))
      as Hplain.
    { apply preserves_bind; [apply manager_send_spec_guarded|intros; apply preserves_ret]. }
    destruct w2 as [[|w wanted]|]; [by apply Hplain| |by apply Hplain].
    generalize (w :: wanted). clear w wanted. intros wanted.
    unfold bind at 1.
    destruct (enter_all_guarded g (uav_system_id uav) wanted [] s1 H1 (Forall_nil_2 _))
      as [H2 Hy].
    destruct (enter_all (uav_system_id uav) wanted [] s1) as [[scs|e] s2];
      simpl in H2; [|done].
    revert s2 H2 Hy. intros s2 H2 Hy. specialize (Hy scs s2 eq_refl). revert s2 H2.
    change (preserves (guarded g)
              (unwinding (manager_send_spec spec (DEFAULT_NAME, address))
                         (exit_all scs) ;; ret (AwaitingOneOf scs))).
    apply preserves_bind; [|intros; apply preserves_ret].
    apply preserves_unwinding; [apply manager_send_spec_guarded|].
    by apply exit_all_guarded.
Qed.

Lemma resolve_futures_guarded g message : preserves (guarded g) (resolve_futures message).
Proof.
  unfold resolve_futures.
  apply preserves_bind; [apply matchers_getitem_guarded|intros r].
  apply preserves_bind; [apply preserves_gets|intros l].
  apply preserves_for_each. intros e.
  apply preserves_bind; [apply preserves_gets|intros ds].
  destruct (entry_matches ds message e); [apply future_call_guarded|apply preserves_ret].
Qed.

Lemma find_uav_guarded g message address :
  preserves (guarded g) (_find_uav_from_message message address).
Proof.
  unfold _find_uav_from_message, _create_uav, driver_create_uav.
  preserving; guarded_step.
Qed.

Lemma call_handler_guarded g h message connection_id address :
  preserves (guarded g) (call_handler h message connection_id address).
Proof.
  pose proof (find_uav_guarded g) as Hfind.
  destruct h; simpl;
    unfold _handle_message_autopilot_version, _handle_message_data16,
      _handle_message_global_position_int, _handle_message_gps_raw_int,
      _handle_message_heartbeat, _handle_message_statustext,
      _handle_message_sys_status, _handle_message_timesync,
      forward_to_uav, attribute, uav_call, _log_extra_from_message;
    repeat match goal with
      | |- preserves _ (_find_uav_from_message _ _) => apply Hfind
      | |- preserves _ (ret _) => apply preserves_ret
      | |- preserves _ (raise _) => apply preserves_raise
      | |- preserves _ (gets _) => apply preserves_gets
      | |- preserves _ (bind _ _) => apply preserves_bind
      | |- preserves _ (modify _) => apply preserves_modify; intros ? ?; guarded_step
      | |- preserves _ (match ?x with _ => _ end) => destruct x
      | |- forall _, _ => intro
      end.
Qed.

Lemma handle_inbound_message_guarded g handlers item :
  preserves (guarded g) (handle_inbound_message handlers item).
Proof.
  destruct item as [connection_id [message address]]. unfold handle_inbound_message.
  destruct (negb _); [apply preserves_ret|].
  apply preserves_bind; [apply resolve_futures_guarded|intros _].
  destruct (handlers !! msg_type message).
  - apply preserves_bind; [|intros; apply preserves_ret].
    apply preserves_try_except; [apply call_handler_guarded|].
    intros e. apply preserves_modify. intros ? ?. guarded_step.
  - unfold _log_extra_from_message. preserving; guarded_step.
Qed.

Lemma send_packet_resume_guarded g p outcome :
  (forall r e, g = Some (r, e) ->
     touches (entry_future e) (act_send_resume p outcome) = false) ->
  preserves (guarded g) (send_packet_resume p outcome).
Proof.
  intros Hg. unfold send_packet_resume. destruct p as [r|sc|scs]; simpl in Hg.
  - apply preserves_ret.
  - apply preserves_bind; [|intros; destruct outcome; [apply preserves_ret|apply preserves_raise]].
    apply expect_packet_exit_guarded. intros r e Hge.
    specialize (Hg r e Hge). by apply bool_decide_eq_false in Hg.
  - apply preserves_bind; [|intros; destruct outcome; [apply preserves_ret|apply preserves_raise]].
    apply exit_all_guarded. rewrite list.Forall_forall. intros sc Hin r e Hge.
    specialize (Hg r e Hge).
    assert (forall l, existsb (fun sc : string * Scope =>
              bool_decide (entry_future (scope_item sc.2) = entry_future e)) l = false ->
              sc ∈ l -> entry_future (scope_item sc.2) <> entry_future e) as Hex.
    { induction l as [|x l IH]; simpl; [by intros _ ?%elem_of_nil|].
      intros [Hx Hl]%orb_false_elim [->|Hin']%elem_of_cons.
      - by apply bool_decide_eq_false in Hx.
      - by apply IH. }
    by apply (Hex scs).
Qed.

Lemma perform_guarded g handlers a s :
  (forall r e, g = Some (r, e) -> touches (entry_future e) a = false) ->
  guarded g s -> guarded g (perform handlers a s).2.
Proof.
  intros Hg Hs. destruct a; simpl.
  - pose proof (handle_inbound_message_guarded g handlers item s Hs) as H.
    by destruct (handle_inbound_message handlers item s) as [[h'|e] s'].
  - revert s Hs.
    change (preserves (guarded g) _generate_heartbeats_tick).
    unfold _generate_heartbeats_tick, manager_broadcast_packet. preserving; guarded_step.
  - exact Hs.
  - by apply expect_packet_enter_guarded.
  - apply expect_packet_exit_guarded; [|done]. intros r e Hge.
    specialize (Hg r e Hge). simpl in Hg. by apply bool_decide_eq_false in Hg.
  - revert s Hs. change (preserves (guarded g) (send_heartbeat target)).
    unfold send_heartbeat, manager_send_packet. preserving; guarded_step.
  - by apply send_packet_guarded.
  - by apply send_packet_resume_guarded.
Qed.

Lemma perform_all_guarded g acts : forall handlers s,
  (forall r e, g = Some (r, e) ->
     forallb (fun a => negb (touches (entry_future e) a)) acts = true) ->
  guarded g s -> guarded g (perform_all handlers acts s).2.
Proof.
  induction acts as [|a acts IH]; intros handlers s Hg Hs; simpl; [done|].
  pose proof (perform_guarded g handlers a s) as H.
  destruct (perform handlers a s) as [h' s']. apply IH.
  - intros r e Hge. specialize (Hg r e Hge). simpl in Hg.
    by apply andb_prop in Hg as [_ ?].
  - apply H; [|done]. intros r e Hge. specialize (Hg r e Hge). simpl in Hg.
    apply andb_prop in Hg as [Ha _]. by apply negb_true_iff in Ha.
Qed.

(** ** Running and stopping *)

Lemma run_unfold (activity : M unit) (s : State) :
  run activity s
  = let '(r, s2) := activity (started s) in
    let '(r', s3) := cancel_all_matchers s2 in
    (match r' with Ok _ => r | Raise e => Raise e end, stopped s s3).
Proof.
  unfold run, started, stopped. unfold bind at 1, gets at 1. unfold bind at 1, gets at 1.
  unfold try_finally at 1. unfold bind at 1, modify at 1. unfold bind at 1.
  destruct (PrimFloat.ltb 0 (_packet_loss (net s))).
  - unfold modify at 1. unfold try_finally at 1. unfold bind at 1, modify at 1.
    unfold try_finally at 1.
    destruct (activity _) as [r s2]. destruct (cancel_all_matchers s2) as [[[]|e] s3]; done.
  - unfold ret at 1. unfold try_finally at 1. unfold bind at 1, modify at 1.
    unfold try_finally at 1.
    destruct (activity _) as [r s2]. destruct (cancel_all_matchers s2) as [[[]|e] s3]; done.
Qed.

(** ** Teardown of a run *)

Lemma for_each_reaches {A} (I Q : State -> Prop) (xs : list A) (body : A -> M unit) (x : A) :
  x ∈ xs ->
  (forall y s, (body y s).1 = Ok tt) ->
  (forall y, preserves I (body y)) ->
  (forall y, preserves Q (body y)) ->
  (forall s, I s -> Q (body x s).2) ->
  forall s, I s -> Q (for_each xs body s).2.
Proof.
  intros Hin Hok HI HQ Hx. induction xs as [|y xs IH]; [by apply elem_of_nil in Hin|].
  intros s Hs. simpl. unfold bind.
  pose proof (Hok y s) as Hy. pose proof (HI y s Hs) as HIy.
  apply elem_of_cons in Hin as [<-|Hin].
  - pose proof (Hx s Hs) as Hq.
    destruct (body x s) as [[[]|e] s']; simpl in *; [|done].
    by apply (preserves_for_each Q xs body HQ).
  - destruct (body y s) as [[[]|e] s']; simpl in *; [|done]. by apply IH.
Qed.

Lemma future_call_cancelled f f' c : preserves (cancelled f) (future_call f' c).
Proof.
  unfold future_call. apply preserves_modify. intros s (calls & Hf & Hc).
  unfold cancelled. simpl. rewrite list_lookup_alter. case_decide.
  - subst f'. rewrite Hf. simpl. eexists. split; [done|]. set_solver.
  - by exists calls.
Qed.

Lemma future_call_still ls n f c : preserves (still ls n) (future_call f c).
Proof.
  unfold future_call. apply preserves_modify. intros s [Hl Hn]. split; [done|].
  simpl. by rewrite length_alter.
Qed.

Lemma cancel_list_ok (l : list Entry) s :
  (for_each l (fun e => future_call (entry_future e) F_cancel) s).1 = Ok tt.
Proof. by apply for_each_ok. Qed.

Lemma cancel_list_reaches ls n (l : list Entry) (e : Entry) s :
  e ∈ l -> (entry_future e < n)%nat -> still ls n s ->
  cancelled (entry_future e)
    (for_each l (fun e => future_call (entry_future e) F_cancel) s).2.
Proof.
  intros Hin Hlt.
  apply (for_each_reaches (still ls n) (cancelled (entry_future e)) l _ e); try done.
  - intros y. apply future_call_still.
  - intros y. apply future_call_cancelled.
  - intros s' [Hl Hn]. unfold future_call, modify, cancelled. simpl.
    rewrite list_lookup_alter_eq.
    destruct (lookup_lt_is_Some_2 (futures s') (entry_future e)) as [calls Hc]; [lia|].
    rewrite Hc. simpl. eexists. split; [done|]. set_solver.
Qed.

Lemma cancel_all_matchers_reaches s t type r l e :
  matchers_ok s ->
  _matchers (net s) = Some t -> t !! type = Some r ->
  lists s !! r = Some l -> e ∈ l ->
  (cancel_all_matchers s).1 = Ok tt /\
  cancelled (entry_future e) (cancel_all_matchers s).2 /\
  still (lists s) (length (futures s)) (cancel_all_matchers s).2.
Proof.
  intros (Hnd & Hb & Ht) Hm Hr Hl He.
  unfold cancel_all_matchers. unfold bind at 1, gets at 1. unfold bind at 2, gets at 2.
  unfold bind at 3, gets at 3. rewrite Hm. simpl.
  set (body := fun kv : string * nat => _).
  assert (forall y s', (body y s').1 = Ok tt) as Hok.
  { intros y s'. subst body. unfold bind, gets. apply cancel_list_ok. }
  assert (forall y, preserves (still (lists s) (length (futures s))) (body y)) as Hstill.
  { intros y. subst body. apply preserves_bind; [apply preserves_gets|intros m].
    apply preserves_for_each. intros x. apply future_call_still. }
  split_and!.
  - by apply for_each_ok.
  - apply (for_each_reaches (still (lists s) (length (futures s)))
             (cancelled (entry_future e)) _ body (type, r)); try done.
    + by apply elem_of_map_to_list.
    + intros y. subst body. apply preserves_bind; [apply preserves_gets|intros m].
      apply preserves_for_each. intros x. apply future_call_cancelled.
    + intros s' Hs'. subst body. unfold bind, gets. simpl.
      destruct Hs' as [Hls Hn].
      rewrite Hls, (list_lookup_total_correct _ _ _ Hl).
      apply (cancel_list_reaches (lists s) (length (futures s))); try done.
      rewrite list.Forall_forall in Hb. apply Hb, elem_of_join_lookup. by exists r, l.
  - by apply (preserves_for_each _ _ body Hstill).
Qed.

Lemma cancel_all_matchers_ok s : (cancel_all_matchers s).1 = Ok tt.
Proof.
  unfold cancel_all_matchers. unfold bind at 1, gets at 1.
  apply for_each_ok. intros y s'. unfold bind, gets. apply cancel_list_ok.
Qed.

Lemma expect_packet_enter_present type params system_id s sc s1 :
  matchers_ok s -> expect_packet_enter type params system_id s = (Ok sc, s1) ->
  guarded (Some (scope_matchers sc, scope_item sc)) s1.
Proof.
  intros Hs Hent.
  pose proof (expect_packet_enter_guarded None type params system_id s (conj Hs I)) as Hok.
  rewrite Hent in Hok. split; [apply Hok|].
  destruct (expect_packet_enter_type _ _ _ _ _ _ Hent) as [Hp [T HT]].
  rewrite (expect_packet_enter_steps _ _ _ _ T HT Hp) in Hent. cbv zeta in Hent.
  unfold bind at 1 in Hent.
  pose proof (matchers_getitem_valid T (entered params s)) as Hv.
  destruct (matchers_getitem T (entered params s)) as [[r|e] s2]; [|done].
  pose proof (entered_guarded None params s (conj Hs I)) as [H1 _].
  destruct (Hv r s2 H1 eq_refl) as (Hr & _ & _).
  monad. injection Hent as <- <-.
  destruct (lookup_lt_is_Some_2 _ _ Hr) as [l Hl].
  exists (l ++ [item_of params system_id s]). split; [|set_solver].
  cbn [scope_matchers lists set_lists]. by rewrite list_lookup_alter_eq, Hl.
Qed.

Lemma expect_packet_enter_raise type params system_id s e s1 :
  expect_packet_enter type params system_id s = (Raise e, s1) -> lists s1 = lists s.
Proof.
  intros Hent.
  destruct (type_to_str_cases type s) as [[T HT]|[e' He]].
  2:{ unfold expect_packet_enter, bind at 1 in Hent. rewrite He in Hent. by simplify_eq. }
  assert (params = MNone \/ params <> MNone) as [->|Hp]
    by (destruct params; [by left|by right..]).
  { unfold expect_packet_enter, bind at 1 in Hent. rewrite HT in Hent.
    unfold bind at 1, raise in Hent. by simplify_eq. }
  rewrite (expect_packet_enter_unfold _ _ _ _ T HT Hp) in Hent. cbv zeta in Hent.
  destruct (_matchers (net s)) as [t|].
  - by destruct (t !! T).
  - injection Hent as _ <-. unfold entered. simpl. by destruct params.
Qed.

(** Scope closure: whatever happens inside the block, and however the
    block ends, no item of a matcher list holds the future of the scope
    once the block is left. *)
Lemma scope_closure {A} (type : MsgType) (params : Matcher) (system_id : option Z)
    (handlers : gmap string Handler) (body : list Action) (outcome : Result A)
    (s : State) :
  matchers_ok s ->
  forallb (fun a => negb (touches (length (futures s)) a)) body = true ->
  let out := with_expect_packet type params system_id
               (fun sc s' => (outcome, (perform_all handlers body s').2)) s in
  matchers_ok out.2 /\
  (forall e, e ∈ mjoin (lists out.2) -> entry_future e <> length (futures s)) /\
  (forall sc s1, expect_packet_enter type params system_id s = (Ok sc, s1) ->
     scope_future sc = length (futures s) /\ out.1 = outcome).
Proof.
  intros Hs Hbody out. subst out. unfold with_expect_packet, bind.
  destruct (expect_packet_enter type params system_id s) as [[sc|e] s1] eqn:Hent.
  - pose proof (expect_packet_enter_present _ _ _ _ _ _ Hs Hent) as H1.
    destruct (expect_packet_enter_future _ _ _ _ _ _ Hent) as [Hf Hitem].
    pose proof (perform_all_guarded (Some (scope_matchers sc, scope_item sc))
                  body handlers s1) as H2.
    unfold try_finally.
    destruct (perform_all handlers body s1) as [h' s2]. simpl in *.
    assert (guarded (Some (scope_matchers sc, scope_item sc)) s2) as H3.
    { apply H2; [|done]. intros r x [= <- <-]. by rewrite Hitem. }
    destruct (expect_packet_exit_closes sc s2 H3) as (s3 & -> & Hok & Hnone).
    simpl. split_and!; try done.
    + intros x Hx. rewrite Hitem in Hnone. by apply Hnone.
    + by intros sc' s1' [= <- <-].
  - pose proof (expect_packet_enter_guarded None type params system_id s (conj Hs I))
      as [Hok _].
    rewrite Hent in Hok. simpl in *. split_and!; try done.
    intros x Hx. rewrite (expect_packet_enter_raise _ _ _ _ _ _ Hent) in Hx.
    destruct Hs as (_ & Hb & _). rewrite list.Forall_forall in Hb.
    specialize (Hb x Hx). lia.
Qed.

Lemma started_matchers_ok s : matchers_ok s -> matchers_ok (started s).
Proof.
  intros (Hnd & Hb & Ht). unfold started.
  destruct (PrimFloat.ltb 0 (_packet_loss (net s))); (split_and!; [done|done|]);
    intros t type r [= <-]; by rewrite lookup_empty.
Qed.

(** Teardown: when a run ends, normally or by an exception of the
    communication manager, [cancel] has been called on the future of
    every item that the matcher table still holds. *)
Lemma run_cancels (acts : list Action) (outcome : Result unit) (s : State) :
  matchers_ok s ->
  let at_end := (activity_of acts outcome (started s)).2 in
  let out := run (activity_of acts outcome) s in
  out.1 = outcome /\
  out.2 = stopped s (cancel_all_matchers at_end).2 /\
  forall t type r l e,
    _matchers (net at_end) = Some t -> t !! type = Some r ->
    lists at_end !! r = Some l -> e ∈ l ->
    cancelled (entry_future e) out.2.
Proof.
  intros Hs at_end out. subst out. rewrite run_unfold.
  assert (activity_of acts outcome (started s) = (outcome, at_end)) as -> by done.
  pose proof (cancel_all_matchers_ok at_end) as Hok.
  assert (matchers_ok at_end) as Hend.
  { apply (perform_all_guarded None acts initial_handlers (started s)); [done|].
    split; [|done]. by apply started_matchers_ok. }
  pose proof (cancel_all_matchers_reaches at_end) as Hc.
  destruct (cancel_all_matchers at_end) as [r' s3]. simpl in *. subst r'.
  split_and!; try done.
  intros t type r l e Hm Hr Hl He.
  by destruct (Hc t type r l e Hend Hm Hr Hl He) as (_ & Hcancel & _).
Qed.

Lemma send_packet_plain (spec : string * nat) (target : nat)
    (wait_for_one_of : option (list (string * (MsgType * Matcher))))
    (address : Address) (s : State) :
  _uav_addresses (net s) !! target = Some address ->
  manager (net s) <> None ->
  wait_for_one_of = None \/ wait_for_one_of = Some [] ->
  send_packet spec target None wait_for_one_of s
  = (Ok (Returned None),
     transmit (mgr_send_packet spec.1 (dicts (addressing spec target s) !!! spec.2)
                 (DEFAULT_NAME, address))
       (addressing spec target s)).
Proof.
  intros Ha Hm Hw. rewrite send_packet_unfold. cbv zeta. rewrite Ha.
  assert ((manager_send_spec spec (DEFAULT_NAME, address) ;; ret (Returned None))
            (addressing spec target s)
          = (Ok (Returned None),
             transmit (mgr_send_packet spec.1 (dicts (addressing spec target s) !!! spec.2)
                         (DEFAULT_NAME, address)) (addressing spec target s))) as Hplain.
  { unfold bind at 1. rewrite manager_send_spec_run.
    change (manager (net (addressing spec target s))) with (manager (net s)).
    by destruct (manager (net s)). }
  by destruct Hw as [-> | ->].
Qed.

(** C8: a targeted send ([send_packet] or [send_heartbeat]) to a UAV
    without a recorded address fails with the no-address error and hands
    nothing to the communication manager.  With an address recorded,
    [send_packet] hands over at most one packet, addressed to the default
    channel name and that address: it has sent exactly that packet when it
    does not raise, and it does not raise when no response is awaited and
    the manager is bound. *)
Theorem C8_targeted_send_needs_address (spec : string * nat) (target : nat)
    (wait_for_response : option (MsgType * Matcher))
    (wait_for_one_of : option (list (string * (MsgType * Matcher)))) (s : State) :
  (_uav_addresses (net s) !! target = None ->
     send_heartbeat target s = (Raise NO_ADDRESS, s) /\
     (send_packet spec target wait_for_response wait_for_one_of s).1 = Raise NO_ADDRESS /\
     sent (send_packet spec target wait_for_response wait_for_one_of s).2 = sent s) /\
  (forall address, _uav_addresses (net s) !! target = Some address ->
     sent_at_most_one spec.1 (DEFAULT_NAME, address) (sent s)
       (send_packet spec target wait_for_response wait_for_one_of s) /\
     (manager (net s) <> None -> wait_for_response = None ->
      wait_for_one_of = None \/ wait_for_one_of = Some [] ->
      send_packet spec target wait_for_response wait_for_one_of s
      = (Ok (Returned None),
         transmit (mgr_send_packet spec.1 (dicts (addressing spec target s) !!! spec.2)
                     (DEFAULT_NAME, address))
           (addressing spec target s)))).
Proof.
  split.
  - intros Ha. split; [by apply send_heartbeat_no_address|].
    by rewrite send_packet_no_address.
  - intros address Ha. split; [by apply send_packet_address|].
    intros Hm -> Hw. by apply send_packet_plain.
Qed.

(** C10: [send_packet] writes [target_system], [target_component] and
    [_mavlink_version] into the field dictionary of the caller's
    specification before it looks up the address of the target; when the
    call fails for lack of an address the dictionary keeps these entries
    and nothing else of the state has changed. *)
Theorem C10_send_packet_addresses_spec_first (spec : string * nat) (target : nat)
    (wait_for_response : option (MsgType * Matcher))
    (wait_for_one_of : option (list (string * (MsgType * Matcher))))
    (fields : gmap string Value) (s : State) :
  _uav_addresses (net s) !! target = None ->
  dicts s !! spec.2 = Some fields ->
  let uav := uav_objs s !!! target in
  let out := send_packet spec target wait_for_response wait_for_one_of s in
  out.1 = Raise NO_ADDRESS /\
  out.2 = set_dicts (<[spec.2 := addressed uav fields]> (dicts s)) s /\
  (exists fields', dicts out.2 !! spec.2 = Some fields' /\
     fields' !! "target_system" = Some (value_of_option (uav_system_id uav)) /\
     fields' !! "target_component" = Some (VInt MAVComponent_AUTOPILOT1) /\
     fields' !! "_mavlink_version" = Some (VInt (uav_mavlink_version uav)) /\
     forall name, name <> "target_system" -> name <> "target_component" ->
       name <> "_mavlink_version" -> fields' !! name = fields !! name).
Proof.
  intros Ha Hd uav out. subst out. rewrite send_packet_no_address by done.
  split; [done|]. split.
  - unfold addressing. simpl. f_equal.
    apply list_eq. intros i. rewrite list_lookup_alter, list_lookup_insert.
    pose proof (lookup_lt_Some _ _ _ Hd) as Hlt.
    destruct (decide (spec.2 = i)) as [<-|Hne].
    + rewrite Hd, decide_True by done. done.
    + rewrite decide_False by (by intros [? _]). done.
  - exists (addressed uav fields). split; [by apply addressing_lookup|].
    unfold addressed. split_and!.
    + by rewrite lookup_insert_ne, lookup_insert_ne, lookup_insert_eq.
    + by rewrite lookup_insert_ne, lookup_insert_eq.
    + by rewrite lookup_insert_eq.
    + intros name H1 H2 H3. by rewrite !lookup_insert_ne.
Qed.


(** C1: the dispatch loop treats [None] as the predicate that matches
    every message of the type (subject to the source-system filter), but
    entering the scope of [expect_packet] with [None] raises: the loop
    over the items of the mapping is reached for every predicate that is
    not callable. *)
Theorem C1_wildcard_scope_entry_raises (type : string) (system_id : option Z)
    (future : nat) (ds : list (gmap string Value)) (message : MAVLinkMessage)
    (s : State) :
  entry_matches ds message
    {| entry_system_id := system_id; entry_params := MNone; entry_future := future |}
  = match system_id with
    | Some x => msg_srcSystem message =? x
    | None => true
    end /\
  expect_packet_enter (type_name type) MNone system_id s
  = (Raise (AttributeError "'NoneType' object has no attribute 'items'"), s).
Proof.
  split; [|apply expect_packet_wildcard_raises].
  unfold entry_matches. simpl. destruct system_id as [x|]; [|done].
  by destruct (msg_srcSystem message =? x).
Qed.

(** C2: the network created from a specification has server system ID
    255, whatever the [system_id] of the specification: the constructor
    receives the value and stores the constant. *)
Theorem C2_specification_system_id_ignored (spec : MAVLinkNetworkSpecification) :
  _system_id (from_specification spec) = 255 /\
  forall id system_id id_formatter packet_loss,
    _system_id (__init__ id system_id id_formatter packet_loss) = 255.
Proof. split; [apply from_specification_system_id|done]. Qed.

(** C3: (1) whatever the tasks do inside a [with expect_packet(...)]
    block, other than leaving this very scope, and whether the block ends
    normally or by an exception, once it is left no item of any matcher
    list holds the future of the scope; (2) when [run] ends, [cancel] has
    been called on the future of every item that the matcher table still
    held. *)
Theorem C3_matcher_scope_closure (type : MsgType) (params : Matcher)
    (system_id : option Z) (handlers : gmap string Handler)
    (body acts : list Action) (outcome : Result (option MAVLinkMessage))
    (run_outcome : Result unit) (s : State) :
  matchers_ok s ->
  (forallb (fun a => negb (touches (length (futures s)) a)) body = true ->
   let out := with_expect_packet type params system_id
                (fun sc s' => (outcome, (perform_all handlers body s').2)) s in
   matchers_ok out.2 /\
   (forall e, e ∈ mjoin (lists out.2) -> entry_future e <> length (futures s)) /\
   (forall sc s1, expect_packet_enter type params system_id s = (Ok sc, s1) ->
      scope_future sc = length (futures s) /\ out.1 = outcome)) /\
  (let at_end := (activity_of acts run_outcome (started s)).2 in
   let out := run (activity_of acts run_outcome) s in
   out.1 = run_outcome /\
   out.2 = stopped s (cancel_all_matchers at_end).2 /\
   forall t type r l e,
     _matchers (net at_end) = Some t -> t !! type = Some r ->
     lists at_end !! r = Some l -> e ∈ l ->
     cancelled (entry_future e) out.2).
Proof.
  intros Hs. split.
  - intros Hbody. by apply scope_closure.
  - by apply run_cancels.
Qed.

(** The state in which a run starts keeps the directory in order. *)
Lemma started_directory_ok s : uav_directory_ok s -> uav_directory_ok (started s).
Proof.
  intros Hs. unfold started. by destruct (PrimFloat.ltb 0 (_packet_loss (net s))).
Qed.

(** A state with empty object stores has its matcher lists in order. *)
Lemma fresh_matchers_ok n now : _matchers n = None -> matchers_ok (fresh_state n now).
Proof.
  intros Hn. unfold matchers_ok. simpl. split_and!.
  - apply NoDup_nil_2.
  - constructor.
  - intros t type r. by rewrite Hn.
Qed.

(** ** The dispatch loop *)


Lemma inbound_loop_filter (channel : list Inbound) : forall handlers s,
  inbound_loop handlers channel s
  = inbound_loop handlers (List.filter dispatched channel) s.
Proof.
  induction channel as [|item channel IH]; intros handlers s; [done|].
  cbn [List.filter]. destruct (dispatched item) eqn:Hd.
  - cbn [inbound_loop]. unfold bind.
    destruct (handle_inbound_message handlers item s) as [[h|e] s1]; [apply IH|done].
  - cbn [inbound_loop]. unfold bind at 1.
    assert (handle_inbound_message handlers item s = (Ok handlers, s)) as ->.
    { destruct item as [cid [m a]]. unfold handle_inbound_message, dispatched in *.
      simpl in Hd. by rewrite Hd. }
    apply IH.
Qed.

(** X1: the dispatch loop skips every message whose source component is
    not the autopilot: its result and the state it leaves are those of the
    loop run on the messages of the autopilot alone. *)
Theorem X1_dispatch_ignores_other_components (channel : list Inbound) (s : State) :
  _handle_inbound_messages channel s
  = _handle_inbound_messages (List.filter dispatched channel) s.
Proof. unfold _handle_inbound_messages, bind. by rewrite inbound_loop_filter. Qed.


(** ** Failing handlers *)

Lemma handle_inbound_message_run handlers connection_id message address s :
  msg_srcComponent message = MAVComponent_AUTOPILOT1 ->
  handle_inbound_message handlers (connection_id, (message, address)) s
  = match resolve_futures message s with
    | (Raise e, s1) => (Raise e, s1)
    | (Ok _, s1) =>
        match handlers !! msg_type message with
        | Some h =>
            match call_handler h message connection_id address s1 with
            | (Ok _, s2) => (Ok handlers, s2)
            | (Raise _, s2) =>
                (Ok handlers,
                 emit (log_exception ("Error while handling MAVLink message of type "
                                      +:+ msg_type message)) s2)
            end
        | None =>
            (Ok (<[msg_type message := nop]> handlers),
             emit (log_warn ("Unhandled MAVLink message type: " +:+ msg_type message)
                     (Some (log_id_from_message message (_id (net s1))))) s1)
        end
    end.
Proof.
  intros Hc. unfold handle_inbound_message. rewrite Hc, Z.eqb_refl. cbn [negb].
  unfold bind at 1. destruct (resolve_futures message s) as [[[]|e] s1]; [|done].
  destruct (handlers !! msg_type message) as [h|]; [|done].
  unfold bind at 1, try_except.
  by destruct (call_handler h message connection_id address s1) as [[[]|e] s2].
Qed.

(** X2: no exception of a message handler leaves a round of the dispatch
    loop.  When a round raises, the exception was raised by the loop that
    resolves the futures, before any handler ran; when the handler raises,
    the round returns with the handler table unchanged and has logged, as
    an exception, the error of handling this message type. *)
Theorem X2_handler_errors_are_contained (handlers : gmap string Handler)
    (connection_id : string) (message : MAVLinkMessage) (address : Address)
    (s : State) :
  let out := handle_inbound_message handlers (connection_id, (message, address)) s in
  (forall e, out.1 = Raise e -> resolve_futures message s = (Raise e, out.2)) /\
  (forall h e s1 s2,
     msg_srcComponent message = MAVComponent_AUTOPILOT1 ->
     handlers !! msg_type message = Some h ->
     resolve_futures message s = (Ok tt, s1) ->
     call_handler h message connection_id address s1 = (Raise e, s2) ->
     out = (Ok handlers,
            emit (log_exception ("Error while handling MAVLink message of type "
                                 +:+ msg_type message)) s2)).
Proof.
  intros out. subst out. split.
  - intros e. destruct (decide (msg_srcComponent message = MAVComponent_AUTOPILOT1)) as [Hc|Hc].
    + rewrite handle_inbound_message_run by done.
      destruct (resolve_futures message s) as [[[]|e'] s1]; [|by intros [= ->]].
      destruct (handlers !! msg_type message) as [h|]; [|done].
      by destruct (call_handler h message connection_id address s1) as [[[]|e'] s2].
    + unfold handle_inbound_message.
      by rewrite (proj2 (Z.eqb_neq _ _) Hc).
  - intros h e s1 s2 Hc Hh Hr Hcall.
    by rewrite handle_inbound_message_run, Hr, Hh, Hcall.
Qed.

(** ** Status texts *)

Lemma prearm_prefix (rest : string) :
  String.prefix "PreArm: " ("PreArm: " +:+ rest) = true /\
  string_drop 8 ("PreArm: " +:+ rest) = rest /\
  truthy (VStr ("PreArm: " +:+ rest)) = true.
Proof. split_and!; [by destruct rest|done|done]. Qed.

Lemma statustext_prearm message connection_id address rest s :
  getattr message "text" = Some (VStr ("PreArm: " +:+ rest)) ->
  _handle_message_statustext message connection_id address s
  = match _find_uav_from_message message address s with
    | (Ok (Some uav), s1) => uav_call uav (UAV_notify_prearm_failure rest) s1
    | (Ok None, s1) => (Raise (AttributeError "notify_prearm_failure"), s1)
    | (Raise e, s1) => (Raise e, s1)
    end.
Proof.
  intros Ht. destruct (prearm_prefix rest) as (Hp & Hd & Htr).
  unfold _handle_message_statustext, attribute. rewrite Ht.
  unfold bind at 1, ret at 1. rewrite Htr. unfold bind at 1, ret at 1. rewrite Hp.
  unfold bind at 1.
  destruct (_find_uav_from_message message address s) as [[[uav|]|e] s1]; try done.
Qed.

Lemma directory_fields_blind (s : State) :
  matcher_blind (fun s' => log s' = log s /\ uav_objs s' = uav_objs s /\
                           registered s' = registered s /\
                           _uavs (net s') = _uavs (net s) /\
                           _uav_addresses (net s') = _uav_addresses (net s)).
Proof. unfold matcher_blind. split_and!; intros v s' Hs'; exact Hs'. Qed.

(** X3: a [STATUSTEXT] that reports a pre-arm failure with source system
    0 makes its handler raise, since no UAV stands for system 0 and the
    handler calls [notify_prearm_failure] on what the lookup returned; on
    a running network the round logs the handling error and returns, and
    no UAV is created, registered or given an address. *)
Theorem X3_prearm_from_system_0 (handlers : gmap string Handler)
    (connection_id : string) (message : MAVLinkMessage) (address : Address)
    (rest : string) (s : State) :
  is_Some (_matchers (net s)) ->
  msg_srcComponent message = MAVComponent_AUTOPILOT1 ->
  msg_type message = "STATUSTEXT" ->
  handlers !! "STATUSTEXT" = Some handle_statustext ->
  msg_srcSystem message = 0 ->
  getattr message "text" = Some (VStr ("PreArm: " +:+ rest)) ->
  let out := handle_inbound_message handlers (connection_id, (message, address)) s in
  (forall s1, _handle_message_statustext message connection_id address s1
              = (Raise (AttributeError "notify_prearm_failure"), s1)) /\
  out.1 = Ok handlers /\
  log out.2
  = log s ++ [log_exception "Error while handling MAVLink message of type STATUSTEXT"] /\
  uav_objs out.2 = uav_objs s /\
  registered out.2 = registered s /\
  _uavs (net out.2) = _uavs (net s) /\
  _uav_addresses (net out.2) = _uav_addresses (net s).
Proof.
  intros Hm Hc Ht Hh H0 Htext out.
  assert (forall s1, _handle_message_statustext message connection_id address s1
                     = (Raise (AttributeError "notify_prearm_failure"), s1)) as Hraise.
  { intros s1. rewrite (statustext_prearm _ _ _ rest) by done.
    by rewrite find_uav_broadcast. }
  split; [exact Hraise|]. subst out.
  rewrite handle_inbound_message_run by done.
  pose proof (resolve_futures_ok message s Hm) as Hok.
  pose proof (resolve_futures_blind _ (directory_fields_blind s) message s) as Hkeep.
  destruct (resolve_futures message s) as [[[]|e] s1]; [|done].
  rewrite Ht, Hh. cbn [call_handler]. rewrite Hraise. cbn [fst snd emit set_log log uav_objs registered net].
  destruct Hkeep as (Hl & Hu & Hr & Hus & Ha); [by split_and!|].
  simpl in *. by rewrite Hl.
Qed.

(** X4: the handler of [STATUSTEXT].  A text that starts with
    ["PreArm: "], from a system other than 0, is a sighting of that system,
    and the UAV of the system is notified of the pre-arm failure with the
    rest of the text; any other text is logged, at the level of its
    severity, with the identifier of the sender, and nothing else
    changes. *)
Theorem X4_status_text_handling (connection_id : string) (message : MAVLinkMessage)
    (address : Address) (text : string) (s : State) :
  getattr message "text" = Some (VStr text) ->
  (forall rest, text = "PreArm: " +:+ rest -> msg_srcSystem message <> 0 ->
     uav_directory_ok s ->
     exists uav o s1,
       _find_uav_from_message message address s = (Ok (Some uav), s1) /\
       uav_objs s1 !! uav = Some o /\
       _handle_message_statustext message connection_id address s
       = (Ok tt,
          set_uav_objs
            (<[uav := uav_record_call (UAV_notify_prearm_failure rest) o]> (uav_objs s1))
            s1)) /\
  (String.prefix "PreArm: " text = false ->
   forall severity, getattr message "severity" = Some severity ->
     _handle_message_statustext message connection_id address s
     = (Ok tt,
        emit (log_log (log_level_from_severity severity) (VStr text)
                (Some (log_id_from_message message (_id (net s))))) s)).
Proof.
  intros Ht. split.
  - intros rest -> H0 Hdir.
    pose proof (find_uav_directory_ok message address s Hdir) as Hdir1.
    rewrite (statustext_prearm _ _ _ rest) by done.
    assert (exists uav s1, _find_uav_from_message message address s = (Ok (Some uav), s1)
              /\ _uavs (net s1) !! msg_srcSystem message = Some uav) as (uav & s1 & Hf & Hu).
    { destruct (_uavs (net s) !! msg_srcSystem message) as [uav|] eqn:Hk.
      - rewrite (find_uav_known _ _ _ uav) by done. eexists _, _. by split.
      - rewrite find_uav_new by done. eexists _, _. split; [done|].
        simpl. by rewrite lookup_insert_eq. }
    rewrite Hf in Hdir1 |- *. simpl in Hdir1.
    destruct Hdir1 as (Hstored & _).
    destruct (Hstored _ _ Hu) as (_ & o & Ho & _).
    exists uav, o, s1. split; [done|]. split; [done|].
    unfold uav_call, modify. do 2 f_equal.
    apply list_eq. intros i. rewrite list_lookup_alter, list_lookup_insert.
    pose proof (lookup_lt_Some _ _ _ Ho) as Hlt.
    destruct (decide (uav = i)) as [<-|Hne].
    + by rewrite Ho, decide_True.
    + rewrite decide_False by (by intros [? _]). done.
  - intros Hp severity Hsev.
    unfold _handle_message_statustext, attribute. rewrite Ht.
    unfold bind at 1, ret at 1.
    destruct (truthy (VStr text)); unfold bind at 1, ret at 1; rewrite ?Hp;
      rewrite Hsev; reflexivity.
Qed.

(** ** Messages and the records of other systems *)

Lemma kept_blind system_id s0 : matcher_blind (kept system_id s0).
Proof. unfold matcher_blind. split_and!; intros v s Hs; exact Hs. Qed.

Lemma kept_emit system_id s0 c s : kept system_id s0 s -> kept system_id s0 (emit c s).
Proof. done. Qed.

Lemma kept_transmit system_id s0 c s :
  kept system_id s0 s -> kept system_id s0 (transmit c s).
Proof. done. Qed.

Lemma find_uav_stores message address s uav s1 :
  _find_uav_from_message message address s = (Ok (Some uav), s1) ->
  msg_srcSystem message <> 0 /\
  _uavs (net s1) !! msg_srcSystem message = Some uav /\
  _uav_addresses (net s1) !! uav = Some address.
Proof.
  destruct (decide (msg_srcSystem message = 0)) as [H0|H0].
  { by rewrite find_uav_broadcast. }
  split; [done|]. revert H.
  destruct (_uavs (net s) !! msg_srcSystem message) as [known|] eqn:Hk.
  - rewrite (find_uav_known _ _ _ known) by done. intros [= <- <-]. simpl.
    by rewrite lookup_insert_eq.
  - rewrite find_uav_new by done. intros [= <- <-]. simpl.
    by rewrite !lookup_insert_eq.
Qed.

Lemma find_uav_kept system_id s0 message address :
  msg_srcSystem message <> system_id ->
  preserves (kept system_id s0) (_find_uav_from_message message address).
Proof.
  intros Hne s [Hdir (Hu & Hrec)].
  split; [by apply find_uav_directory_ok|].
  destruct (decide (msg_srcSystem message = 0)) as [H0|H0].
  { by rewrite find_uav_broadcast. }
  pose proof Hdir as (Hstored & Hobjs & Hnd & Hreg).
  destruct (_uavs (net s) !! msg_srcSystem message) as [known|] eqn:Hk.
  - rewrite (find_uav_known _ _ _ known) by done. unfold same_record. simpl.
    split; [done|].
    intros uav Hsid. destruct (Hrec uav Hsid) as [Ha Ho]. split; [|done].
    rewrite lookup_insert_ne; [done|]. intros <-.
    rewrite <- Hu in Hsid.
    destruct (Hstored _ _ Hk) as (_ & o & Ho1 & _ & Hsys1 & _).
    destruct (Hstored _ _ Hsid) as (_ & o' & Ho2 & _ & Hsys2 & _).
    rewrite Ho1 in Ho2. injection Ho2 as <-. rewrite Hsys1 in Hsys2. by injection Hsys2.
  - rewrite find_uav_new by done. unfold created, same_record. simpl. split.
    + by rewrite lookup_insert_ne.
    + intros uav Hsid. destruct (Hrec uav Hsid) as [Ha Ho].
      rewrite <- Hu in Hsid.
      destruct (Hstored _ _ Hsid) as (_ & o' & Ho2 & _).
      pose proof (lookup_lt_Some _ _ _ Ho2) as Hlt.
      rewrite lookup_insert_ne by lia. split; [done|].
      rewrite lookup_app_l by done. done.
Qed.

Lemma uav_call_kept system_id s0 message uav c s :
  msg_srcSystem message <> system_id ->
  _uavs (net s) !! msg_srcSystem message = Some uav ->
  kept system_id s0 s -> kept system_id s0 (uav_call uav c s).2.
Proof.
  intros Hne Hsrc [Hdir (Hu & Hrec)].
  split; [by apply uav_call_directory_ok|]. unfold same_record. simpl. split; [done|].
  intros uav' Hsid. destruct (Hrec uav' Hsid) as [Ha Ho]. split; [done|].
  rewrite list_lookup_alter_ne; [done|]. intros <-.
  rewrite <- Hu in Hsid.
  destruct Hdir as (Hstored & _).
  destruct (Hstored _ _ Hsrc) as (_ & o & Ho1 & _ & Hsys1 & _).
  destruct (Hstored _ _ Hsid) as (_ & o' & Ho2 & _ & Hsys2 & _).
  rewrite Ho1 in Ho2. injection Ho2 as <-. rewrite Hsys1 in Hsys2. by injection Hsys2.
Qed.

(** A sighting followed by a call on the UAV that it returned. *)
Lemma find_then_call_kept system_id s0 message address (call : nat -> UAVCall)
    (otherwise : M unit) :
  msg_srcSystem message <> system_id ->
  preserves (kept system_id s0) otherwise ->
  preserves (kept system_id s0)
    (let* uav := _find_uav_from_message message address in
     match uav with
     | Some uav => uav_call uav (call uav)
     | None => otherwise
     end).
Proof.
  intros Hne Ho s Hs. unfold bind.
  pose proof (find_uav_kept system_id s0 message address Hne s Hs) as H1.
  pose proof (find_uav_stores message address s) as H2.
  destruct (_find_uav_from_message message address s) as [[[uav|]|e] s1]; simpl in H1.
  - destruct (H2 uav s1 eq_refl) as (_ & Hsrc & _). by eapply uav_call_kept.
  - by apply Ho.
  - done.
Qed.

Lemma forward_to_uav_kept system_id s0 kind message address :
  msg_srcSystem message <> system_id ->
  preserves (kept system_id s0) (forward_to_uav kind message address).
Proof.
  intros Hne. unfold forward_to_uav.
  apply (find_then_call_kept system_id s0 message address
           (fun _ => UAV_handle_message kind message) (ret tt) Hne).
  apply preserves_ret.
Qed.

Lemma call_handler_kept system_id s0 h message connection_id address :
  msg_srcSystem message <> system_id ->
  preserves (kept system_id s0) (call_handler h message connection_id address).
Proof.
  intros Hne. pose proof (forward_to_uav_kept system_id s0) as Hfwd.
  destruct h; simpl;
    unfold _handle_message_autopilot_version, _handle_message_data16,
      _handle_message_global_position_int, _handle_message_gps_raw_int,
      _handle_message_heartbeat, _handle_message_sys_status, _handle_message_timesync,
      attribute, _log_extra_from_message;
    try (repeat match goal with
      | |- preserves _ (forward_to_uav _ _ _) => by apply Hfwd
      | |- preserves _ (ret _) => apply preserves_ret
      | |- preserves _ (raise _) => apply preserves_raise
      | |- preserves _ (gets _) => apply preserves_gets
      | |- preserves _ (bind _ _) => apply preserves_bind
      | |- preserves _ (modify (emit _)) =>
          apply preserves_modify; intros ? ?; by apply kept_emit
      | |- preserves _ (match ?x with _ => _ end) => destruct x
      | |- forall _, _ => intro
      end; fail).
  (* STATUSTEXT *)
  unfold _handle_message_statustext, attribute, _log_extra_from_message.
  apply preserves_bind; [destruct (getattr message "text"); preserving|intros text].
  apply preserves_bind.
  { destruct (truthy text); [destruct text|]; preserving. }
  intros [|].
  - destruct text as [| |text|];
      try (apply preserves_bind; [by apply find_uav_kept|];
           intros [uav|]; apply preserves_raise).
    apply (find_then_call_kept system_id s0 message address
             (fun _ => UAV_notify_prearm_failure (string_drop 8 text))
             (raise (AttributeError "notify_prearm_failure")) Hne).
    apply preserves_raise.
  - apply preserves_bind; [destruct (getattr message "severity"); preserving|intros sev].
    apply preserves_bind; [apply preserves_gets|intros extra].
    apply preserves_modify. intros ? ?. by apply kept_emit.
Qed.

(** ** What the callers of the network leave alone *)

Section Frame.
Context (Q : State -> Prop) (HQ : matcher_blind Q)
        (Htransmit : forall c s, Q s -> Q (transmit c s)).

Lemma manager_send_packet_frame spec destination :
  preserves Q (manager_send_packet spec destination).
Proof. unfold manager_send_packet. preserving. by apply Htransmit. Qed.

Lemma send_heartbeat_frame target : preserves Q (send_heartbeat target).
Proof. unfold send_heartbeat. preserving. apply manager_send_packet_frame. Qed.

Lemma heartbeat_tick_frame : preserves Q _generate_heartbeats_tick.
Proof.
  unfold _generate_heartbeats_tick, manager_broadcast_packet. preserving.
  by apply Htransmit.
Qed.

Lemma send_packet_frame spec target w1 w2 : preserves Q (send_packet spec target w1 w2).
Proof.
  unfold send_packet, dict_setitem, manager_send_spec.
  pose proof manager_send_packet_frame as Hsend.
  pose proof (expect_packet_enter_blind _ HQ) as Henter.
  pose proof (expect_packet_exit_blind _ HQ) as Hexit.
  pose proof (enter_all_blind _ HQ) as Henters.
  pose proof (exit_all_blind _ HQ) as Hexits.
  repeat match goal with
    | |- preserves _ (manager_send_packet _ _) => apply Hsend
    | |- preserves _ (expect_packet_enter _ _ _) => apply Henter
    | |- preserves _ (expect_packet_exit _) => apply Hexit
    | |- preserves _ (enter_all _ _ _) => apply Henters
    | |- preserves _ (exit_all _) => apply Hexits
    | |- preserves _ (ret _) => apply preserves_ret
    | |- preserves _ (raise _) => apply preserves_raise
    | |- preserves _ (gets _) => apply preserves_gets
    | |- preserves _ (bind _ _) => apply preserves_bind
    | |- preserves _ (unwinding _ _) => apply preserves_unwinding
    | |- preserves _ (modify _) => apply preserves_modify; intros ? ?; by apply HQ
    | |- preserves _ (match ?x with _ => _ end) => destruct x
    | |- forall _, _ => intro
    end.
Qed.

Lemma send_packet_resume_frame p outcome : preserves Q (send_packet_resume p outcome).
Proof.
  unfold send_packet_resume.
  pose proof (expect_packet_exit_blind _ HQ) as Hexit.
  pose proof (exit_all_blind _ HQ) as Hexits.
  repeat match goal with
    | |- preserves _ (expect_packet_exit _) => apply Hexit
    | |- preserves _ (exit_all _) => apply Hexits
    | |- preserves _ (ret _) => apply preserves_ret
    | |- preserves _ (raise _) => apply preserves_raise
    | |- preserves _ (bind _ _) => apply preserves_bind
    | |- preserves _ (match ?x with _ => _ end) => destruct x
    | |- forall _, _ => intro
    end.
Qed.

(** A step of a task other than the dispatch loop. *)
Lemma caller_step_frame handlers a s :
  (forall item, a <> act_inbound item) -> Q s -> Q (perform handlers a s).2.
Proof.
  intros Ha Hs. destruct a; simpl.
  - by destruct (Ha item).
  - by apply heartbeat_tick_frame.
  - by apply HQ.
  - by apply expect_packet_enter_blind.
  - by apply expect_packet_exit_blind.
  - by apply send_heartbeat_frame.
  - by apply send_packet_frame.
  - by apply send_packet_resume_frame.
Qed.

End Frame.

Lemma handle_inbound_message_kept system_id s0 handlers item :
  msg_srcSystem item.2.1 <> system_id ->
  preserves (kept system_id s0) (handle_inbound_message handlers item).
Proof.
  destruct item as [connection_id [message address]]. simpl. intros Hne.
  unfold handle_inbound_message.
  destruct (negb _); [apply preserves_ret|].
  apply preserves_bind; [apply resolve_futures_blind, kept_blind|intros _].
  destruct (handlers !! msg_type message).
  - apply preserves_bind; [|intros; apply preserves_ret].
    apply preserves_try_except; [by apply call_handler_kept|].
    intros e. apply preserves_modify. intros ? ?. by apply kept_emit.
  - unfold _log_extra_from_message. preserving.
Qed.

Lemma perform_kept system_id s0 handlers a s :
  from_system system_id a = false ->
  kept system_id s0 s -> kept system_id s0 (perform handlers a s).2.
Proof.
  intros Ha Hs.
  assert ((exists item, a = act_inbound item) \/ (forall item, a <> act_inbound item))
    as [[item ->]|Hno] by (destruct a; [left; by eexists|by right..]).
  - simpl in *. apply Z.eqb_neq in Ha.
    pose proof (handle_inbound_message_kept system_id s0 handlers item Ha s Hs) as H.
    by destruct (handle_inbound_message handlers item s) as [[h'|e] s'].
  - by apply caller_step_frame; [apply kept_blind|apply kept_transmit| |].
Qed.

Lemma perform_all_kept system_id s0 acts : forall handlers s,
  forallb (fun a => negb (from_system system_id a)) acts = true ->
  kept system_id s0 s -> kept system_id s0 (perform_all handlers acts s).2.
Proof.
  induction acts as [|a acts IH]; intros handlers s Hacts Hs; simpl; [done|].
  simpl in Hacts. apply andb_prop in Hacts as [Ha Hacts].
  apply negb_true_iff in Ha.
  pose proof (perform_kept system_id s0 handlers a s Ha Hs) as H.
  destruct (perform handlers a s) as [h' s']. by apply IH.
Qed.

(** X5: whatever the tasks around the network do, as long as no message
    of the system [system_id] is dispatched, the network keeps what it
    recorded about that system: no UAV is created for it, and the UAV
    stored for it keeps its address and the calls made on it. *)
Theorem X5_record_changes_only_by_own_messages (s0 : State)
    (handlers : gmap string Handler) (acts : list Action) (system_id : Z) :
  uav_directory_ok s0 ->
  forallb (fun a => negb (from_system system_id a)) acts = true ->
  let s := (perform_all handlers acts s0).2 in
  _uavs (net s) !! system_id = _uavs (net s0) !! system_id /\
  forall uav, _uavs (net s0) !! system_id = Some uav ->
    _uav_addresses (net s) !! uav = _uav_addresses (net s0) !! uav /\
    uav_objs s !! uav = uav_objs s0 !! uav.
Proof.
  intros Hdir Hacts s.
  by destruct (perform_all_kept system_id s0 acts handlers s0 Hacts) as [_ H].
Qed.

(** X6: after a sighting of a system at an address, and until the next
    message of that system is dispatched, the UAV that the sighting
    returned has that address, a heartbeat sent to it goes to the default
    channel name and that address, and so does what [send_packet] hands
    to the communication manager. *)
Theorem X6_sends_go_to_the_last_sighting (s0 s1 : State) (message : MAVLinkMessage)
    (address : Address) (uav : nat) (handlers : gmap string Handler)
    (acts : list Action) :
  uav_directory_ok s0 ->
  _find_uav_from_message message address s0 = (Ok (Some uav), s1) ->
  forallb (fun a => negb (from_system (msg_srcSystem message) a)) acts = true ->
  let s := (perform_all handlers acts s1).2 in
  _uav_addresses (net s) !! uav = Some address /\
  (manager (net s) <> None ->
   send_heartbeat uav s
   = (Ok tt, transmit (mgr_send_packet "HEARTBEAT" HEARTBEAT_SPEC.2
                         (DEFAULT_NAME, address)) s)) /\
  (forall spec wait_for_response wait_for_one_of,
     sent_at_most_one spec.1 (DEFAULT_NAME, address) (sent s)
       (send_packet spec uav wait_for_response wait_for_one_of s)).
Proof.
  intros Hdir Hfind Hacts s.
  pose proof (find_uav_directory_ok message address s0 Hdir) as Hdir1.
  rewrite Hfind in Hdir1. simpl in Hdir1.
  destruct (find_uav_stores _ _ _ _ _ Hfind) as (_ & Hu & Ha).
  destruct (perform_all_kept (msg_srcSystem message) s1 acts handlers s1 Hacts)
    as [_ [_ Hrec]]; [by split|].
  destruct (Hrec uav Hu) as [Ha' _]. fold s in Ha'. rewrite Ha in Ha'.
  split; [done|]. split.
  - intros Hm. by apply send_heartbeat_address.
  - intros spec w1 w2. by apply send_packet_address.
Qed.

(** ** Sends that fail *)

Lemma list_index_last ds item l :
  Forall (fun x => entry_future x <> entry_future item) l ->
  list_index ds item (l ++ [item]) = Some (length l).
Proof.
  induction 1 as [|x l Hx _ IH]; simpl.
  - by rewrite entry_eqb_refl.
  - destruct (entry_eqb ds x item) eqn:Heq.
    + by apply entry_eqb_future in Heq.
    + by rewrite IH.
Qed.

Lemma unwinds_grow scopes : forall ls base,
  unwinds scopes ls base -> unwinds scopes (ls ++ [[]]) base.
Proof.
  induction scopes as [|sc scopes IH]; intros ls base; simpl.
  - intros [n ->]. exists (S n). by rewrite replicate_S_end, app_assoc.
  - intros (ls0 & l & H0 & Hl & -> & Hf).
    exists (ls0 ++ [[]]), l. split_and!; [by apply IH| |by rewrite insert_app_l
      by (by eapply lookup_lt_Some)|done].
    by apply lookup_app_l_Some.
Qed.

Lemma exit_all_unwinds scopes base : forall s,
  unwinds scopes (lists s) base ->
  exists n, for_each scopes (fun sc => expect_packet_exit sc.2) s
            = (Ok tt, set_lists (base ++ replicate n []) s).
Proof.
  induction scopes as [|sc scopes IH]; intros s; simpl.
  - intros [n Hn]. exists n. unfold ret. rewrite <- Hn. by destruct s.
  - intros (ls0 & l & H0 & Hl & Hls & Hf).
    unfold bind. rewrite expect_packet_exit_run.
    pose proof (lookup_lt_Some _ _ _ Hl) as Hlt.
    rewrite Hls, (list_lookup_total_correct _ _ (l ++ [scope_item sc.2]))
      by (by rewrite list_lookup_insert_eq).
    rewrite list_index_last by done.
    destruct (IH (set_lists ls0 s) H0) as [n Hn]. exists n.
    assert (alter (delete (length l)) (scope_matchers sc.2)
              (<[scope_matchers sc.2 := l ++ [scope_item sc.2]]> ls0) = ls0) as ->.
    { apply list_eq. intros i.
      destruct (decide (scope_matchers sc.2 = i)) as [<-|Hne].
      - rewrite list_lookup_alter_eq, list_lookup_insert_eq by done. simpl.
        rewrite Hl. f_equal. rewrite delete_middle. by rewrite app_nil_r.
      - by rewrite list_lookup_alter_ne, list_lookup_insert_ne. }
    by rewrite Hn.
Qed.

Lemma expect_packet_enter_unwinds type params system_id s sc s1 key scopes base :
  matchers_ok s -> unwinds scopes (lists s) base ->
  expect_packet_enter type params system_id s = (Ok sc, s1) ->
  unwinds ((key, sc) :: scopes) (lists s1) base.
Proof.
  intros (Hnd & Hb & Ht) Hu Hent.
  destruct (expect_packet_enter_type _ _ _ _ _ _ Hent) as [Hp [T HT]].
  rewrite (expect_packet_enter_unfold _ _ _ _ T HT Hp) in Hent. cbv zeta in Hent.
  assert (forall l, (exists r, lists s !! r = Some l) ->
            Forall (fun x => entry_future x
                             <> entry_future (item_of params system_id s)) l) as Hfresh.
  { intros l [r Hl]. rewrite list.Forall_forall in Hb |- *. intros x Hx. simpl.
    assert (x ∈ mjoin (lists s)) as Hin by (apply elem_of_join_lookup; by exists r, l).
    specialize (Hb x Hin). lia. }
  destruct (_matchers (net s)) as [t|] eqn:Hm; [|done].
  destruct (t !! T) as [r|] eqn:Hr; injection Hent as <- <-; simpl.
  - pose proof (Ht t T r eq_refl Hr) as Hlt.
    destruct (lookup_lt_is_Some_2 _ _ Hlt) as [l Hl].
    exists (lists s), l. split_and!; try done.
    + apply list_eq. intros i. rewrite list_lookup_alter, list_lookup_insert.
      destruct (decide (r = i)) as [<-|Hne].
      * by rewrite decide_True, Hl.
      * rewrite decide_False by (by intros [? _]). done.
    + apply Hfresh. by exists r.
  - exists (lists s ++ [[]]), []. split_and!.
    + by apply unwinds_grow.
    + by apply list_lookup_middle.
    + apply list_eq. intros i. rewrite list_lookup_alter, list_lookup_insert.
      rewrite length_app. simpl.
      destruct (decide (length (lists s) = i)) as [<-|Hne].
      * rewrite decide_True by (split; [done|lia]).
        by rewrite list_lookup_middle.
      * rewrite decide_False by (by intros [? _]). done.
    + constructor.
Qed.

Lemma enter_all_unwinds system_id base wanted : forall entered s,
  matchers_ok s -> unwinds (rev entered) (lists s) base ->
  match enter_all system_id wanted entered s with
  | (Ok scs, s') => matchers_ok s' /\ unwinds (rev scs) (lists s') base
  | (Raise _, s') => exists n, lists s' = base ++ replicate n []
  end.
Proof.
  induction wanted as [|[key [rt rf]] wanted IH]; intros entered s Hs Hu; simpl.
  - done.
  - unfold bind, unwinding.
    pose proof (expect_packet_enter_guarded None rt rf system_id s (conj Hs I)) as [H1 _].
    pose proof (expect_packet_enter_unwinds rt rf system_id s) as H2.
    pose proof (expect_packet_enter_raise rt rf system_id s) as H3.
    destruct (expect_packet_enter rt rf system_id s) as [[sc|e] s1]; simpl in H1.
    + apply IH; [done|]. rewrite rev_app_distr. simpl.
      exact (H2 sc s1 key (rev entered) base Hs Hu eq_refl).
    + unfold exit_all, bind, raise. rewrite <- (H3 e s1 eq_refl) in Hu.
      destruct (exit_all_unwinds _ _ _ Hu) as [n ->]. by exists n.
Qed.

Lemma failed_send_unwinds {A} spec destination (scopes : list (string * Scope))
    (k : M A) base s e s' :
  unwinds scopes (lists s) base ->
  (forall s0 a s1, k s0 = (a, s1) -> exists x, a = Ok x) ->
  (unwinding (manager_send_spec spec destination)
             (for_each scopes (fun sc => expect_packet_exit sc.2)) ;; k) s = (Raise e, s') ->
  exists n, lists s' = base ++ replicate n [].
Proof.
  intros Hu Hk. unfold bind, unwinding. rewrite manager_send_spec_run.
  destruct (manager (net s)).
  - intros H. destruct (Hk _ _ _ H) as [x Hx]. done.
  - unfold bind, raise. destruct (exit_all_unwinds _ _ _ Hu) as [n ->].
    intros [= _ <-]. by exists n.
Qed.

(** X8: when [send_packet] raises before it waits for a response, it has
    left every matcher scope that it entered: each matcher list holds the
    items that it held before the call, and all that may have been added
    is empty lists for new message types. *)
Theorem X8_failed_send_leaves_no_matcher (spec : string * nat) (target : nat)
    (wait_for_response : option (MsgType * Matcher))
    (wait_for_one_of : option (list (string * (MsgType * Matcher))))
    (s s' : State) (e : PyExc) :
  matchers_ok s ->
  send_packet spec target wait_for_response wait_for_one_of s = (Raise e, s') ->
  matchers_ok s' /\ exists n, lists s' = lists s ++ replicate n [].
Proof.
  intros Hs Hsend.
  pose proof (send_packet_guarded None spec target wait_for_response wait_for_one_of
                s (conj Hs I)) as [Hok _].
  rewrite Hsend in Hok. split; [exact Hok|]. clear Hok.
  rewrite send_packet_unfold in Hsend. cbv zeta in Hsend.
  assert (matchers_ok (addressing spec target s)) as H1 by exact Hs.
  assert (lists (addressing spec target s) = lists s) as Hl by done.
  destruct (_uav_addresses (net s) !! target) as [address|].
  2:{ injection Hsend as _ <-. exists O. by rewrite app_nil_r. }
  revert Hsend H1 Hl. generalize (addressing spec target s) (uav_objs s !!! target).
  intros s1 uav Hsend H1 Hl. rewrite <- Hl.
  assert (unwinds [] (lists s1) (lists s1)) as Hbase
    by (exists O; by rewrite app_nil_r).
  assert ((manager_send_spec spec (DEFAULT_NAME, address) ;; ret (Returned None)) s1
          = (Raise e, s') -> exists n, lists s' = lists s1 ++ replicate n []) as Hplain.
  { unfold bind. rewrite manager_send_spec_run. destruct (manager (net s1)); [done|].
    intros [= _ <-]. exists O. by rewrite app_nil_r. }
  destruct wait_for_response as [[rt rf]|].
  - unfold bind at 1 in Hsend.
    pose proof (expect_packet_enter_unwinds rt rf (uav_system_id uav) s1) as H2.
    pose proof (expect_packet_enter_raise rt rf (uav_system_id uav) s1) as H3.
    destruct (expect_packet_enter rt rf (uav_system_id uav) s1) as [[sc|e'] s2].
    + specialize (H2 sc s2 "" [] (lists s1) H1 Hbase eq_refl).
      eapply (failed_send_unwinds spec (DEFAULT_NAME, address) [("", sc)]
                (ret (AwaitingResponse sc))); [exact H2| |].
      * intros s0 a s3 [= <- _]. by eexists.
      * simpl. revert Hsend. unfold bind, unwinding.
        destruct (manager_send_spec _ _ s2) as [[[]|e'] s3]; [done|].
        unfold bind, raise, ret.
        by destruct (expect_packet_exit sc s3) as [[[]|e''] s4].
    + injection Hsend as _ <-. exists O. by rewrite app_nil_r, (H3 e' s2).
  - destruct wait_for_one_of as [[|w wanted]|]; [by apply Hplain| |by apply Hplain].
    revert Hsend. generalize (w :: wanted). clear w wanted. intros wanted Hsend.
    unfold bind at 1 in Hsend.
    pose proof (enter_all_unwinds (uav_system_id uav) (lists s1) wanted [] s1 H1 Hbase)
      as H2.
    destruct (enter_all (uav_system_id uav) wanted [] s1) as [[scs|e'] s2].
    + destruct H2 as [_ H2].
      eapply (failed_send_unwinds spec (DEFAULT_NAME, address) (rev scs)
                (ret (AwaitingOneOf scs))); [exact H2| |exact Hsend].
      intros s0 a s3 [= <- _]. by eexists.
    + injection Hsend as _ <-. exact H2.
Qed.

(** ** Resolving futures *)

Lemma resolve_loop_run message (l : list Entry) : forall s,
  for_each l (fun e =>
    let* ds := gets dicts in
    if entry_matches ds message e
    then future_call (entry_future e) (F_set_result message)
    else ret tt) s
  = (Ok tt,
     set_futures
       (fold_left (resolve_step (dicts s) message) l (futures s)) s).
Proof.
  induction l as [|e l IH]; intros s; simpl.
  - unfold ret. by destruct s.
  - unfold bind at 1. unfold bind at 1, gets at 1. unfold resolve_step at 2.
    destruct (entry_matches (dicts s) message e).
    + unfold future_call, modify. by rewrite IH.
    + unfold ret. by rewrite IH.
Qed.

Lemma resolve_fold_length message ds (l : list Entry) : forall fs,
  length (fold_left (resolve_step ds message) l fs) = length fs.
Proof.
  induction l as [|e l IH]; intros fs; simpl; [done|].
  rewrite IH. unfold resolve_step.
  destruct (entry_matches ds message e); [by rewrite length_alter|done].
Qed.

Lemma resolve_fold_other message ds (l : list Entry) (f : nat) : forall fs,
  (forall e, e ∈ l -> entry_future e <> f) ->
  fold_left (resolve_step ds message) l fs !! f = fs !! f.
Proof.
  induction l as [|e l IH]; intros fs Hf; simpl; [done|].
  rewrite IH by (intros e' He'; apply Hf; by right).
  unfold resolve_step. destruct (entry_matches ds message e); [|done].
  apply list_lookup_alter_ne, Hf. by left.
Qed.

Lemma resolve_fold_item message ds (l : list Entry) (e : Entry) : forall fs,
  NoDup (entry_future <$> l) -> e ∈ l ->
  fold_left (resolve_step ds message) l fs !! entry_future e
  = (fun calls => if entry_matches ds message e
                  then calls ++ [F_set_result message] else calls)
    <$> fs !! entry_future e.
Proof.
  induction l as [|x l IH]; intros fs Hnd He; [by apply elem_of_nil in He|].
  rewrite fmap_cons in Hnd. apply list.NoDup_cons in Hnd as [Hx Hnd]. simpl.
  apply elem_of_cons in He as [->|He].
  - rewrite resolve_fold_other.
    + unfold resolve_step. destruct (entry_matches ds message x).
      * by rewrite list_lookup_alter_eq.
      * by destruct (fs !! entry_future x).
    + intros e' He' Heq. apply Hx. rewrite <- Heq. by apply list_elem_of_fmap_2.
  - rewrite IH by done. unfold resolve_step.
    destruct (entry_matches ds message x); [|done].
    rewrite list_lookup_alter_ne; [done|].
    intros Heq. apply Hx. rewrite Heq. by apply list_elem_of_fmap_2.
Qed.

Lemma NoDup_join_lookup {A B} (f : A -> B) (ls : list (list A)) (r : nat) (l : list A) :
  NoDup (f <$> mjoin ls) -> ls !! r = Some l -> NoDup (f <$> l).
Proof.
  revert r. induction ls as [|l0 ls IH]; intros r Hnd Hr; [done|].
  simpl in Hnd. rewrite fmap_app in Hnd. apply list.NoDup_app in Hnd as (H0 & _ & H1).
  destruct r as [|r]; simplify_eq/=; [done|]. by eapply IH.
Qed.

(** X10: the loop that resolves the futures calls [set_result(message)]
    once on the future of every item of the list of the message type that
    matches the message, and makes no other call on any future.  For a
    message type without a list the loop makes no call at all: the lookup
    in the table adds an empty list for the type. *)
Theorem X10_matching_items_are_resolved (message : MAVLinkMessage) (s : State)
    (t : gmap string nat) :
  matchers_ok s ->
  _matchers (net s) = Some t ->
  (forall r l, t !! msg_type message = Some r -> lists s !! r = Some l ->
     exists fs,
       resolve_futures message s = (Ok tt, set_futures fs s) /\
       length fs = length (futures s) /\
       (forall e calls, e ∈ l -> futures s !! entry_future e = Some calls ->
          fs !! entry_future e
          = Some (if entry_matches (dicts s) message e
                  then calls ++ [F_set_result message] else calls)) /\
       (forall f, (forall e, e ∈ l -> entry_future e <> f) ->
          fs !! f = futures s !! f)) /\
  (t !! msg_type message = None ->
     resolve_futures message s
     = (Ok tt,
        upd_net (with_matchers (Some (<[msg_type message := length (lists s)]> t)))
          (set_lists (lists s ++ [[]]) s))).
Proof.
  intros (Hnd & Hb & Ht) Hm. split.
  - intros r l Hr Hl. eexists. split.
    + unfold resolve_futures, matchers_getitem. unfold bind at 1. unfold bind at 1, gets at 1.
      rewrite Hm, Hr. unfold ret at 1. unfold bind at 1, gets at 1.
      rewrite (list_lookup_total_correct _ _ _ Hl). apply resolve_loop_run.
    + split; [apply resolve_fold_length|]. split.
      * intros e calls He Hc. rewrite resolve_fold_item; [by rewrite Hc|by eapply NoDup_join_lookup|done].
      * intros f Hf. by apply resolve_fold_other.
  - intros Hr. unfold resolve_futures, matchers_getitem, new_list.
    unfold bind at 1. unfold bind at 1, gets at 1. rewrite Hm, Hr.
    unfold bind at 1. unfold bind at 1, gets at 1. unfold bind at 1, modify at 1.
    unfold ret at 1. unfold bind at 1, modify at 1. unfold ret at 1.
    unfold bind at 1, gets at 1. cbn [lists set_lists upd_net set_net].
    rewrite (list_lookup_total_correct _ _ []) by (by apply list_lookup_middle).
    reflexivity.
Qed.

(** ** Responses *)

Lemma filtered_entry_rejects ds message e system_id :
  entry_system_id e = Some system_id -> msg_srcSystem message <> system_id ->
  entry_matches ds message e = false.
Proof.
  intros He Hne. unfold entry_matches. rewrite He.
  by rewrite (proj2 (Z.eqb_neq _ _) Hne).
Qed.

Lemma transmit_present r e c s : present r e s -> present r e (transmit c s).
Proof. done. Qed.

Lemma awaited_send_run {A} spec destination (cleanup : M unit) (a : A) s s' :
  (unwinding (manager_send_spec spec destination) cleanup ;; ret a) s = (Ok a, s') ->
  s' = transmit (mgr_send_packet spec.1 (dicts s !!! spec.2) destination) s.
Proof.
  unfold bind, unwinding. rewrite manager_send_spec_run.
  destruct (manager (net s)); [by intros [= <-]|].
  unfold bind, raise. by destruct (cleanup s) as [[[]|e] s1].
Qed.

(** The scopes of a successful [enter_all]: one per key, in order, each
    with the given source-system filter and with its item in its list. *)
Lemma enter_all_scopes system_id wanted : forall entered s scs s',
  matchers_ok s ->
  Forall (fun sc => entry_system_id (scope_item sc.2) = system_id /\
                    present (scope_matchers sc.2) (scope_item sc.2) s) entered ->
  enter_all system_id wanted entered s = (Ok scs, s') ->
  scs.*1 = entered.*1 ++ wanted.*1 /\
  Forall (fun sc => entry_system_id (scope_item sc.2) = system_id /\
                    present (scope_matchers sc.2) (scope_item sc.2) s') scs.
Proof.
  induction wanted as [|[key [rt rf]] wanted IH]; intros entered s scs s' Hs He; simpl.
  - intros [= <- <-]. by rewrite app_nil_r.
  - unfold bind, unwinding.
    pose proof (expect_packet_enter_present rt rf system_id s) as H1.
    pose proof (expect_packet_enter_future rt rf system_id s) as H2.
    pose proof (fun g => expect_packet_enter_guarded g rt rf system_id s) as H3.
    destruct (expect_packet_enter rt rf system_id s) as [[sc|e] s1].
    2:{ unfold bind, raise. by destruct (exit_all entered s1) as [[[]|e'] s2]. }
    specialize (H1 sc s1 Hs eq_refl). destruct (H2 sc s1 eq_refl) as [_ Hitem].
    intros Hrest. apply IH in Hrest as [Hkeys Hall].
    + split; [|done]. rewrite Hkeys, fmap_app. simpl. by rewrite <- app_assoc.
    + apply H1.
    + apply Forall_app. split.
      * eapply list.Forall_impl; [exact He|]. intros x [Hx Hp]. split; [done|].
        by destruct (H3 (Some (scope_matchers x.2, scope_item x.2)) (conj Hs Hp)).
      * constructor; [|done]. simpl. split; [by rewrite Hitem|apply H1].
Qed.

(** X9: when [send_packet] goes on to wait for a response, the item of
    each scope that it entered is in its matcher list and carries the
    system ID of the target as its source-system filter, so that no
    message of another system matches it; with [wait_for_one_of] there is
    one scope per key, in the order of the keys. *)
Theorem X9_responses_come_from_the_target (spec : string * nat) (target : nat)
    (wait_for_response : option (MsgType * Matcher))
    (wait_for_one_of : option (list (string * (MsgType * Matcher))))
    (system_id : Z) (s s' : State) :
  matchers_ok s ->
  uav_system_id (uav_objs s !!! target) = Some system_id ->
  (forall sc,
     send_packet spec target wait_for_response wait_for_one_of s
     = (Ok (AwaitingResponse sc), s') ->
     present (scope_matchers sc) (scope_item sc) s' /\
     exists params,
       wait_for_response = Some params /\
       scope_item sc = {| entry_system_id := Some system_id;
                          entry_params := params.2;
                          entry_future := length (futures s) |} /\
       forall ds message, msg_srcSystem message <> system_id ->
         entry_matches ds message (scope_item sc) = false) /\
  (forall scs,
     send_packet spec target wait_for_response wait_for_one_of s
     = (Ok (AwaitingOneOf scs), s') ->
     exists wanted,
       wait_for_one_of = Some wanted /\ scs.*1 = wanted.*1 /\
       Forall (fun sc =>
         present (scope_matchers sc.2) (scope_item sc.2) s' /\
         forall ds message, msg_srcSystem message <> system_id ->
           entry_matches ds message (scope_item sc.2) = false) scs).
Proof.
  intros Hs Hsid. rewrite send_packet_unfold. cbv zeta. rewrite Hsid.
  assert (matchers_ok (addressing spec target s)) as H1 by exact Hs.
  assert (length (futures (addressing spec target s)) = length (futures s)) as Hlen by done.
  destruct (_uav_addresses (net s) !! target) as [address|]; [|by split].
  revert H1 Hlen. generalize (addressing spec target s). intros s1 H1 Hlen.
  destruct wait_for_response as [[rt rf]|].
  - split; [|intros scs; unfold bind at 1;
             destruct (expect_packet_enter _ _ _ s1) as [[sc|e] s2]; [|done];
             unfold bind, unwinding;
             destruct (manager_send_spec _ _ s2) as [[[]|e] s3]; [done|];
             unfold bind, raise; by destruct (expect_packet_exit sc s3) as [[[]|e'] s4]].
    intros sc. unfold bind at 1.
    pose proof (expect_packet_enter_present rt rf (Some system_id) s1) as Hp.
    pose proof (expect_packet_enter_future rt rf (Some system_id) s1) as Hf.
    destruct (expect_packet_enter rt rf (Some system_id) s1) as [[sc0|e] s2]; [|done].
    intros Hrun.
    assert (sc0 = sc) as ->.
    { revert Hrun. unfold bind, unwinding.
      destruct (manager_send_spec _ _ s2) as [[[]|e] s3]; [by intros [= ->]|].
      unfold bind, raise. by destruct (expect_packet_exit sc0 s3) as [[[]|e'] s4]. }
    apply awaited_send_run in Hrun. subst s'.
    destruct (Hp sc s2 H1 eq_refl) as [_ Hpres]. destruct (Hf sc s2 eq_refl) as [_ Hitem].
    split; [by apply transmit_present|].
    exists (rt, rf). split; [done|]. split; [by rewrite Hitem, <- Hlen|].
    intros ds message Hne. apply (filtered_entry_rejects _ _ _ system_id); [|done].
    by rewrite Hitem.
  - destruct wait_for_one_of as [[|w wanted]|];
      try (split; intros sc; unfold bind;
           by destruct (manager_send_spec _ _ s1) as [[[]|e] s2]).
    generalize (w :: wanted). clear w wanted. intros wanted.
    pose proof (enter_all_scopes (Some system_id) wanted [] s1) as Hscs.
    unfold bind at 1. unfold bind at 2.
    destruct (enter_all (Some system_id) wanted [] s1) as [[scs0|e] s2]; [|by split].
    destruct (Hscs scs0 s2 H1 (Forall_nil_2 _) eq_refl) as [Hkeys Hall].
    split.
    + intros sc. unfold bind, unwinding.
      destruct (manager_send_spec _ _ s2) as [[[]|e] s3]; [done|].
      unfold bind, raise. by destruct (exit_all scs0 s3) as [[[]|e'] s4].
    + intros scs Hrun.
      assert (scs0 = scs) as ->.
      { revert Hrun. unfold bind, unwinding.
        destruct (manager_send_spec _ _ s2) as [[[]|e] s3]; [by intros [= ->]|].
        unfold bind, raise. by destruct (exit_all scs0 s3) as [[[]|e'] s4]. }
      apply awaited_send_run in Hrun. subst s'.
      exists wanted. split; [done|]. split; [done|].
      eapply list.Forall_impl; [exact Hall|]. intros sc [Hid Hp].
      split; [by apply transmit_present|].
      intros ds message Hne. by apply (filtered_entry_rejects _ _ _ system_id).
Qed.

(** ** A network that is not running *)

Lemma resolve_futures_unbound message s :
  _matchers (net s) = None ->
  resolve_futures message s
  = (Raise (TypeError "'NoneType' object is not subscriptable"), s).
Proof.
  intros Hm. unfold resolve_futures, matchers_getitem.
  unfold bind at 1. unfold bind at 1, gets at 1. by rewrite Hm.
Qed.

(** X7: on a network whose matcher table is not bound, as it is before
    [run], [expect_packet] raises a [TypeError] (a dictionary of expected
    values has been decoded and a future created by then), the dispatch
    loop raises it at the first message of an autopilot, and the table is
    unbound again once a [run] has ended. *)
Theorem X7_nothing_is_expected_outside_run (type : MsgType) (T : string)
    (params : Matcher) (system_id : option Z) (item : Inbound) (rest : list Inbound)
    (acts : list Action) (outcome : Result unit) (s : State) :
  _matchers (net s) = None ->
  let unbound := TypeError "'NoneType' object is not subscriptable" in
  (type_to_str type s = (Ok T, s) -> params <> MNone ->
   expect_packet_enter type params system_id s = (Raise unbound, entered params s)) /\
  (dispatched item = true ->
   _handle_inbound_messages (item :: rest) s = (Raise unbound, s)) /\
  _matchers (net (run (activity_of acts outcome) s).2) = None.
Proof.
  intros Hm unbound. split_and!.
  - intros HT Hp. rewrite (expect_packet_enter_unfold _ _ _ _ T HT Hp). cbv zeta.
    by rewrite Hm.
  - intros Hd. destruct item as [connection_id [message address]].
    unfold _handle_inbound_messages. unfold bind at 1. cbn [inbound_loop].
    unfold bind at 1. unfold dispatched in Hd. simpl in Hd. apply Z.eqb_eq in Hd.
    rewrite handle_inbound_message_run by done.
    by rewrite resolve_futures_unbound.
  - rewrite run_unfold. unfold activity_of.
    destruct (cancel_all_matchers _) as [r s3]. simpl. exact Hm.
Qed.

(** ** Names of the registered connections *)

Lemma to_int_not_nil (z : Z) :
  Z.to_int z <> Decimal.Pos Decimal.Nil /\ Z.to_int z <> Decimal.Neg Decimal.Nil.
Proof.
  pose proof (DecimalZ.to_of (Z.to_int z)) as H. rewrite DecimalZ.of_to in H.
  split; intros Heq; rewrite Heq in H; discriminate H.
Qed.

Lemma str_of_int_inj (a b : Z) : str_of_int a = str_of_int b -> a = b.
Proof.
  unfold str_of_int. intros H. apply DecimalZ.to_int_inj.
  destruct (to_int_not_nil a) as [Ha1 Ha2]. destruct (to_int_not_nil b) as [Hb1 Hb2].
  pose proof (NilZero.isi _ Ha1 Ha2) as Ha. pose proof (NilZero.isi _ Hb1 Hb2) as Hb.
  rewrite H, Hb in Ha. by injection Ha.
Qed.

Lemma str_of_int_nonempty (z : Z) : str_of_int z <> "".
Proof.
  unfold str_of_int. intros H.
  destruct (to_int_not_nil z) as [H1 H2].
  pose proof (NilZero.isi _ H1 H2) as Hi. rewrite H in Hi. discriminate Hi.
Qed.

Lemma format_id_index_inj (self : Network) (i j : nat) :
  (1 < length (_connections self))%nat ->
  format_id_index (run_id_format self) (_id self) i
  = format_id_index (run_id_format self) (_id self) j -> i = j.
Proof.
  intros Hlen. unfold run_id_format.
  rewrite (proj2 (Nat.ltb_lt _ _) Hlen). unfold format_id_index.
  destruct (bool_decide (_id self = "")).
  - rewrite bool_decide_eq_false_2 by done. rewrite bool_decide_eq_true_2 by done.
    intros H%str_of_int_inj. lia.
  - rewrite bool_decide_eq_true_2 by done.
    intros H%append_inj_r%append_inj_r%str_of_int_inj. lia.
Qed.

Lemma format_id_index_nonempty (self : Network) (i : nat) :
  (1 < length (_connections self))%nat ->
  format_id_index (run_id_format self) (_id self) i <> "".
Proof.
  intros Hlen. unfold run_id_format.
  rewrite (proj2 (Nat.ltb_lt _ _) Hlen). unfold format_id_index.
  destruct (bool_decide (_id self = "")).
  - rewrite bool_decide_eq_false_2 by done. rewrite bool_decide_eq_true_2 by done.
    apply str_of_int_nonempty.
  - rewrite bool_decide_eq_true_2 by done. by destruct (_id self).
Qed.

(** X11: while a run is active, the connections of the network are
    registered in the application, one registration per connection and in
    their order, under names that are pairwise distinct; a network with a
    single connection registers it as ["MAVLink: "] followed by the network
    ID, or as ["MAVLink"] when the ID is empty. *)
Theorem X11_connections_are_registered_under_distinct_names (s : State) :
  let self := net s in
  let uses := imap (connection_use (run_id_format self) (_id self)) (_connections self) in
  used_connections (started s) = used_connections s ++ uses /\
  use_conn <$> uses = _connections self /\
  NoDup (use_name <$> uses) /\
  (forall c, _connections self = [c] ->
     use_name <$> uses = [if bool_decide (_id self = "") then "MAVLink"
                          else "MAVLink: " +:+ _id self]).
Proof.
  intros self uses. split_and!.
  - unfold started. fold self. by destruct (PrimFloat.ltb 0 (_packet_loss self)).
  - subst uses. apply list_eq. intros i.
    rewrite list_lookup_fmap, list_lookup_imap.
    by destruct (_connections self !! i).
  - apply NoDup_alt. intros i j name. subst uses.
    rewrite !list_lookup_fmap, !list_lookup_imap.
    destruct (_connections self !! i) as [ci|] eqn:Hi; [|done].
    destruct (_connections self !! j) as [cj|] eqn:Hj; [|done]. simpl.
    intros [= <-]. unfold connection_use. cbn [use_name].
    apply lookup_lt_Some in Hi, Hj.
    destruct (decide (1 < length (_connections self))%nat) as [Hlen|Hlen]; [|lia].
    rewrite !bool_decide_eq_false_2 by (by apply format_id_index_nonempty).
    intros [= H%append_inj_r]. by apply format_id_index_inj in H.
  - intros c Hc. subst uses. rewrite Hc. simpl. unfold run_id_format. rewrite Hc.
    simpl. unfold format_id_index. simpl. done.
Qed.

End Properties.

(** ** The RTK fan-out *)

Section FanoutProperties.
Context {P : Type} (encoder : sidekick.Command -> P).
Import sidekick.

Lemma send_nowait_deliver (c : Channel P) (data : P) :
  send_nowait c data = if is_full c then None else Some (deliver data c).
Proof.
  unfold send_nowait, deliver, is_full.
  destruct (Nat.ltb_spec (length (buffer c)) (max_buffer_size c)) as [Hlt|Hge].
  - by rewrite (proj2 (Nat.leb_gt _ _) Hlt).
  - by rewrite (proj2 (Nat.leb_le _ _) Hge).
Qed.

Lemma send_to_all_spec (cs : list (Channel P)) (data : P) (n : nat) :
  send_to_all cs data n
  = (map (deliver data) cs, (n + length (filter (fun c => is_full c = true) cs))%nat).
Proof.
  revert n. induction cs as [|c cs IH]; intros n; simpl.
  - by rewrite Nat.add_0_r.
  - rewrite send_nowait_deliver, filter_cons.
    case_decide as Hc.
    + rewrite Hc, IH. simpl. unfold deliver at 2. rewrite Hc.
      by rewrite <- Nat.add_assoc.
    + apply not_true_is_false in Hc. by rewrite Hc, IH.
Qed.



End FanoutProperties.

(** ** Connections of the Sidekick extension *)

Section ConnectionProperties.
Context {P : Type} (encoder : sidekick.Command -> P).
Import sidekick sidekick_connections.

Lemma filter_all {A} (Q : A -> Prop) `{!forall x, Decision (Q x)} (l : list A) :
  Forall Q l -> filter Q l = l.
Proof.
  induction 1 as [|x l Hx _ IH]; [done|]. by rewrite filter_cons_True, IH.
Qed.

Lemma delete_as_filter (cs : list (Channel P)) (i : nat) (c : Channel P) :
  NoDup (chan_id <$> cs) -> cs !! i = Some c ->
  delete i cs = filter (fun x => chan_id x <> chan_id c) cs.
Proof.
  revert i. induction cs as [|c0 cs IH]; intros i Hnd Hi; [done|].
  rewrite fmap_cons in Hnd. apply list.NoDup_cons in Hnd as [H0 Hnd].
  destruct i as [|i]; simpl in Hi.
  - injection Hi as ->. rewrite filter_cons_False by (by intros ?). simpl.
    symmetry. apply filter_all. apply list.Forall_forall. intros x Hx Heq.
    apply H0. rewrite <- Heq. by apply list_elem_of_fmap_2.
  - rewrite filter_cons_True.
    + simpl. f_equal. by apply IH.
    + intros Heq. apply H0. rewrite Heq. apply list_elem_of_fmap_2.
      by eapply list_elem_of_lookup_2.
Qed.

Lemma handle_connection_close_channels (id : nat) (s : State P) :
  NoDup (chan_id <$> channels s) ->
  channels (handle_connection_close id s)
  = filter (fun c => chan_id c <> id) (channels s).
Proof.
  intros Hnd. unfold handle_connection_close.
  destruct (list_find _ _) as [[i c]|] eqn:Hf; simpl.
  - apply list_find_Some in Hf as (Hi & Hid & _). subst id.
    by apply delete_as_filter.
  - apply list_find_None in Hf. symmetry. by apply filter_all.
Qed.

Lemma handle_connection_open_ok (s : State P) :
  channels_ok s -> channels_ok (handle_connection_open s).2.
Proof.
  intros [Hnd Hall]. unfold channels_ok. simpl. split.
  - rewrite fmap_app. apply list.NoDup_app. split_and!; [done| |apply NoDup_singleton].
    intros id (c & -> & Hc)%list_elem_of_fmap Hin. simpl in Hin.
    apply list_elem_of_singleton in Hin. rewrite list.Forall_forall in Hall.
    destruct (Hall c Hc) as [Hlt _]. lia.
  - apply Forall_app. split.
    + eapply list.Forall_impl; [exact Hall|]. intros c (? & ? & ?). split_and!; [lia|done..].
    + constructor; [|done]. simpl. split_and!; lia.
Qed.

Lemma handle_connection_receive_ok (id : nat) (s : State P) :
  channels_ok s -> channels_ok (handle_connection_receive id s).2.
Proof.
  intros [Hnd Hall]. unfold handle_connection_receive.
  destruct (list_find _ _) as [[i c]|] eqn:Hf; [|done].
  apply list_find_Some in Hf as (Hi & Hid & _).
  destruct (buffer c) as [|data rest] eqn:Hb; [done|].
  unfold channels_ok. simpl. split.
  - rewrite list_fmap_insert. simpl. rewrite list_insert_id; [done|].
    by rewrite list_lookup_fmap, Hi, <- Hid.
  - apply Forall_insert; [done|]. simpl.
    rewrite list.Forall_forall in Hall.
    destruct (Hall c) as (H1 & H2 & H3); [by eapply list_elem_of_lookup_2|].
    rewrite Hb in H3. simpl in H3. split_and!; [lia|done|lia].
Qed.

Lemma handle_connection_close_ok (id : nat) (s : State P) :
  channels_ok s -> channels_ok (handle_connection_close id s).
Proof.
  intros [Hnd Hall]. unfold channels_ok.
  rewrite handle_connection_close_channels by done.
  assert (next_channel (handle_connection_close id s) = next_channel s) as ->.
  { unfold handle_connection_close. by destruct (list_find _ _) as [[i c]|]. }
  split.
  - apply NoDup_fmap_2_strong; [|by apply list.NoDup_filter, (NoDup_fmap_1 chan_id)].
    intros x y [_ Hx]%list_elem_of_filter [_ Hy]%list_elem_of_filter Heq.
    apply list_elem_of_lookup in Hx as [i Hi]. apply list_elem_of_lookup in Hy as [j Hj].
    assert (i = j) as ->; [|congruence].
    eapply NoDup_lookup; [exact Hnd| |]; rewrite list_lookup_fmap.
    + by rewrite Hi.
    + by rewrite Hj, Heq.
  - apply list.Forall_forall. intros x [_ Hx]%list_elem_of_filter.
    rewrite list.Forall_forall in Hall. by apply Hall.
Qed.

Lemma fanout_ok (sender : string) (messages : list (string * gmap string Value))
    (s : State P) :
  channels_ok s ->
  channels_ok (handle_mavlink_rtk_packet_fragments encoder sender messages s).2.
Proof.
  intros Hs. pose proof Hs as [Hnd Hall]. unfold handle_mavlink_rtk_packet_fragments.
  destruct (channels s) as [|c cs] eqn:Hcs; [exact Hs|].
  destruct (encode_messages messages) as [encoded|e]; [|exact Hs].
  rewrite send_to_all_spec. unfold channels_ok. cbn [snd channels next_channel].
  split.
  - rewrite <- list_fmap_compose.
    rewrite (list_fmap_ext _ chan_id (c :: cs)); [done|].
    intros i x _. unfold deliver. simpl. by destruct (is_full x).
  - apply Forall_fmap. eapply list.Forall_impl; [exact Hall|].
    intros x (H1 & H2 & H3). unfold deliver, is_full. simpl.
    destruct (Nat.leb_spec (max_buffer_size x) (length (buffer x))); [done|].
    simpl. rewrite length_app. simpl. split_and!; [done..|lia].
Qed.

Lemma step_ok (ev : Event) (s : State P) : channels_ok s -> channels_ok (step encoder ev s).
Proof.
  destruct ev; simpl.
  - apply handle_connection_open_ok.
  - apply handle_connection_receive_ok.
  - apply handle_connection_close_ok.
  - apply fanout_ok.
Qed.

Lemma steps_ok (events : list Event) : forall s : State P,
  channels_ok s -> channels_ok (steps encoder events s).
Proof.
  induction events as [|ev events IH]; intros s Hs; [done|].
  apply IH. by apply step_ok.
Qed.

(** X12: from a server without subscribers, whatever clients connect
    and disconnect, whatever is forwarded and whatever batches are fanned
    out, every subscriber channel has a capacity of 16 payloads and never
    holds more, and no two subscribers share a channel. *)
Theorem X12_subscriber_channels_stay_bounded (events : list Event) (s : State P) :
  channels s = [] ->
  let s' := steps encoder events s in
  NoDup (chan_id <$> channels s') /\
  Forall (fun c => max_buffer_size c = 16%nat /\ (length (buffer c) <= 16)%nat)
         (channels s').
Proof.
  intros Hs s'.
  assert (channels_ok s) as Hok.
  { unfold channels_ok. rewrite Hs. split; [apply NoDup_nil_2|constructor]. }
  destruct (steps_ok events s Hok) as [Hnd Hall]. split; [done|].
  eapply list.Forall_impl; [exact Hall|]. by intros c (_ & ? & ?).
Qed.

(** The [finally] clause of [handle_connection]. *)
Lemma handle_connection_teardown (events : list Event) (ending : Ending) (s : State P) :
  channels_ok s ->
  let tx_channel := next_channel s in
  let at_end := steps encoder events (handle_connection_open s).2 in
  let out := handle_connection (fun _ s1 => (ending, steps encoder events s1)) s in
  out.1 = ending /\
  channels out.2 = filter (fun c => chan_id c <> tx_channel) (channels at_end) /\
  (tx_channel ∉ chan_id <$> channels out.2) /\
  log out.2 = log at_end.
Proof.
  intros Hs tx_channel at_end out. subst out. unfold handle_connection.
  cbn [handle_connection_open fst snd].
  pose proof (steps_ok events _ (handle_connection_open_ok s Hs)) as [Hnd Hall].
  fold at_end in Hnd, Hall |- *. split; [done|].
  rewrite handle_connection_close_channels by done. split_and!; [done| |].
  - intros (c & Hid & [Hne _]%list_elem_of_filter)%list_elem_of_fmap. by apply Hne.
  - unfold handle_connection_close. by destruct (list_find _ _) as [[i c]|].
Qed.


End ConnectionProperties.
(** ** The Base64 text of a payload *)

Section EncodingProperties.
Import sidekick.

Lemma below_64 (Q : N -> bool) :
  forallb Q (map N.of_nat (seq 0 64)) = true -> forall n, (n < 64)%N -> Q n = true.
Proof.
  intros H n Hn. rewrite forallb_forall in H. apply H.
  apply in_map_iff. exists (N.to_nat n). split; [lia|]. apply in_seq. lia.
Qed.

Lemma b64_char_inj (n m : N) :
  (n < 64)%N -> (m < 64)%N -> b64_char n = b64_char m -> n = m.
Proof.
  intros Hn Hm Heq.
  pose proof (below_64 (fun n => forallb (fun m =>
                implb (Ascii.eqb (b64_char n) (b64_char m)) (n =? m)%N)
                (map N.of_nat (seq 0 64))) ltac:(vm_compute; reflexivity) n Hn) as H.
  cbv beta in H.
  pose proof (below_64 _ H m Hm) as H'. cbv beta in H'.
  rewrite Heq, Ascii.eqb_refl in H'. by apply N.eqb_eq.
Qed.

Lemma b64_char_not_pad (n : N) : (n < 64)%N -> b64_char n <> "="%char.
Proof.
  intros Hn Heq.
  pose proof (below_64 (fun n => negb (Ascii.eqb (b64_char n) "="))
                ltac:(vm_compute; reflexivity) n Hn) as H.
  cbv beta in H. by rewrite Heq, Ascii.eqb_refl in H.
Qed.

Lemma list_ind3 {A} (Q : list A -> Prop) :
  Q [] -> (forall x, Q [x]) -> (forall x y, Q [x; y]) ->
  (forall x y z l, Q l -> Q (x :: y :: z :: l)) -> forall l, Q l.
Proof.
  intros H0 H1 H2 H3.
  assert (forall n l, (length l <= n)%nat -> Q l) as H.
  { induction n as [|n IH]; intros l Hl.
    - destruct l; [done|simpl in Hl; lia].
    - destruct l as [|x [|y [|z l]]]; try done. apply H3, IH. simpl in Hl. lia. }
  intros l. by apply (H (length l)).
Qed.

Ltac divmod a k :=
  let q := fresh "q" in
  let r := fresh "r" in
  pose proof (N.div_mod' a k); pose proof (N.mod_lt a k ltac:(lia));
  set (q := (a / k)%N) in *; set (r := (a mod k)%N) in *; clearbody q r.

Lemma to_N_inj (x y : byte) : Byte.to_N x = Byte.to_N y -> x = y.
Proof.
  intros H. apply (f_equal Byte.of_N) in H. rewrite !Byte.of_to_N in H. by injection H.
Qed.

Lemma sextets_1 (a a' : N) :
  (a < 256 -> a' < 256 -> a / 4 = a' / 4 -> a mod 4 * 16 = a' mod 4 * 16 -> a = a')%N.
Proof. intros. divmod a 4%N. divmod a' 4%N. lia. Qed.

Lemma sextets_2 (a b a' b' : N) :
  (a < 256 -> b < 256 -> a' < 256 -> b' < 256 ->
   a / 4 = a' / 4 -> a mod 4 * 16 + b / 16 = a' mod 4 * 16 + b' / 16 ->
   b mod 16 * 4 = b' mod 16 * 4 -> a = a' /\ b = b')%N.
Proof.
  intros. divmod a 4%N. divmod a' 4%N. divmod b 16%N. divmod b' 16%N. lia.
Qed.

Lemma sextets_3 (a b c a' b' c' : N) :
  (a < 256 -> b < 256 -> c < 256 -> a' < 256 -> b' < 256 -> c' < 256 ->
   a / 4 = a' / 4 -> a mod 4 * 16 + b / 16 = a' mod 4 * 16 + b' / 16 ->
   b mod 16 * 4 + c / 64 = b' mod 16 * 4 + c' / 64 -> c mod 64 = c' mod 64 ->
   a = a' /\ b = b' /\ c = c')%N.
Proof.
  intros. divmod a 4%N. divmod a' 4%N. divmod b 16%N. divmod b' 16%N.
  divmod c 64%N. divmod c' 64%N. lia.
Qed.

Lemma sextet_bounds (a b c : N) :
  (a < 256 -> b < 256 -> c < 256 ->
   a / 4 < 64 /\ a mod 4 * 16 < 64 /\ a mod 4 * 16 + b / 16 < 64 /\
   b mod 16 * 4 < 64 /\ b mod 16 * 4 + c / 64 < 64 /\ c mod 64 < 64)%N.
Proof. intros. divmod a 4%N. divmod b 16%N. divmod c 64%N. lia. Qed.

Lemma byte_lt (x : byte) : (Byte.to_N x < 256)%N.
Proof. pose proof (Byte.to_N_bounded x). lia. Qed.

Lemma b64encode_inj (a : list byte) : forall b, b64encode a = b64encode b -> a = b.
Proof.
  induction a as [|x|x y|x y z a IH] using list_ind3;
    intros [|x' [|y' [|z' b]]]; cbn [b64encode]; intros Heq;
    try discriminate Heq; try done;
    try (pose proof (byte_lt x) as Hx); try (pose proof (byte_lt x') as Hx');
    try (pose proof (byte_lt y) as Hy); try (pose proof (byte_lt y') as Hy');
    try (pose proof (byte_lt z) as Hz); try (pose proof (byte_lt z') as Hz').
  - (* one byte, one byte *)
    injection Heq as H1 H2.
    destruct (sextet_bounds (Byte.to_N x) 0 0) as (? & ? & _); [done..|].
    destruct (sextet_bounds (Byte.to_N x') 0 0) as (? & ? & _); [done..|].
    apply b64_char_inj in H1, H2; try done.
    f_equal. apply to_N_inj. by apply sextets_1.
  - (* one byte, two bytes *)
    injection Heq as _ _ H3.
    destruct (sextet_bounds 0 (Byte.to_N y') 0) as (_ & _ & _ & ? & _); [done..|].
    symmetry in H3. by apply b64_char_not_pad in H3.
  - injection Heq as _ _ H3.
    destruct (sextet_bounds 0 (Byte.to_N y') (Byte.to_N z')) as (_ & _ & _ & _ & ? & _);
      [done..|].
    symmetry in H3. by apply b64_char_not_pad in H3.
  - (* two bytes, one byte *)
    injection Heq as _ _ H3.
    destruct (sextet_bounds 0 (Byte.to_N y) 0) as (_ & _ & _ & ? & _); [done..|].
    by apply b64_char_not_pad in H3.
  - (* two bytes, two bytes *)
    injection Heq as H1 H2 H3.
    destruct (sextet_bounds (Byte.to_N x) (Byte.to_N y) 0) as (? & _ & ? & ? & _); [done..|].
    destruct (sextet_bounds (Byte.to_N x') (Byte.to_N y') 0) as (? & _ & ? & ? & _);
      [done..|].
    apply b64_char_inj in H1, H2, H3; try done.
    destruct (sextets_2 (Byte.to_N x) (Byte.to_N y) (Byte.to_N x') (Byte.to_N y'))
      as [Ha Hb]; try done.
    apply to_N_inj in Ha, Hb. by subst.
  - injection Heq as _ _ _ H4.
    destruct (sextet_bounds 0 0 (Byte.to_N z')) as (_ & _ & _ & _ & _ & ?); [done..|].
    symmetry in H4. by apply b64_char_not_pad in H4.
  - (* three bytes and more *)
    injection Heq as _ _ H3.
    destruct (sextet_bounds 0 (Byte.to_N y) (Byte.to_N z)) as (_ & _ & _ & _ & ? & _);
      [done..|].
    by apply b64_char_not_pad in H3.
  - injection Heq as _ _ _ H4.
    destruct (sextet_bounds 0 0 (Byte.to_N z)) as (_ & _ & _ & _ & _ & ?); [done..|].
    by apply b64_char_not_pad in H4.
  - injection Heq as H1 H2 H3 H4 H5.
    destruct (sextet_bounds (Byte.to_N x) (Byte.to_N y) (Byte.to_N z))
      as (? & _ & ? & _ & ? & ?); [done..|].
    destruct (sextet_bounds (Byte.to_N x') (Byte.to_N y') (Byte.to_N z'))
      as (? & _ & ? & _ & ? & ?); [done..|].
    apply b64_char_inj in H1, H2, H3, H4; try done.
    destruct (sextets_3 (Byte.to_N x) (Byte.to_N y) (Byte.to_N z)
                (Byte.to_N x') (Byte.to_N y') (Byte.to_N z')) as (Ha & Hb & Hc); try done.
    apply to_N_inj in Ha, Hb, Hc. subst. f_equal. f_equal. f_equal. by apply IH.
Qed.

End EncodingProperties.
Section BatchProperties.
Context {P : Type} (encoder : sidekick.Command -> P).
Import sidekick sidekick_connections.

Lemma encode_message_inj (m1 m2 e : string * gmap string Value) :
  encode_message m1 = Ok e -> encode_message m2 = Ok e -> m1 = m2.
Proof.
  destruct m1 as [t1 f1], m2 as [t2 f2]. unfold encode_message.
  destruct (f1 !! "data") as [[| | |b1]|] eqn:H1; try done;
    destruct (f2 !! "data") as [[| | |b2]|] eqn:H2; try done;
    intros [= <-] [= -> Hf].
  - f_equal. pose proof (f_equal (fun f => f !! "data") Hf) as Hd. simpl in Hd.
    rewrite !lookup_insert_eq in Hd. injection Hd as Hd. apply b64encode_inj in Hd.
    subst b2. apply map_eq. intros k. destruct (decide (k = "data")) as [->|Hk].
    + by rewrite H1, H2.
    + pose proof (f_equal (fun f => f !! k) Hf) as Hk'. simpl in Hk'.
      by rewrite !lookup_insert_ne in Hk'.
  - pose proof (f_equal (fun f => f !! "data") Hf) as Hd. simpl in Hd.
    by rewrite lookup_insert_eq, H2 in Hd.
  - pose proof (f_equal (fun f => f !! "data") Hf) as Hd. simpl in Hd.
    by rewrite lookup_insert_eq, H1 in Hd.
  - by subst.
Qed.

Lemma encode_message_fields (m e : string * gmap string Value) :
  encode_message m = Ok e ->
  e.1 = m.1 /\
  (forall name, name <> "data" -> e.2 !! name = m.2 !! name) /\
  e.2 !! "data" = match m.2 !! "data" with
                  | Some (VBytes b) => Some (VStr (b64encode b))
                  | _ => None
                  end.
Proof.
  destruct m as [t f]. unfold encode_message.
  destruct (f !! "data") as [[| | |b]|] eqn:Hd; try done; intros [= <-]; simpl;
    rewrite Hd.
  - split; [done|]. split; [|by rewrite lookup_insert_eq].
    intros name Hn. by rewrite lookup_insert_ne.
  - done.
Qed.

(** X16: the encoding of a batch for the wire loses nothing.  An encoded
    batch has the messages of the batch in their order, each with its type
    and with its fields other than [data] as they were, and with the Base64
    text of its [data] bytes; and two batches with the same encoding are
    the same batch. *)
Theorem X16_encoded_batches_determine_the_batch
    (messages : list (string * gmap string Value))
    (encoded : list (string * gmap string Value)) :
  encode_messages messages = Ok encoded ->
  Forall2 (fun m e =>
    e.1 = m.1 /\
    (forall name, name <> "data" -> e.2 !! name = m.2 !! name) /\
    e.2 !! "data" = match m.2 !! "data" with
                    | Some (VBytes b) => Some (VStr (b64encode b))
                    | _ => None
                    end) messages encoded /\
  forall others, encode_messages others = Ok encoded -> others = messages.
Proof.
  revert encoded. induction messages as [|m ms IH]; intros encoded; cbn [encode_messages].
  - intros [= <-]. split; [constructor|].
    intros [|m' ms']; [done|]. cbn [encode_messages].
    destruct (encode_message m'); [|done]. by destruct (encode_messages ms').
  - destruct (encode_message m) as [e|] eqn:Hm; [|done].
    destruct (encode_messages ms) as [es|] eqn:Hms; [|done].
    intros [= <-]. destruct (IH es eq_refl) as [Hall Hinj]. split.
    + constructor; [by apply encode_message_fields|done].
    + intros [|m' ms']; [done|]. cbn [encode_messages].
      destruct (encode_message m') as [e'|] eqn:Hm'; [|done].
      destruct (encode_messages ms') as [es'|] eqn:Hms'; [|done].
      intros [= -> ->]. f_equal.
      * by apply (encode_message_inj m' m e).
      * by apply Hinj.
Qed.

Lemma encode_messages_malformed (messages : list (string * gmap string Value)) :
  rtk_fragments messages = false ->
  encode_messages messages = Raise (TypeError "a bytes-like object is required").
Proof.
  induction messages as [|[type fields] ms IH]; [done|].
  cbn [rtk_fragments forallb encode_messages]. unfold encode_message. simpl.
  destruct (fields !! "data") as [[| | |b]|]; try done; simpl; intros Hms.
  - by rewrite IH.
  - by rewrite IH.
Qed.

(** X15: a batch in which a [data] field holds anything but bytes.
    Without subscribers the handler returns before it looks at the batch;
    with a subscriber it raises the [TypeError] of [b64encode] before it
    sends anything: no channel receives a payload and nothing is logged. *)
Theorem X15_a_malformed_batch_reaches_nobody (sender : string)
    (messages : list (string * gmap string Value)) (s : State P) :
  rtk_fragments messages = false ->
  handle_mavlink_rtk_packet_fragments encoder sender messages s
  = (match channels s with
     | [] => Ok tt
     | _ => Raise (TypeError "a bytes-like object is required")
     end, s).
Proof.
  intros Hm. unfold handle_mavlink_rtk_packet_fragments.
  rewrite (encode_messages_malformed _ Hm). by destruct (channels s).
Qed.

Lemma step_log (ev : Event) (s : State P) :
  exists more, log (step encoder ev s) = log s ++ more.
Proof.
  destruct ev; simpl.
  - exists []. by rewrite app_nil_r.
  - exists []. rewrite app_nil_r. unfold handle_connection_receive.
    destruct (list_find _ _) as [[i c]|]; [|done]. by destruct (buffer c).
  - exists []. rewrite app_nil_r. unfold handle_connection_close.
    by destruct (list_find _ _) as [[i c]|].
  - unfold handle_mavlink_rtk_packet_fragments.
    destruct (channels s); [exists []; by rewrite app_nil_r|].
    destruct (encode_messages messages); [|exists []; by rewrite app_nil_r].
    destruct (send_to_all _ _ _) as [cs n]. simpl.
    destruct (0 <? n)%nat; [by eexists|exists []; by rewrite app_nil_r].
Qed.

Lemma steps_log (events : list Event) : forall s : State P,
  exists more, log (steps encoder events s) = log s ++ more.
Proof.
  induction events as [|ev events IH]; intros s; simpl.
  - exists []. by rewrite app_nil_r.
  - destruct (step_log ev s) as [m1 H1]. destruct (IH (step encoder ev s)) as [m2 H2].
    exists (m1 ++ m2). unfold steps in *. by rewrite H2, H1, app_assoc.
Qed.

(** X14: what [handle_connection_safely] lets out and what it logs.  No
    exception leaves it but the cancellation of its task.  When the address
    of the client cannot be formatted, the exception is logged and no
    channel is opened.  Otherwise the connection is announced first, its
    channel is gone from the subscriber channels at the end, and the last
    log entry is the exception that ended the loop or, when the loop ended
    otherwise and the address is not empty, the notice that the connection
    is closed. *)
Theorem X14_a_connection_ends_quietly (client_address : Result string)
    (events : list Event) (ending : Ending) (s : State P) :
  let out := handle_connection_safely client_address
               (fun _ s1 => (ending, steps encoder events s1)) s in
  (out.1 = Returns \/ out.1 = Raises Cancelled /\ ending = Cancelled) /\
  (forall ex, client_address = Raise ex ->
     out = (Returns, emit (log_exception (exc_text ex)) s)) /\
  (forall address, client_address = Ok address -> channels_ok s ->
     (next_channel s ∉ chan_id <$> channels out.2) /\
     exists meanwhile,
       log out.2
       = log s ++ [log_info ("Sidekick connection accepted from " +:+ address)]
         ++ meanwhile
         ++ match ending with
            | Exception ex => [log_exception (exc_text ex)]
            | _ => if bool_decide (address = "") then []
                   else [log_info ("Sidekick connection from " +:+ address
                                   +:+ " closed")]
            end).
Proof.
  intros out. subst out. split_and!.
  - destruct client_address as [address|ex]; [|by left].
    unfold handle_connection_safely, handle_connection. simpl.
    destruct ending; simpl; first [by left|by right].
  - by intros ex ->.
  - intros address -> Hs. cbn [handle_connection_safely].
    set (s1 := emit (log_info ("Sidekick connection accepted from " +:+ address)) s).
    pose proof (handle_connection_teardown encoder events ending s1 Hs) as H.
    cbv zeta in H. destruct H as (Hend & _ & Hgone & Hlog).
    destruct (steps_log events (handle_connection_open s1).2) as [meanwhile Hm].
    rewrite Hm in Hlog.
    change (log (handle_connection_open s1).2)
      with (log s ++ [log_info ("Sidekick connection accepted from " +:+ address)])
      in Hlog.
    change (next_channel s1) with (next_channel s) in Hgone.
    destruct (handle_connection _ s1) as [ending' s2]. cbn [fst snd] in Hend, Hgone, Hlog.
    subst ending'.
    assert (forall last, log (emit last s2)
              = log s ++ [log_info ("Sidekick connection accepted from " +:+ address)]
                ++ meanwhile ++ [last]) as Hlast.
    { intros last. cbn [emit log]. by rewrite Hlog, <- !app_assoc. }
    assert (log s2 = log s ++ [log_info ("Sidekick connection accepted from " +:+ address)]
                     ++ meanwhile ++ []) as Hnone.
    { by rewrite Hlog, app_nil_r, <- app_assoc. }
    destruct ending; cbn [fst snd]; try (destruct (bool_decide (address = "")));
      (split; [exact Hgone|exists meanwhile]); first [apply Hlast|exact Hnone].
Qed.

End BatchProperties.

(** ** The signals extension *)

Section SignalProperties.
Context {W K Snd R : Type}.
Import signals.

Local Abbreviation Receiver := (@Receiver W K Snd R).

Lemma dispatch_run (receivers : list Receiver) (sender : option Snd) (kwargs : K) :
  forall result st w calls,
  log st = Some calls ->
  dispatch receivers sender kwargs result (st, w)
  = (Ok (result ++ outcomes receivers sender kwargs w),
     (set_log (Some (calls ++ replicate (failures receivers sender kwargs w)
                 (log_exception "Unexpected exception caught in signal dispatch"))) st,
      called receivers sender kwargs w)).
Proof.
  induction receivers as [|receiver rest IH]; intros result st w calls Hlog;
    cbn [dispatch outcomes failures called fold_left fst snd].
  - rewrite !app_nil_r. destruct st. simpl in Hlog. by subst.
  - destruct (receiver_call receiver sender kwargs w) as [[v|ex] w1] eqn:Hcall;
      cbn [is_ok retval snd].
    + rewrite (IH _ st w1 calls Hlog). by rewrite <- app_assoc.
    + unfold log_exception_call. rewrite Hlog.
      rewrite (IH _ (set_log (Some (calls ++ [log_exception
                 "Unexpected exception caught in signal dispatch"])) st) w1 _ eq_refl).
      rewrite <- !app_assoc. by destruct st.
Qed.

Lemma outcomes_receivers (receivers : list Receiver) sender kwargs : forall w,
  (outcomes receivers sender kwargs w).*1 = receivers.
Proof.
  induction receivers as [|receiver rest IH]; intros w; [done|]. cbn [outcomes].
  destruct (receiver_call receiver sender kwargs w) as [r w1]. simpl. by rewrite IH.
Qed.

Lemma outcomes_lookup (receivers : list Receiver) sender kwargs : forall w i receiver,
  receivers !! i = Some receiver ->
  outcomes receivers sender kwargs w !! i
  = Some (receiver,
          retval (receiver_call receiver sender kwargs
                    (called (take i receivers) sender kwargs w)).1).
Proof.
  induction receivers as [|x rest IH]; intros w i receiver Hi; [done|].
  cbn [outcomes]. destruct (receiver_call x sender kwargs w) as [r w1] eqn:Hcall.
  destruct i as [|i]; simpl in Hi.
  - injection Hi as <-. simpl. by rewrite Hcall.
  - simpl. rewrite (IH w1 i receiver Hi). unfold called. simpl. by rewrite Hcall.
Qed.

Lemma failures_count (receivers : list Receiver) sender kwargs : forall w,
  failures receivers sender kwargs w
  = length (filter (fun o => raised o.2 = true)
                   (outcomes receivers sender kwargs w)).
Proof.
  induction receivers as [|x rest IH]; intros w; [done|]. cbn [failures outcomes].
  destruct (receiver_call x sender kwargs w) as [[v|ex] w1]; cbn [retval is_ok].
  - rewrite filter_cons_False by done. apply IH.
  - rewrite filter_cons_True by done. simpl. by rewrite IH.
Qed.

(** X17: what [ProtectedSignal.send] lets out.  With more than one
    positional argument it raises a [TypeError] and calls nobody.
    Otherwise, once the extension has been given its logger, it returns:
    every receiver that [receivers_for] yields has been called once, in
    order, each in the state that the receiver before it left, whether
    that one returned or raised; the result pairs each receiver with what
    it returned or with the exception that it raised; and one exception is
    logged per receiver that raised. *)
Theorem X17_receivers_are_shielded_from_each_other (has_receivers : bool)
    (receivers_for : option Snd -> list Receiver) (sender : list Snd) (kwargs : K)
    (st : State) (w : W) (calls : list LogCall) :
  log st = Some calls ->
  let out := send has_receivers receivers_for sender kwargs (st, w) in
  ((1 < length sender)%nat ->
     out = (Raise (TypeError ("send() accepts only one positional argument, "
                              +:+ str_of_int (Z.of_nat (length sender)) +:+ " given")),
            (st, w))) /\
  ((length sender <= 1)%nat -> has_receivers = false -> out = (Ok [], (st, w))) /\
  ((length sender <= 1)%nat -> has_receivers = true ->
     let receivers := receivers_for (head sender) in
     exists result st',
       out = (Ok result, (st', called receivers (head sender) kwargs w)) /\
       result.*1 = receivers /\
       (forall i receiver, receivers !! i = Some receiver ->
          result !! i
          = Some (receiver,
                  retval (receiver_call receiver (head sender) kwargs
                            (called (take i receivers) (head sender) kwargs w)).1)) /\
       log st'
       = Some (calls ++ replicate
                 (length (filter (fun o => raised o.2 = true) result))
                 (log_exception "Unexpected exception caught in signal dispatch")) /\
       signals st' = signals st /\ objects st' = objects st).
Proof.
  intros Hlog out. subst out. unfold send. split_and!.
  - intros Hlen. by destruct sender as [|x [|y rest]]; [simpl in Hlen; lia..|].
  - intros Hlen ->. by destruct sender as [|x [|y rest]]; [..|simpl in Hlen; lia].
  - intros Hlen ->.
    assert (exists x, head sender = x /\
              match sender with
              | _ :: _ :: _ =>
                  (Raise (TypeError ("send() accepts only one positional argument, "
                     +:+ str_of_int (Z.of_nat (length sender)) +:+ " given")), (st, w))
              | _ => if negb true then (Ok [], (st, w))
                     else dispatch (receivers_for (head sender)) (head sender) kwargs []
                            (st, w)
              end = dispatch (receivers_for x) x kwargs [] (st, w)) as (x & -> & ->).
    { destruct sender as [|x [|y rest]]; [by eexists..|simpl in Hlen; lia]. }
    rewrite (dispatch_run _ _ _ _ _ _ calls Hlog). cbn [app].
    eexists _, _. split; [reflexivity|]. split_and!.
    + apply outcomes_receivers.
    + intros i receiver Hi. by apply outcomes_lookup.
    + simpl. by rewrite failures_count.
    + done.
    + done.
Qed.

End SignalProperties.
Section NamespaceProperties.
Import signals.

Lemma get_signal_bound (name : string) (s : State) (ns : gmap string nat) :
  signals s = Some ns ->
  get_signal name s
  = match ns !! name with
    | Some r => (Ok r, s)
    | None =>
        (Ok (length (objects s)),
         {| log := log s;
            signals := Some (<[name := length (objects s)]> ns);
            objects := objects s ++ [{| signal_name := name; signal_doc := None |}] |})
    end.
Proof.
  intros Hs. unfold get_signal, signal. rewrite Hs. by destruct (ns !! name).
Qed.

Lemma get_signal_ok (name : string) (s : State) :
  namespace_ok s -> namespace_ok (get_signal name s).2.
Proof.
  intros Hok. destruct (signals s) as [ns|] eqn:Hs.
  - rewrite (get_signal_bound _ _ ns Hs).
    destruct (ns !! name) as [r|] eqn:Hr; [done|].
    intros ns' name' r'. simpl. intros [= <-]. rewrite lookup_insert.
    case_decide as Hn.
    + intros [= <-]. subst name'. eexists. split; [by apply list_lookup_middle|done].
    + intros Hr'. destruct (Hok ns name' r' Hs Hr') as (o & Ho & Hname).
      exists o. split; [by apply lookup_app_l_Some|done].
  - unfold get_signal. by rewrite Hs.
Qed.

Lemma get_signal_keeps (name other : string) (s : State) (r : nat) :
  namespace_ok s ->
  (exists ns, signals s = Some ns /\ ns !! name = Some r) ->
  exists ns, signals (get_signal other s).2 = Some ns /\ ns !! name = Some r.
Proof.
  intros Hok (ns & Hs & Hr). rewrite (get_signal_bound _ _ ns Hs).
  destruct (ns !! other) as [r'|] eqn:Ho; [by exists ns|].
  simpl. eexists. split; [done|]. rewrite lookup_insert_ne; [done|].
  intros ->. by rewrite Hr in Ho.
Qed.

Lemma get_signals_keeps (name : string) (r : nat) (others : list string) : forall s,
  namespace_ok s ->
  (exists ns, signals s = Some ns /\ ns !! name = Some r) ->
  namespace_ok (get_signals others s) /\
  exists ns, signals (get_signals others s) = Some ns /\ ns !! name = Some r.
Proof.
  induction others as [|other others IH]; intros s Hok Hr; [done|].
  simpl. apply IH; [by apply get_signal_ok|by apply get_signal_keeps].
Qed.

(** X18: the life of a signal.  The signal object that [get_signal]
    returns for a name carries that name, and as long as the extension
    stays loaded every later call for the name returns the same object,
    whatever other signals are asked for meanwhile, while another name
    gets another object.  Once the extension is unloaded [get_signal]
    raises a [RuntimeError] and changes nothing; and when the extension is
    loaded again, the name gets a new signal object. *)
Theorem X18_a_name_keeps_its_signal_while_loaded (name : string) (s s1 : State)
    (r : nat) :
  namespace_ok s ->
  get_signal name s = (Ok r, s1) ->
  (exists o, objects s1 !! r = Some o /\ signal_name o = name) /\
  (forall others,
     let s2 := get_signals others s1 in
     get_signal name s2 = (Ok r, s2) /\
     (forall other r' s3, other <> name -> get_signal other s2 = (Ok r', s3) -> r' <> r) /\
     get_signal name (unload s2)
     = (Raise (RuntimeError
          "Attempted to get a signal reference when the extension is not running"),
        unload s2) /\
     (forall logger,
        exists r' s3,
          get_signal name (load logger (unload s2)) = (Ok r', s3) /\ r' <> r)).
Proof.
  intros Hok Hget.
  assert (namespace_ok s1) as Hok1.
  { pose proof (get_signal_ok name s Hok) as H. by rewrite Hget in H. }
  assert (exists ns, signals s1 = Some ns /\ ns !! name = Some r) as Hr1.
  { unfold get_signal in Hget. destruct (signals s) as [ns|] eqn:Hs; [|done].
    unfold signal in Hget. destruct (ns !! name) as [r0|] eqn:Hn.
    - injection Hget as <- <-. by exists ns.
    - injection Hget as <- <-. simpl. eexists. split; [done|]. by rewrite lookup_insert_eq. }
  split.
  { destruct Hr1 as (ns & Hs & Hr). by apply (Hok1 ns). }
  intros others s2. subst s2.
  destruct (get_signals_keeps name r others s1 Hok1 Hr1) as (Hok2 & ns2 & Hs2 & Hr2).
  destruct (Hok2 ns2 name r Hs2 Hr2) as (o & Ho & Hname).
  pose proof (lookup_lt_Some _ _ _ Ho) as Hlt.
  split_and!.
  - by rewrite (get_signal_bound _ _ ns2 Hs2), Hr2.
  - intros other r' s3 Hne. rewrite (get_signal_bound _ _ ns2 Hs2).
    destruct (ns2 !! other) as [r0|] eqn:Hother; intros [= <- _].
    + intros ->. destruct (Hok2 ns2 other r Hs2 Hother) as (o' & Ho' & Hname').
      rewrite Ho in Ho'. injection Ho' as <-. by rewrite Hname in Hname'.
    + lia.
  - done.
  - intros logger. unfold get_signal, load, unload, signal. simpl.
    rewrite lookup_empty. eexists _, _. split; [done|]. lia.
Qed.

End NamespaceProperties.
Section SignalledFanout.
Context {P : Type} (encoder : sidekick.Command -> P).
Import signals.

Lemma called_app {W K Snd R} (before after : list (@Receiver W K Snd R)) sender kwargs w :
  called (before ++ after) sender kwargs w
  = called after sender kwargs (called before sender kwargs w).
Proof. unfold called. by rewrite fold_left_app. Qed.

Lemma failures_app {W K Snd R} (before after : list (@Receiver W K Snd R)) sender kwargs :
  forall w,
  failures (before ++ after) sender kwargs w
  = (failures before sender kwargs w
     + failures after sender kwargs (called before sender kwargs w))%nat.
Proof.
  induction before as [|x before IH]; intros w; [done|]. cbn [app failures].
  unfold called. cbn [fold_left].
  destruct (receiver_call x sender kwargs w) as [r w1] eqn:Hcall. simpl.
  rewrite IH. unfold called. lia.
Qed.

(** X19: the signal shields the other extensions from the fan-out.  When
    the Sidekick handler is one of the receivers of a signal and is sent a
    batch that makes it raise (a [data] field that does not hold bytes,
    while somebody is subscribed), [send] still returns: the result holds
    the [TypeError] for the handler, the exception is logged, and the
    receivers after the handler are called as if it had not been there. *)
Theorem X19_a_failing_fanout_does_not_stop_the_signal (id : nat)
    (before after : list (@Receiver (sidekick.State P)
                            (list (string * gmap string Value)) string unit))
    (sender : string) (messages : list (string * gmap string Value))
    (st : State) (w : sidekick.State P) (calls : list LogCall) :
  log st = Some calls ->
  sidekick.rtk_fragments messages = false ->
  sidekick.channels (called before (Some sender) messages w) <> [] ->
  let receivers := before ++ rtk_receiver encoder id :: after in
  exists result st' n,
    send true (fun _ => receivers) [sender] messages (st, w)
    = (Ok result,
       (st', called after (Some sender) messages
               (called before (Some sender) messages w))) /\
    result.*1 = receivers /\
    result !! length before
    = Some (rtk_receiver encoder id,
            inr (TypeError "a bytes-like object is required")) /\
    log st' = Some (calls ++ replicate (S n)
                      (log_exception "Unexpected exception caught in signal dispatch")).
Proof.
  intros Hlog Hm Hch receivers.
  assert (receiver_call (rtk_receiver encoder id) (Some sender) messages
            (called before (Some sender) messages w)
          = (Raise (TypeError "a bytes-like object is required"),
             called before (Some sender) messages w)) as Hcall.
  { cbn [receiver_call rtk_receiver]. unfold sidekick.handle_mavlink_rtk_packet_fragments.
    rewrite (encode_messages_malformed _ Hm).
    by destruct (sidekick.channels (called before (Some sender) messages w)). }
  unfold send. cbn [negb head].
  rewrite (dispatch_run _ _ _ _ _ _ calls Hlog). cbn [app].
  eexists _, _, (failures before (Some sender) messages w
                 + failures after (Some sender) messages
                     (called before (Some sender) messages w))%nat.
  split_and!.
  - f_equal. f_equal. subst receivers.
    rewrite called_app. unfold called at 1. cbn [fold_left]. by rewrite Hcall.
  - apply outcomes_receivers.
  - rewrite (outcomes_lookup _ _ _ _ _ (rtk_receiver encoder id))
      by (subst receivers; by apply list_lookup_middle).
    subst receivers. rewrite take_app_length. by rewrite Hcall.
  - cbn [log set_log]. subst receivers. rewrite failures_app. cbn [failures].
    rewrite Hcall. cbn [is_ok]. do 3 f_equal. lia.
Qed.

End SignalledFanout.

(** ** Command receipts *)

Section ReceiptProperties.
Context {Timestamp Time : Type}.
Import commands.

Local Abbreviation Status := (@CommandExecutionStatus Timestamp Time).

(** X20: a receipt keeps its first timestamps.  After any calls, in any
    order, the receipt is marked as finished (as sent) at the time of the
    first call that marked it so, unless it was marked before; the clients
    to notify are those it had and those that the calls named, each once;
    and its identifier, its creation time and its response are what they
    were. *)
Theorem X20_a_receipt_keeps_its_first_timestamps (calls : list Call) (self : Status) :
  let after := fold_left perform calls self in
  finished after = match finished self with
                   | Some t => Some t
                   | None => head (omap finishing calls)
                   end /\
  sent after = match sent self with
               | Some t => Some t
               | None => head (omap sending calls)
               end /\
  clients_to_notify after
  = clients_to_notify self ∪ list_to_set (omap notifying calls) /\
  id after = id self /\ created_at after = created_at self /\
  response after = response self.
Proof.
  revert self. induction calls as [|c calls IH]; intros self; simpl.
  - split_and!; try done.
    + by destruct (finished self).
    + by destruct (sent self).
    + unfold clients_to_notify. set_solver.
  - destruct (IH (perform self c)) as (Hf & Hs & Hc & Hi & Hcr & Hr).
    rewrite Hf, Hs, Hc, Hi, Hcr, Hr. clear IH Hf Hs Hc Hi Hcr Hr.
    destruct c as [now|now|session_id]; simpl;
      unfold mark_as_finished, mark_as_sent, notify_client, clients_to_notify;
      destruct (finished self) eqn:Hfin, (sent self) eqn:Hsent; simpl;
      rewrite ?Hfin, ?Hsent; split_and!; try done; set_solver.
Qed.

End ReceiptProperties.

(** ** The fake UAV provider *)

Section ProviderProperties.
Context {Position : Type}
        (GPSCoordinate : option string -> Position)
        (cos sin : float -> float)
        (to_gps : option Position -> float -> float -> Position)
        (format : string -> Z -> string).
Import fake_uavs.

Local Abbreviation World := (@World Position).
Local Abbreviation step := (@step Position GPSCoordinate cos sin to_gps format).

Lemma set_delay_not_negative (value : float) (r : StatusReporter) :
  PrimFloat.ltb (_delay (set_delay value r)) 0%float = false.
Proof.
  unfold set_delay, py_max. simpl.
  destruct (PrimFloat.ltb value 0) eqn:Hv; [reflexivity|exact Hv].
Qed.

Lemma step_reporter_ok (ev : Event) (w : World) : reporter_ok w -> reporter_ok (step w ev).
Proof.
  intros Hw. pose proof Hw as (Hstop & Hdelay & Hcrash).
  destruct ev as [cfg| | |now]; simpl.
  - split_and!; [exact Hstop|apply set_delay_not_negative|exact Hcrash].
  - unfold spinup, start.
    destruct (running (_status_reporter (ext w))) eqn:Hrun; [exact Hw|].
    split_and!; simpl; [by eexists|exact Hdelay|exact Hcrash].
  - unfold spindown, stop.
    destruct (running (_status_reporter (ext w))) eqn:Hrun; [|exact Hw].
    split_and!; simpl; [by eexists|exact Hdelay|exact Hcrash].
  - destruct (running (_status_reporter (ext w))) eqn:Hrun; [|exact Hw].
    destruct (Hstop eq_refl) as [b Hb].
    unfold report_status_round. rewrite Hb. destruct b.
    + split_and!; simpl; [done|exact Hdelay|exact Hcrash].
    + assert (forall ex, ex <> AttributeError "stopping" ->
                reporter_ok (_on_thread_stopped
                  {| ext := ext w; registry := registry w; hub := hub w;
                     spawned := spawned w; crashed := crashed w ++ [ex] |})) as Hend.
      { intros ex Hex. split_and!; simpl; [done|exact Hdelay|].
        apply Forall_app. split; [exact Hcrash|by constructor]. }
      unfold _update_uav_statuses.
      destruct (radius (ext w)) as [r|]; [|by apply Hend].
      destruct (time_of_single_cycle (ext w)) as [c|]; [|by apply Hend].
      destruct (PrimFloat.eqb c 0); [by apply Hend|].
      split_and!; simpl; [by eexists|exact Hdelay|exact Hcrash].
Qed.

Lemma steps_reporter_ok (events : list Event) : forall w : World,
  reporter_ok w -> reporter_ok (fold_left step events w).
Proof.
  induction events as [|ev events IH]; intros w Hw; [done|].
  simpl. by apply IH, step_reporter_ok.
Qed.

(** X21: the reporter never reads an attribute that it has not assigned.
    From the construction of the extension on, whatever is configured,
    however often it is spun up and down and whenever its thread wakes, no
    reporter thread ends for want of the attribute [stopping] (which the
    constructor does not assign), and the delay between two reports is
    never negative. *)
Theorem X21_the_reporter_assigns_before_it_reads (events : list Event) (now : float) :
  let w : World := fold_left step events (fresh now) in
  Forall (fun ex => ex <> AttributeError "stopping") (crashed w) /\
  PrimFloat.ltb (_delay (_status_reporter (ext w))) 0%float = false.
Proof.
  intros w.
  destruct (steps_reporter_ok events (fresh now)) as (_ & Hdelay & Hcrash).
  - split_and!; [done|reflexivity|constructor].
  - by split.
Qed.

Lemma requested_stop_stays (events : list Event) : forall w : World,
  running (_status_reporter (ext w)) = true ->
  stopping (_status_reporter (ext w)) = Some true ->
  Forall (fun ev => ev = ev_spinup \/ ev = ev_spindown) events ->
  let w' := fold_left step events w in
  running (_status_reporter (ext w')) = true /\
  stopping (_status_reporter (ext w')) = Some true /\
  hub w' = hub w /\ registry w' = registry w /\ crashed w' = crashed w /\
  uavs (ext w') = uavs (ext w).
Proof.
  induction events as [|ev events IH]; intros w Hrun Hstop Hall; [done|].
  apply list.Forall_cons in Hall as [Hev Hall]. simpl.
  assert (step w ev = w) as ->; [|by apply IH].
  destruct Hev as [-> | ->]; simpl.
  - unfold spinup, start. by rewrite Hrun.
  - unfold spindown, stop. rewrite Hrun. simpl.
    destruct w as [[c u r t [th d st sp]] reg h n cr]. simpl in *.
    by rewrite Hstop.
Qed.

(** X22: a spin-up that follows a spin-down before the reporter thread
    has woken is lost.  Once a running reporter has been told to stop,
    however often it is then spun up and down, the thread ends when it next
    wakes, without a report, and the reporter is not running any more; only
    a spin-up after that starts a thread again. *)
Theorem X22_a_start_after_a_stop_can_be_lost (events : list Event) (now : float)
    (w : World) :
  running (_status_reporter (ext w)) = true ->
  Forall (fun ev => ev = ev_spinup \/ ev = ev_spindown) events ->
  let w' := step (fold_left step (ev_spindown :: events) w) (ev_wake now) in
  running (_status_reporter (ext w')) = false /\
  hub w' = hub w /\ registry w' = registry w /\ crashed w' = crashed w /\
  running (_status_reporter (ext (step w' ev_spinup))) = true.
Proof.
  intros Hrun Hall w'. subst w'. cbn [fold_left].
  set (w1 := step w ev_spindown).
  assert (running (_status_reporter (ext w1)) = true /\
          stopping (_status_reporter (ext w1)) = Some true /\
          hub w1 = hub w /\ registry w1 = registry w /\ crashed w1 = crashed w)
    as (H1 & H2 & H3 & H4 & H5).
  { subst w1. simpl. unfold spindown, stop. by rewrite Hrun. }
  destruct (requested_stop_stays events w1 H1 H2 Hall) as (Hr & Hs & Hh & Hreg & Hc & _).
  cbv zeta in Hr, Hs, Hh, Hreg, Hc. clearbody w1.
  set (mid := fold_left step events w1) in *. clearbody mid.
  cbn [fake_uavs.step]. rewrite Hr. unfold report_status_round. rewrite Hs.
  split_and!; simpl; try congruence; unfold spinup, start; reflexivity.
Qed.



End ProviderProperties.

(** * Evaluations on concrete inputs *)

#[local] Existing Instance common_dialect.

(** A running network asked to expect any [COMMAND_ACK]. *)
Example wildcard_on_alpha :
  (expect_packet_enter (type_name "COMMAND_ACK") MNone None alpha_running).1
  = Raise (AttributeError "'NoneType' object has no attribute 'items'").
Proof. reflexivity. Qed.

(** A specification asking for system ID 1. *)
Example system_id_1_becomes_255 :
  _system_id (from_specification
                {| spec_id := "alpha"; spec_system_id := 1; spec_id_format := "{0}";
                   spec_packet_loss := 0%float; spec_connections := [] |}) = 255.
Proof. reflexivity. Qed.

(** Scenario S6: the payload of [b"\x00\x01\x02"]. *)
Example b64encode_S6 : sidekick.b64encode [x00; x01; x02] = "AAEC".
Proof. reflexivity. Qed.

Example decode_text : bytes_decode_utf8 [x52; x41; x54; x45] = Some "RATE".
Proof. reflexivity. Qed.

Example decode_surrogate : bytes_decode_utf8 [xed; xa0; x80] = None.
Proof. reflexivity. Qed.

Lemma alpha_running_matchers_ok : matchers_ok alpha_running.
Proof. apply started_matchers_ok, fresh_matchers_ok. reflexivity. Qed.

Lemma alpha_with_params_matchers_ok : matchers_ok alpha_with_params.
Proof. exact alpha_running_matchers_ok. Qed.

Lemma alpha_with_params_directory_ok : uav_directory_ok alpha_with_params.
Proof. exact (started_directory_ok _ (fresh_directory_ok _ _ _ _ _)). Qed.

Lemma sample_entry_run :
  sample_entry
  = (Ok sample_scope,
     set_lists [[scope_item sample_scope]]
       (upd_net (with_matchers (Some {[ "COMMAND_ACK" := 0%nat ]}))
          (set_futures [[]]
             (set_dicts [expected_form <$> sample_params] alpha_with_params)))).
Proof. vm_compute. reflexivity. Qed.

Lemma C5_witness :
  dicts alpha_with_params !! 0%nat = Some sample_params /\
  sample_entry = (Ok sample_scope, sample_entry.2) /\
  entry_matches (dicts sample_entry.2) (command_ack_from 9) (scope_item sample_scope)
  = false.
Proof.
  assert (H1 : dicts alpha_with_params !! 0%nat = Some sample_params) by reflexivity.
  assert (H2 : expect_packet_enter (type_name "COMMAND_ACK") (MDict 0) (Some 7)
                 alpha_with_params = (Ok sample_scope, sample_entry.2))
    by (vm_compute; reflexivity).
  split; [exact H1|]. split; [exact H2|].
  apply (proj1 (C5_field_mapping_match _ _ _ _ _ _ _ (command_ack_from 9) H1 H2) 7);
    [reflexivity|discriminate].
Defined.

Lemma C9_witness :
  dicts alpha_with_params !! 0%nat = Some sample_params /\
  sample_entry = (Ok sample_scope, sample_entry.2) /\
  exists decoded,
    dicts sample_entry.2 !! 0%nat = Some decoded /\
    decoded !! "param_id" = Some (VStr "RATE") /\
    decoded !! "blob" = Some (VBytes [xff]) /\
    decoded !! "command" = Some (VInt 400).
Proof.
  assert (H1 : dicts alpha_with_params !! 0%nat = Some sample_params) by reflexivity.
  assert (H2 : expect_packet_enter (type_name "COMMAND_ACK") (MDict 0) (Some 7)
                 alpha_with_params = (Ok sample_scope, sample_entry.2))
    by (vm_compute; reflexivity).
  split; [exact H1|]. split; [exact H2|].
  destruct (C9_expect_packet_decodes_in_place _ _ _ _ _ _ _ H1 H2)
    as (_ & (decoded & Hd & Hall) & _).
  exists decoded. split; [exact Hd|]. rewrite !Hall. repeat split.
Defined.

Lemma C7_witness :
  is_Some (_matchers (net alpha_running)) /\
  initial_handlers !! "ATTITUDE" = None /\
  existsb (occurrence "ATTITUDE") [("link", (heartbeat_from 7, "10.0.0.7:14550"))] = false /\
  occurrence "ATTITUDE" ("link", (attitude_from 7, "10.0.0.7:14550")) = true /\
  unhandled_warnings "ATTITUDE"
    (log (_handle_inbound_messages
            ([("link", (heartbeat_from 7, "10.0.0.7:14550"))] ++
             ("link", (attitude_from 7, "10.0.0.7:14550")) ::
             [("link", (attitude_from 7, "10.0.0.7:14550"));
              ("link", (attitude_from 8, "10.0.0.8:14550"))])
            alpha_running).2) = 1%nat.
Proof.
  assert (H1 : is_Some (_matchers (net alpha_running))) by (eexists; reflexivity).
  assert (H2 : initial_handlers !! "ATTITUDE" = None) by reflexivity.
  assert (H3 : existsb (occurrence "ATTITUDE")
                 [("link", (heartbeat_from 7, "10.0.0.7:14550"))] = false) by reflexivity.
  assert (H4 : occurrence "ATTITUDE" ("link", (attitude_from 7, "10.0.0.7:14550")) = true)
    by reflexivity.
  split; [exact H1|]. split; [exact H2|]. split; [exact H3|]. split; [exact H4|].
  pose proof (C7_unknown_type_warned_once "ATTITUDE"
                [("link", (heartbeat_from 7, "10.0.0.7:14550"))]
                [("link", (attitude_from 7, "10.0.0.7:14550"));
                 ("link", (attitude_from 8, "10.0.0.8:14550"))]
                ("link", (attitude_from 7, "10.0.0.7:14550"))
                alpha_running H1 H2 H3 H4) as H.
  cbv zeta beta in H. destruct H as (Ha & Hb & Hc & _).
  etransitivity; [exact Hc|]. etransitivity; [exact Hb|].
  vm_compute. reflexivity.
Defined.

Lemma C6_witness :
  uav_directory_ok alpha_with_params /\
  exists uav o,
    (_find_uav_from_message (heartbeat_from 7) "10.0.0.9:14550" alpha_seen_7).1
    = Ok (Some uav) /\
    uav_objs (_find_uav_from_message (heartbeat_from 7) "10.0.0.9:14550" alpha_seen_7).2
      !! uav = Some o /\
    uav_id o = "DRN-7-alpha" /\
    _uav_addresses
      (net (_find_uav_from_message (heartbeat_from 7) "10.0.0.9:14550" alpha_seen_7).2)
      !! uav = Some "10.0.0.9:14550" /\
    length (uav_objs
      (_find_uav_from_message (heartbeat_from 7) "10.0.0.9:14550" alpha_seen_7).2) = 1%nat.
Proof.
  split; [exact alpha_with_params_directory_ok|].
  pose proof (C6_uav_created_once alpha_with_params initial_handlers
                [act_inbound ("link", (heartbeat_from 7, "10.0.0.7:14550"))]
                (heartbeat_from 7) "10.0.0.9:14550" alpha_with_params_directory_ok) as H.
  cbv zeta in H. destruct H as (_ & H & _).
  destruct H as (uav & o & Hr & Hu & Ho & Hid & Hin & Ha & Huniq & Hknown & Hnew);
    [discriminate|].
  exists uav, o. split; [exact Hr|]. split; [exact Ho|].
  split; [rewrite Hid; reflexivity|]. split; [exact Ha|].
  destruct (Hknown 0%nat eq_refl) as (_ & Hlen & _).
  etransitivity; [exact Hlen|]. vm_compute. reflexivity.
Defined.

Lemma C3_witness :
  matchers_ok alpha_with_params /\
  forallb (fun a => negb (touches (length (futures alpha_with_params)) a))
    [act_inbound ("link", (command_ack_from 7, "10.0.0.7:14550")); expect_ack] = true /\
  (forall e,
     e ∈ mjoin (lists
       (with_expect_packet (type_name "COMMAND_ACK") (MDict 0) (Some 7)
          (fun sc s' =>
             (Raise (RuntimeError "timeout") : Result (option MAVLinkMessage),
              (perform_all initial_handlers
                 [act_inbound ("link", (command_ack_from 7, "10.0.0.7:14550")); expect_ack]
                 s').2))
          alpha_with_params).2) ->
     entry_future e <> 0%nat) /\
  cancelled 0
    (run (activity_of [expect_ack] (Raise (RuntimeError "cancelled")))
       alpha_with_params).2.
Proof.
  pose proof alpha_with_params_matchers_ok as H1.
  assert (H2 : forallb (fun a => negb (touches (length (futures alpha_with_params)) a))
                 [act_inbound ("link", (command_ack_from 7, "10.0.0.7:14550")); expect_ack]
               = true) by reflexivity.
  split; [exact H1|]. split; [exact H2|].
  destruct (C3_matcher_scope_closure (type_name "COMMAND_ACK") (MDict 0) (Some 7)
              initial_handlers
              [act_inbound ("link", (command_ack_from 7, "10.0.0.7:14550")); expect_ack]
              [expect_ack] (Raise (RuntimeError "timeout"))
              (Raise (RuntimeError "cancelled")) alpha_with_params H1) as [Hscope Hrun].
  split.
  - exact (proj1 (proj2 (Hscope H2))).
  - cbv zeta in Hrun. destruct Hrun as (_ & _ & Hcancel).
    apply (Hcancel {[ "COMMAND_ACK" := 0%nat ]} "COMMAND_ACK" 0%nat
             [ {| entry_system_id := Some 7;
                  entry_params := MCallable 0 (fun _ => true);
                  entry_future := 0 |} ]
             {| entry_system_id := Some 7;
                entry_params := MCallable 0 (fun _ => true);
                entry_future := 0 |}).
    + vm_compute. reflexivity.
    + reflexivity.
    + reflexivity.
    + apply list_elem_of_here.
Defined.

Lemma C8_witness :
  _uav_addresses (net alpha_with_stranger) !! 0%nat = None /\
  _uav_addresses (net alpha_seen_7) !! 0%nat = Some "10.0.0.7:14550" /\
  manager (net alpha_seen_7) <> None /\
  send_heartbeat 0 alpha_with_stranger = (Raise NO_ADDRESS, alpha_with_stranger) /\
  sent (send_packet ("COMMAND_LONG", 0%nat) 0 None None alpha_with_stranger).2 = [] /\
  sent (send_packet ("COMMAND_LONG", 0%nat) 0 None None alpha_seen_7).2
  = [ mgr_send_packet "COMMAND_LONG"
        (<[ "_mavlink_version" := VInt 1 ]>
           (<[ "target_component" := VInt 1 ]>
              (<[ "target_system" := VInt 7 ]> sample_params)))
        ("", "10.0.0.7:14550") ].
Proof.
  assert (H1 : _uav_addresses (net alpha_with_stranger) !! 0%nat = None) by reflexivity.
  assert (H2 : _uav_addresses (net alpha_seen_7) !! 0%nat = Some "10.0.0.7:14550")
    by reflexivity.
  assert (H3 : manager (net alpha_seen_7) <> None) by discriminate.
  split; [exact H1|]. split; [exact H2|]. split; [exact H3|].
  destruct (C8_targeted_send_needs_address ("COMMAND_LONG", 0%nat) 0 None None
              alpha_with_stranger) as [Hnone _].
  destruct (Hnone H1) as (Hhb & _ & Hsent).
  destruct (C8_targeted_send_needs_address ("COMMAND_LONG", 0%nat) 0 None None
              alpha_seen_7) as [_ Hsome].
  destruct (Hsome _ H2) as [_ Hplain].
  split; [exact Hhb|]. split; [exact Hsent|].
  rewrite (Hplain H3 eq_refl (or_introl eq_refl)). vm_compute. reflexivity.
Defined.

Lemma C10_witness :
  _uav_addresses (net alpha_with_stranger) !! 0%nat = None /\
  dicts alpha_with_stranger !! 0%nat = Some sample_params /\
  (send_packet ("COMMAND_LONG", 0%nat) 0 None None alpha_with_stranger).1
  = Raise NO_ADDRESS /\
  dicts (send_packet ("COMMAND_LONG", 0%nat) 0 None None alpha_with_stranger).2
  = [ <[ "_mavlink_version" := VInt 1 ]>
        (<[ "target_component" := VInt 1 ]>
           (<[ "target_system" := VInt 9 ]> sample_params)) ].
Proof.
  assert (H1 : _uav_addresses (net alpha_with_stranger) !! 0%nat = None) by reflexivity.
  assert (H2 : dicts alpha_with_stranger !! 0%nat = Some sample_params) by reflexivity.
  split; [exact H1|]. split; [exact H2|].
  pose proof (C10_send_packet_addresses_spec_first ("COMMAND_LONG", 0%nat) 0 None None
                sample_params alpha_with_stranger H1 H2) as H.
  cbv zeta in H. destruct H as (Hr & Hs & _).
  split; [exact Hr|]. rewrite Hs. reflexivity.
Defined.


Lemma alpha_seen_7_directory_ok : uav_directory_ok alpha_seen_7.
Proof. apply perform_all_directory_ok, alpha_with_params_directory_ok. Qed.

Lemma alpha_seen_7_matchers_ok : matchers_ok alpha_seen_7.
Proof.
  apply (perform_all_guarded None); [done|]. split; [|done].
  exact alpha_with_params_matchers_ok.
Qed.

Lemma alpha_expecting_matchers_ok : matchers_ok alpha_expecting.
Proof.
  apply (perform_all_guarded None); [done|]. split; [|done].
  exact alpha_running_matchers_ok.
Qed.

Lemma X2_witness :
  (handle_inbound_message initial_handlers
     ("link", (statustext_from 0 "PreArm: Compass not calibrated", "10.0.0.1:14550"))
     alpha_running).1 = Ok initial_handlers /\
  log (handle_inbound_message initial_handlers
         ("link", (statustext_from 0 "PreArm: Compass not calibrated", "10.0.0.1:14550"))
         alpha_running).2
  = [log_exception "Error while handling MAVLink message of type STATUSTEXT"].
Proof.
  pose proof (proj2 (X2_handler_errors_are_contained initial_handlers "link"
                (statustext_from 0 "PreArm: Compass not calibrated") "10.0.0.1:14550"
                alpha_running)
              handle_statustext (AttributeError "notify_prearm_failure")
              (upd_net (with_matchers (Some {[ "STATUSTEXT" := 0%nat ]}))
                 (set_lists [[]] alpha_running))
              (upd_net (with_matchers (Some {[ "STATUSTEXT" := 0%nat ]}))
                 (set_lists [[]] alpha_running))) as H.
  assert (H1 : resolve_futures (statustext_from 0 "PreArm: Compass not calibrated")
                 alpha_running
               = (Ok tt, upd_net (with_matchers (Some {[ "STATUSTEXT" := 0%nat ]}))
                           (set_lists [[]] alpha_running)))
    by (vm_compute; reflexivity).
  assert (H2 : call_handler handle_statustext
                 (statustext_from 0 "PreArm: Compass not calibrated") "link"
                 "10.0.0.1:14550"
                 (upd_net (with_matchers (Some {[ "STATUSTEXT" := 0%nat ]}))
                    (set_lists [[]] alpha_running))
               = (Raise (AttributeError "notify_prearm_failure"),
                  upd_net (with_matchers (Some {[ "STATUSTEXT" := 0%nat ]}))
                    (set_lists [[]] alpha_running)))
    by (vm_compute; reflexivity).
  specialize (H eq_refl eq_refl H1 H2).
  split; [exact (f_equal fst H)|exact (f_equal (fun out => log out.2) H)].
Defined.

Lemma X3_witness :
  is_Some (_matchers (net alpha_running)) /\
  msg_srcSystem (statustext_from 0 "PreArm: Compass not calibrated") = 0 /\
  getattr (statustext_from 0 "PreArm: Compass not calibrated") "text"
  = Some (VStr ("PreArm: " +:+ "Compass not calibrated")) /\
  uav_objs (handle_inbound_message initial_handlers
              ("link", (statustext_from 0 "PreArm: Compass not calibrated",
                        "10.0.0.1:14550"))
              alpha_running).2 = [].
Proof.
  assert (H1 : is_Some (_matchers (net alpha_running))) by (eexists; reflexivity).
  assert (H2 : msg_srcSystem (statustext_from 0 "PreArm: Compass not calibrated") = 0)
    by reflexivity.
  assert (H3 : getattr (statustext_from 0 "PreArm: Compass not calibrated") "text"
               = Some (VStr ("PreArm: " +:+ "Compass not calibrated"))) by reflexivity.
  split; [exact H1|]. split; [exact H2|]. split; [exact H3|].
  pose proof (X3_prearm_from_system_0 initial_handlers "link"
                (statustext_from 0 "PreArm: Compass not calibrated") "10.0.0.1:14550"
                "Compass not calibrated" alpha_running H1 eq_refl eq_refl eq_refl H2 H3)
    as H.
  cbv zeta in H. destruct H as (_ & _ & _ & Hobjs & _). exact Hobjs.
Defined.

Lemma X4_witness :
  getattr (statustext_from 7 "PreArm: Compass not calibrated") "text"
  = Some (VStr "PreArm: Compass not calibrated") /\
  uav_directory_ok alpha_with_params /\
  (exists uav o s1,
     _find_uav_from_message (statustext_from 7 "PreArm: Compass not calibrated")
       "10.0.0.7:14550" alpha_with_params = (Ok (Some uav), s1) /\
     uav_objs s1 !! uav = Some o /\
     _handle_message_statustext (statustext_from 7 "PreArm: Compass not calibrated")
       "link" "10.0.0.7:14550" alpha_with_params
     = (Ok tt,
        set_uav_objs
          (<[uav := uav_record_call (UAV_notify_prearm_failure "Compass not calibrated") o]>
             (uav_objs s1)) s1)) /\
  log (_handle_message_statustext (statustext_from 7 "Landing") "link" "10.0.0.7:14550"
         alpha_with_params).2
  = [log_log 30 (VStr "Landing") (Some "alpha:7")].
Proof.
  assert (H1 : getattr (statustext_from 7 "PreArm: Compass not calibrated") "text"
               = Some (VStr "PreArm: Compass not calibrated")) by reflexivity.
  pose proof alpha_with_params_directory_ok as H2.
  split; [exact H1|]. split; [exact H2|]. split.
  - apply (proj1 (X4_status_text_handling "link"
                    (statustext_from 7 "PreArm: Compass not calibrated")
                    "10.0.0.7:14550" _ alpha_with_params H1)
             "Compass not calibrated"); [reflexivity|discriminate|exact H2].
  - rewrite (proj2 (X4_status_text_handling "link" (statustext_from 7 "Landing")
                      "10.0.0.7:14550" "Landing" alpha_with_params eq_refl)
               eq_refl (VInt 4) eq_refl).
    reflexivity.
Defined.

Lemma X5_witness :
  uav_directory_ok alpha_seen_7 /\
  forallb (fun a => negb (from_system 7 a))
    [act_inbound ("link", (heartbeat_from 8, "10.0.0.8:14550")); act_heartbeat_tick]
  = true /\
  _uav_addresses
    (net (perform_all initial_handlers
            [act_inbound ("link", (heartbeat_from 8, "10.0.0.8:14550"));
             act_heartbeat_tick] alpha_seen_7).2) !! 0%nat
  = Some "10.0.0.7:14550".
Proof.
  pose proof alpha_seen_7_directory_ok as H1.
  assert (H2 : forallb (fun a => negb (from_system 7 a))
                 [act_inbound ("link", (heartbeat_from 8, "10.0.0.8:14550"));
                  act_heartbeat_tick] = true) by reflexivity.
  split; [exact H1|]. split; [exact H2|].
  pose proof (X5_record_changes_only_by_own_messages alpha_seen_7 initial_handlers
                _ 7 H1 H2) as H.
  cbv zeta in H. destruct H as [_ H]. destruct (H 0%nat eq_refl) as [Ha _].
  etransitivity; [exact Ha|]. reflexivity.
Defined.

Lemma X6_witness :
  uav_directory_ok alpha_with_params /\
  (_find_uav_from_message (heartbeat_from 7) "10.0.0.7:14550" alpha_with_params).1
  = Ok (Some 0%nat) /\
  sent (send_heartbeat 0
          (perform_all initial_handlers
             [act_inbound ("link", (heartbeat_from 8, "10.0.0.8:14550"))]
             (_find_uav_from_message (heartbeat_from 7) "10.0.0.7:14550"
                alpha_with_params).2).2).2
  = [mgr_send_packet "HEARTBEAT" HEARTBEAT_SPEC.2 ("", "10.0.0.7:14550")].
Proof.
  pose proof alpha_with_params_directory_ok as H1.
  assert (H2 : _find_uav_from_message (heartbeat_from 7) "10.0.0.7:14550" alpha_with_params
               = (Ok (Some 0%nat),
                  (_find_uav_from_message (heartbeat_from 7) "10.0.0.7:14550"
                     alpha_with_params).2)) by (vm_compute; reflexivity).
  assert (H3 : forallb (fun a => negb (from_system (msg_srcSystem (heartbeat_from 7)) a))
                 [act_inbound ("link", (heartbeat_from 8, "10.0.0.8:14550"))] = true)
    by reflexivity.
  split; [exact H1|]. split; [exact (f_equal fst H2)|].
  pose proof (X6_sends_go_to_the_last_sighting alpha_with_params _
                (heartbeat_from 7) "10.0.0.7:14550" 0 initial_handlers _ H1 H2 H3) as H.
  cbv zeta in H. destruct H as (_ & Hhb & _).
  rewrite Hhb; [vm_compute; reflexivity|discriminate].
Defined.

Lemma X7_witness :
  _matchers (net (fresh_state alpha 0)) = None /\
  expect_packet_enter (type_name "COMMAND_ACK") (MCallable 0 (fun _ => true)) (Some 7)
    (fresh_state alpha 0)
  = (Raise (TypeError "'NoneType' object is not subscriptable"),
     set_futures [[]] (fresh_state alpha 0)) /\
  (_handle_inbound_messages
     [("link", (heartbeat_from 7, "10.0.0.7:14550"));
      ("link", (heartbeat_from 8, "10.0.0.8:14550"))]
     (fresh_state alpha 0)).1
  = Raise (TypeError "'NoneType' object is not subscriptable").
Proof.
  assert (H1 : _matchers (net (fresh_state alpha 0)) = None) by reflexivity.
  split; [exact H1|].
  pose proof (X7_nothing_is_expected_outside_run (type_name "COMMAND_ACK") "COMMAND_ACK"
                (MCallable 0 (fun _ => true)) (Some 7)
                ("link", (heartbeat_from 7, "10.0.0.7:14550"))
                [("link", (heartbeat_from 8, "10.0.0.8:14550"))]
                [] (Ok tt) (fresh_state alpha 0) H1) as H.
  cbv zeta in H. destruct H as (Henter & Hloop & _). split.
  - exact (Henter eq_refl ltac:(discriminate)).
  - exact (f_equal fst (Hloop eq_refl)).
Defined.

Lemma X8_witness :
  matchers_ok alpha_seen_7 /\
  (send_packet ("COMMAND_LONG", 0%nat) 0 None (Some ack_or_value) alpha_seen_7).1
  = Raise (AttributeError "'NoneType' object has no attribute 'items'") /\
  exists n,
    lists (send_packet ("COMMAND_LONG", 0%nat) 0 None (Some ack_or_value) alpha_seen_7).2
    = lists alpha_seen_7 ++ replicate n [].
Proof.
  pose proof alpha_seen_7_matchers_ok as H1.
  assert (H2 : send_packet ("COMMAND_LONG", 0%nat) 0 None (Some ack_or_value) alpha_seen_7
               = (Raise (AttributeError "'NoneType' object has no attribute 'items'"),
                  (send_packet ("COMMAND_LONG", 0%nat) 0 None (Some ack_or_value)
                     alpha_seen_7).2)) by (vm_compute; reflexivity).
  split; [exact H1|]. split; [exact (f_equal fst H2)|].
  exact (proj2 (X8_failed_send_leaves_no_matcher _ _ _ _ _ _ _ H1 H2)).
Defined.

Lemma X9_witness :
  matchers_ok alpha_seen_7 /\
  uav_system_id (uav_objs alpha_seen_7 !!! 0%nat) = Some 7 /\
  exists sc,
    (send_packet ("COMMAND_LONG", 0%nat) 0
       (Some (type_name "COMMAND_ACK", MCallable 0 (fun _ => true))) None alpha_seen_7).1
    = Ok (AwaitingResponse sc) /\
    entry_matches [] (command_ack_from 9) (scope_item sc) = false.
Proof.
  pose proof alpha_seen_7_matchers_ok as H1.
  assert (H2 : uav_system_id (uav_objs alpha_seen_7 !!! 0%nat) = Some 7) by reflexivity.
  split; [exact H1|]. split; [exact H2|].
  set (sc := {| scope_future := 0%nat;
                scope_item := {| entry_system_id := Some 7;
                                 entry_params := MCallable 0 (fun _ => true);
                                 entry_future := 0%nat |};
                scope_matchers := 1%nat |}).
  assert (H3 : send_packet ("COMMAND_LONG", 0%nat) 0
                 (Some (type_name "COMMAND_ACK", MCallable 0 (fun _ => true))) None
                 alpha_seen_7
               = (Ok (AwaitingResponse sc),
                  (send_packet ("COMMAND_LONG", 0%nat) 0
                     (Some (type_name "COMMAND_ACK", MCallable 0 (fun _ => true))) None
                     alpha_seen_7).2)) by (vm_compute; reflexivity).
  exists sc. split; [exact (f_equal fst H3)|].
  destruct (proj1 (X9_responses_come_from_the_target _ _ _ _ 7 _ _ H1 H2) sc H3)
    as (_ & params & _ & _ & Hno).
  apply Hno. discriminate.
Defined.

Lemma X10_witness :
  matchers_ok alpha_expecting /\
  _matchers (net alpha_expecting) = Some {[ "COMMAND_ACK" := 0%nat ]} /\
  futures (resolve_futures (command_ack_from 7) alpha_expecting).2
    !! 0%nat = Some [F_set_result (command_ack_from 7)] /\
  futures (resolve_futures (command_ack_from 9) alpha_expecting).2 !! 0%nat = Some [].
Proof.
  pose proof alpha_expecting_matchers_ok as H1.
  assert (H2 : _matchers (net alpha_expecting) = Some {[ "COMMAND_ACK" := 0%nat ]})
    by (vm_compute; reflexivity).
  split; [exact H1|]. split; [exact H2|].
  set (item := {| entry_system_id := Some 7; entry_params := MCallable 0 (fun _ => true);
                  entry_future := 0%nat |}).
  split.
  - destruct (proj1 (X10_matching_items_are_resolved (command_ack_from 7) _ _ H1 H2)
                0%nat [item] eq_refl eq_refl) as (fs & Hrun & _ & Hitem & _).
    rewrite Hrun. exact (Hitem item [] (list_elem_of_here _ _) eq_refl).
  - destruct (proj1 (X10_matching_items_are_resolved (command_ack_from 9) _ _ H1 H2)
                0%nat [item] eq_refl eq_refl) as (fs & Hrun & _ & Hitem & _).
    rewrite Hrun. exact (Hitem item [] (list_elem_of_here _ _) eq_refl).
Defined.

Lemma X11_witness :
  _connections (net anonymous)
  = [{| conn_spec := "udp-listen://:14550"; conn_is_listener := true |}] /\
  use_name <$> used_connections (started anonymous) = ["MAVLink"].
Proof.
  assert (H1 : _connections (net anonymous)
               = [{| conn_spec := "udp-listen://:14550"; conn_is_listener := true |}])
    by reflexivity.
  split; [exact H1|].
  pose proof (X11_connections_are_registered_under_distinct_names anonymous) as H.
  cbv zeta in H. destruct H as (Hused & _ & _ & Hone).
  rewrite Hused, fmap_app. exact (Hone _ H1).
Defined.

Lemma three_subscribers_ok : sidekick_connections.channels_ok three_subscribers.
Proof.
  split.
  - apply (bool_decide_unpack _). vm_compute. reflexivity.
  - repeat constructor; simpl; lia.
Qed.

Lemma X12_witness :
  sidekick.channels nobody = [] /\
  Forall (fun c => sidekick.max_buffer_size c = 16%nat /\
                   (length (sidekick.buffer c) <= 16)%nat)
    (sidekick.channels
       (sidekick_connections.steps (fun c => c)
          (sidekick_connections.ev_connect ::
           replicate 20 (sidekick_connections.ev_rtk "alpha" rtcm_batch)) nobody)) /\
  length <$> (sidekick.buffer <$> sidekick.channels
       (sidekick_connections.steps (fun c => c)
          (sidekick_connections.ev_connect ::
           replicate 20 (sidekick_connections.ev_rtk "alpha" rtcm_batch)) nobody))
  = [16%nat].
Proof.
  assert (H1 : sidekick.channels nobody = []) by reflexivity.
  split; [exact H1|]. split.
  - exact (proj2 (X12_subscriber_channels_stay_bounded (fun c => c)
                    (sidekick_connections.ev_connect ::
                     replicate 20 (sidekick_connections.ev_rtk "alpha" rtcm_batch))
                    nobody H1)).
  - vm_compute. reflexivity.
Defined.


Lemma X14_witness :
  sidekick_connections.channels_ok three_subscribers /\
  sidekick.log
    (sidekick_connections.handle_connection_safely (Ok "10.0.0.5:41000")
       (fun _ s1 =>
          (sidekick_connections.Exception (RuntimeError "stream is busy"),
           sidekick_connections.steps (fun c => c)
             [sidekick_connections.ev_rtk "alpha" rtcm_batch] s1))
       three_subscribers).2
  = [ log_info "Sidekick connection accepted from 10.0.0.5:41000";
      sidekick.BACKPRESSURE_WARNING;
      log_exception "stream is busy" ] /\
  (3%nat ∉ sidekick.chan_id <$> sidekick.channels
    (sidekick_connections.handle_connection_safely (Ok "10.0.0.5:41000")
       (fun _ s1 =>
          (sidekick_connections.Exception (RuntimeError "stream is busy"),
           sidekick_connections.steps (fun c => c)
             [sidekick_connections.ev_rtk "alpha" rtcm_batch] s1))
       three_subscribers).2).
Proof.
  pose proof three_subscribers_ok as H1. split; [exact H1|].
  pose proof (X14_a_connection_ends_quietly (fun c => c) (Ok "10.0.0.5:41000")
                [sidekick_connections.ev_rtk "alpha" rtcm_batch]
                (sidekick_connections.Exception (RuntimeError "stream is busy"))
                three_subscribers) as H.
  cbv zeta in H. destruct H as (_ & _ & H).
  destruct (H _ eq_refl H1) as [Hgone _].
  split; [vm_compute; reflexivity|exact Hgone].
Defined.

Lemma X15_witness :
  sidekick.rtk_fragments text_batch = false /\
  sidekick.handle_mavlink_rtk_packet_fragments (fun c => c) "alpha" text_batch
    three_subscribers
  = (Raise (TypeError "a bytes-like object is required"), three_subscribers) /\
  sidekick.handle_mavlink_rtk_packet_fragments (fun c => c) "alpha" text_batch nobody
  = (Ok tt, nobody).
Proof.
  assert (H1 : sidekick.rtk_fragments text_batch = false) by reflexivity.
  split; [exact H1|]. split.
  - exact (X15_a_malformed_batch_reaches_nobody (fun c => c) "alpha" text_batch
             three_subscribers H1).
  - exact (X15_a_malformed_batch_reaches_nobody (fun c => c) "alpha" text_batch
             nobody H1).
Defined.

Lemma X16_witness :
  sidekick.encode_messages rtcm_batch
  = Ok [ ("GPS_RTCM_DATA",
          {[ "len" := VInt 3; "flags" := VInt 0; "data" := VStr "AAEC" ]}) ] /\
  forall others,
    sidekick.encode_messages others
    = Ok [ ("GPS_RTCM_DATA",
            {[ "len" := VInt 3; "flags" := VInt 0; "data" := VStr "AAEC" ]}) ] ->
    others = rtcm_batch.
Proof.
  assert (H1 : sidekick.encode_messages rtcm_batch
               = Ok [ ("GPS_RTCM_DATA",
                       ({[ "len" := VInt 3; "flags" := VInt 0; "data" := VStr "AAEC" ]}
                          : gmap string Value)) ]) by (vm_compute; reflexivity).
  split; [exact H1|].
  exact (proj2 (X16_encoded_batches_determine_the_batch rtcm_batch _ H1)).
Defined.

Lemma signals_loaded_ok : signals.namespace_ok signals_loaded.
Proof. intros ns name r [= <-]. by rewrite lookup_empty. Qed.

Lemma X17_witness :
  signals.log signals_loaded = Some [] /\
  signals.send true (fun _ => [counting 0; failing 1; counting 2]) ["alpha"] tt
    (signals_loaded, 0)
  = (Ok [ (counting 0, inl 0); (failing 1, inr (ValueError "no")); (counting 2, inl 11) ],
     (signals.set_log
        (Some [log_exception "Unexpected exception caught in signal dispatch"])
        signals_loaded, 12)) /\
  (signals.send true (fun _ => [counting 0]) ["alpha"; "beta"] tt (signals_loaded, 0)).1
  = Raise (TypeError "send() accepts only one positional argument, 2 given").
Proof.
  assert (H1 : signals.log signals_loaded = Some []) by reflexivity.
  split; [exact H1|].
  pose proof (X17_receivers_are_shielded_from_each_other true
                (fun _ => [counting 0; failing 1; counting 2]) ["alpha"] tt
                signals_loaded 0 [] H1) as Ha.
  pose proof (X17_receivers_are_shielded_from_each_other true
                (fun _ => [counting 0]) ["alpha"; "beta"] tt signals_loaded 0 [] H1) as Hb.
  cbv zeta in Ha, Hb. destruct Ha as (_ & _ & Ha). destruct Hb as (Hb & _).
  split.
  - destruct (Ha ltac:(simpl; lia) eq_refl) as (result & st' & Hrun & _).
    rewrite Hrun. vm_compute in Hrun. injection Hrun as <- <-. reflexivity.
  - rewrite (Hb ltac:(simpl; lia)). reflexivity.
Defined.

Lemma X18_witness :
  signals.namespace_ok signals_loaded /\
  (signals.get_signal "mavlink:rtk_fragments" signals_loaded).1 = Ok 0%nat /\
  (signals.get_signal "mavlink:rtk_fragments"
     (signals.get_signals ["show:start"; "mavlink:rtk_fragments"]
        (signals.get_signal "mavlink:rtk_fragments" signals_loaded).2)).1 = Ok 0%nat.
Proof.
  pose proof signals_loaded_ok as H1.
  assert (H2 : signals.get_signal "mavlink:rtk_fragments" signals_loaded
               = (Ok 0%nat,
                  (signals.get_signal "mavlink:rtk_fragments" signals_loaded).2))
    by reflexivity.
  split; [exact H1|]. split; [exact (f_equal fst H2)|].
  destruct (X18_a_name_keeps_its_signal_while_loaded _ _ _ _ H1 H2) as [_ H].
  destruct (H ["show:start"; "mavlink:rtk_fragments"]) as (Hsame & _).
  exact (f_equal fst Hsame).
Defined.

Lemma X19_witness :
  signals.log signals_loaded = Some [] /\
  sidekick.rtk_fragments text_batch = false /\
  exists result st' n,
    signals.send true (fun _ => [rtk_receiver (fun c => c) 0]) ["alpha"] text_batch
      (signals_loaded, three_subscribers)
    = (Ok result, (st', three_subscribers)) /\
    result !! 0%nat
    = Some (rtk_receiver (fun c => c) 0,
            inr (TypeError "a bytes-like object is required")) /\
    signals.log st'
    = Some (replicate (S n)
              (log_exception "Unexpected exception caught in signal dispatch")).
Proof.
  assert (H1 : signals.log signals_loaded = Some []) by reflexivity.
  assert (H2 : sidekick.rtk_fragments text_batch = false) by reflexivity.
  split; [exact H1|]. split; [exact H2|].
  destruct (X19_a_failing_fanout_does_not_stop_the_signal (fun c => c) 0 [] []
              "alpha" text_batch signals_loaded three_subscribers [] H1 H2
              ltac:(discriminate)) as (result & st' & n & Hrun & _ & Hres & Hlog).
  exists result, st', n. split; [exact Hrun|]. split; [exact Hres|exact Hlog].
Defined.


Lemma X22_witness :
  fake_uavs.running (fake_uavs._status_reporter (fake_uavs.ext (spinning 10))) = true /\
  let w' :=
    provider_step
      (fold_left provider_step
         [fake_uavs.ev_spindown; fake_uavs.ev_spinup; fake_uavs.ev_spindown;
          fake_uavs.ev_spinup] (spinning 10))
      (fake_uavs.ev_wake 1%float) in
  fake_uavs.running (fake_uavs._status_reporter (fake_uavs.ext w')) = false /\
  fake_uavs.hub w' = [].
Proof.
  assert (H1 : fake_uavs.running
                 (fake_uavs._status_reporter (fake_uavs.ext (spinning 10))) = true)
    by reflexivity.
  assert (H2 : Forall (fun ev => ev = fake_uavs.ev_spinup \/ ev = fake_uavs.ev_spindown)
                 [fake_uavs.ev_spinup; fake_uavs.ev_spindown; fake_uavs.ev_spinup])
    by (repeat first [apply Forall_nil
                     |apply Forall_cons; [first [left; reflexivity|right; reflexivity]|]]).
  split; [exact H1|].
  destruct (X22_a_start_after_a_stop_can_be_lost flat_gps (fun _ => 1%float)
              (fun _ => 0%float) flat_to_gps fake_format
              [fake_uavs.ev_spinup; fake_uavs.ev_spindown; fake_uavs.ev_spinup]
              1%float (spinning 10) H1 H2) as (Hrun & Hhub & _).
  split; [exact Hrun|exact Hhub].
Defined.

